(** * Road-tile SVG generators: port/mask codec, rotation deriver, dedup

    A shallow embedding of the three generator scripts
    - [generate-using-8bit.py]            (module [Mask8]),
    - [generate-using-8bit-start-goal.py] (module [Marker]),
    - [generate.py]                       (module [TileKeyGen]),
    together with the properties of the port/mask codec, of the rotation
    deriver and of the deduplication by mask.

    Python integers that are never negative (bit indices, masks, angles,
    coordinates, counters) are [N]; the loop index of [enumerate], from
    which the code subtracts one, is [Z].  Dictionaries that are only
    looked up are [gmap]s, dictionaries that are iterated are association
    lists in insertion order, and the [set] of used masks is a [gset]. *)

From Stdlib Require Import NArith ZArith Ascii DecimalString.
From stdpp Require Import gmap strings list.

(** ** The Python runtime, as far as the scripts use it *)

Inductive exn : Type :=
| KeyError (key : string)
| IndexError
| ValueError (msg : string).

Inductive result (A : Type) : Type :=
| Ok (a : A)
| Raise (e : exn).
Arguments Ok {A} a.
Arguments Raise {A} e.

(** What a run does to the outside world, in order. *)
Inductive event : Type :=
| MakeDirs (dir : string)
| Print (line : string)
| WriteFile (path : string) (text : string).

(** A computation: the events it performed, then its value or the exception
    that stopped it. *)
Definition run (A : Type) : Type := (list event * result A)%type.

Definition trace {A} (r : run A) : list event := r.1.
Definition outcome {A} (r : run A) : result A := r.2.

Definition run_ret {A} (a : A) : run A := ([], Ok a).
Definition run_bind {A B} (f : A → run B) (m : run A) : run B :=
  match m with
  | (t, Ok a) => let r := f a in (t ++ r.1, r.2)
  | (t, Raise e) => (t, Raise e)
  end.

#[global] Instance run_mret : MRet run := @run_ret.
#[global] Instance run_mbind : MBind run := @run_bind.

Definition emit (e : event) : run unit := ([e], Ok tt).
Definition lift {A} (r : result A) : run A := ([], r).

(** The names of the files written by a trace, in writing order. *)
Fixpoint written (t : list event) : list string :=
  match t with
  | [] => []
  | WriteFile path _ :: t' => path :: written t'
  | _ :: t' => written t'
  end.

(** The lines printed by a trace, in order. *)
Fixpoint printed (t : list event) : list string :=
  match t with
  | [] => []
  | Print line :: t' => line :: printed t'
  | _ :: t' => printed t'
  end.

(** [l[i]] on a Python list: a negative index counts from the end. *)
Definition py_index {A} (l : list A) (i : Z) : result A :=
  let j := if (i <? 0)%Z then (i + Z.of_nat (length l))%Z else i in
  if (j <? 0)%Z then Raise IndexError
  else match l !! Z.to_nat j with
       | Some x => Ok x
       | None => Raise IndexError
       end.

(** [enumerate(xs)] *)
Fixpoint enumerate_from {A} (i : Z) (xs : list A) : list (Z * A) :=
  match xs with
  | [] => []
  | x :: xs' => (i, x) :: enumerate_from (i + 1)%Z xs'
  end.
Definition enumerate {A} (xs : list A) : list (Z * A) := enumerate_from 0%Z xs.

(** [s.split(sep)] for a one-character separator. *)
Fixpoint split (sep : ascii) (s : string) : list string :=
  match s with
  | EmptyString => [EmptyString]
  | String c rest =>
      if Ascii.eqb c sep then EmptyString :: split sep rest
      else match split sep rest with
           | [] => [String c EmptyString]
           | tok :: toks => String c tok :: toks
           end
  end.

(** [sep.join(xs)] *)
Fixpoint join (sep : string) (xs : list string) : string :=
  match xs with
  | [] => ""
  | [x] => x
  | x :: xs' => x +:+ sep +:+ join sep xs'
  end.

(** [s[:-4]] *)
Definition drop_last4 (s : string) : string :=
  String.substring 0 (String.length s - 4) s.

(** [s.replace(".svg", "")]: every occurrence, scanning from the left. *)
Fixpoint remove_dot_svg (s : string) : string :=
  match s with
  | String "." (String "s" (String "v" (String "g" rest))) => remove_dot_svg rest
  | String c rest => String c (remove_dot_svg rest)
  | EmptyString => EmptyString
  end.

(** [os.path.join(a, b)] on a POSIX system. *)
Definition os_path_join (a b : string) : string :=
  match b with
  | String "/" _ => b
  | _ =>
      match a with
      | EmptyString => b
      | _ => if String.eqb (String.substring (String.length a - 1) 1 a) "/"
             then a +:+ b else a +:+ "/" +:+ b
      end
  end.

(** [f"{n}"] for a non-negative integer. *)
Definition format_d (n : N) : string := NilEmpty.string_of_uint (N.to_uint n).

(** Upper-case hexadecimal digits, most significant first. *)
Definition hex_char (d : N) : ascii :=
  match d with
  | 0 => "0" | 1 => "1" | 2 => "2" | 3 => "3" | 4 => "4" | 5 => "5"
  | 6 => "6" | 7 => "7" | 8 => "8" | 9 => "9" | 10 => "A" | 11 => "B"
  | 12 => "C" | 13 => "D" | 14 => "E" | _ => "F"
  end%N%char.

Fixpoint hex_upper_fuel (fuel : nat) (n : N) : string :=
  match fuel with
  | O => ""
  | S fuel' =>
      if (n <? 16)%N then String (hex_char n) ""
      else hex_upper_fuel fuel' (n / 16)%N +:+ String (hex_char (n mod 16)%N) ""
  end.

(** [f"{n:X}"]: a number of [k] bits has at most [k] hexadecimal digits. *)
Definition hex_upper (n : N) : string := hex_upper_fuel (S (N.size_nat n)) n.

(** Left padding with zeros up to a width. *)
Fixpoint zeros (k : nat) : string :=
  match k with
  | O => ""
  | S k' => String "0" (zeros k')
  end.

(** [f"{n:02X}"] *)
Definition format_02X (n : N) : string :=
  let s := hex_upper n in zeros (2 - String.length s) +:+ s.

(** Reading hexadecimal back, used to show that the formatting loses
    nothing. *)
Definition hex_val (c : ascii) : N :=
  (if Ascii.eqb c "0" then 0 else if Ascii.eqb c "1" then 1
   else if Ascii.eqb c "2" then 2 else if Ascii.eqb c "3" then 3
   else if Ascii.eqb c "4" then 4 else if Ascii.eqb c "5" then 5
   else if Ascii.eqb c "6" then 6 else if Ascii.eqb c "7" then 7
   else if Ascii.eqb c "8" then 8 else if Ascii.eqb c "9" then 9
   else if Ascii.eqb c "A" then 10 else if Ascii.eqb c "B" then 11
   else if Ascii.eqb c "C" then 12 else if Ascii.eqb c "D" then 13
   else if Ascii.eqb c "E" then 14 else 15)%N.

Fixpoint parse_hex (acc : N) (s : string) : N :=
  match s with
  | EmptyString => acc
  | String c rest => parse_hex (16 * acc + hex_val c)%N rest
  end.

(** A Rocq string literal doubles the quote character; the SVG templates
    below are written with an apostrophe wherever the scripts have a double
    quote, and [dq] puts the double quotes back.  None of the templates
    contains an apostrophe of its own. *)
Fixpoint dq (s : string) : string :=
  match s with
  | EmptyString => EmptyString
  | String c rest =>
      String (if Ascii.eqb c "'" then "034"%char else c) (dq rest)
  end.

(** [result] is the exception monad. *)
Definition result_bind {A B} (f : A → result B) (m : result A) : result B :=
  match m with
  | Ok a => f a
  | Raise e => Raise e
  end.

#[global] Instance result_mret : MRet result := @Ok.
#[global] Instance result_mbind : MBind result := @result_bind.

(** [k in d] on a dictionary. *)
Definition dict_contains {V} (d : gmap string V) (k : string) : bool :=
  bool_decide (is_Some (d !! k)).

(** [d[k]] on a dictionary. *)
Definition dict_getitem {V} (d : gmap string V) (k : string) : result V :=
  match d !! k with
  | Some v => Ok v
  | None => Raise (KeyError k)
  end.

(** The value type of the path dictionaries: every entry of the scripts has
    exactly the two keys ["outer"] and ["inner"]. *)
Record paths : Type := Paths { outer : string; inner : string }.

(** ** generate-using-8bit.py: file names carry the 8-bit mask *)

Module Mask8.

Definition PAIR_TO_BIT : gmap string N :=
  list_to_map
    [ ("U1U2", 0%N); ("U2U3", 1%N);
      ("R1R2", 2%N); ("R2R3", 3%N);
      ("D2D3", 4%N); ("D1D2", 5%N);
      ("L2L3", 6%N); ("L1L2", 7%N) ].

(** The body of the [for pair in key.split("-")] loop, with [mask] as the
    accumulator. *)
Fixpoint key_to_mask_loop (mask : N) (pairs : list string) : result N :=
  match pairs with
  | [] => Ok mask
  | pr :: rest =>
      match PAIR_TO_BIT !! pr with
      | Some bit => key_to_mask_loop (N.lor mask (N.shiftl 1 bit)) rest
      | None => Raise (ValueError ("Unknown port pair '" +:+ pr +:+ "'"))
      end
  end.

Definition key_to_mask (key : string) : result N :=
  key_to_mask_loop 0 (split "-" key).

(** [SVG_TMPL.format(...)] *)
Definition SVG_TMPL_format (svg_id desc transform outer inner : string)
    : string :=
  dq "<svg xmlns='http://www.w3.org/2000/svg' id='"
  +:+ svg_id
  +:+ dq "' width='40' height='40' viewBox='0 0 40 40'>
  <desc>"
  +:+ desc
  +:+ dq "</desc>
  <g stroke='#ccc' stroke-width='0.5'>
    <line x1='10' y1='0' x2='10' y2='40'/><line x1='20' y1='0' x2='20' y2='40'/><line x1='30' y1='0' x2='30' y2='40'/>
    <line x1='0' y1='10' x2='40' y2='10'/><line x1='0' y1='20' x2='40' y2='20'/><line x1='0' y1='30' x2='40' y2='30'/>
    <rect x='0' y='0' width='40' height='40' fill='none'/>
  </g>
  <g stroke='#000' stroke-width='1' fill='none'"
  +:+ transform
  +:+ dq ">
    <path d='"
  +:+ outer
  +:+ dq "' />
    <path d='"
  +:+ inner
  +:+ dq "' />
  </g>
</svg>".

Definition curve_paths_base : list (string * paths) :=
  [ ("U1U2-R1R2", Paths "M 10 0 L 10 10 C 10 15.5 14.5 20 20 20 L 40 20"
                        "M 20 0 L 20 5 C 20 7.8 22.2 10 25 10 L 40 10");
    ("U1U2-R2R3", Paths "M 10 0 L 10 20 C 10 25.5 14.5 30 20 30 L 40 30"
                        "M 20 0 L 20 15 C 20 17.8 22.2 20 25 20 L 40 20");
    ("U2U3-R1R2", Paths "M 20 0 L 20 10 C 20 15.5 24.5 20 30 20 L 40 20"
                        "M 30 0 L 30 5 C 30 7.8 32.2 10 35 10 L 40 10");
    ("U2U3-R2R3", Paths "M 20 0 L 20 20 C 20 25.5 24.5 30 30 30 L 40 30"
                        "M 30 0 L 30 15 C 30 17.8 32.2 20 35 20 L 40 20") ].

Definition sharp_paths_base : list (string * paths) :=
  [ ("U1U2-R1R2", Paths "M 10 0 L 10 20 L 40 20" "M 20 0 L 20 10 L 40 10");
    ("U1U2-R2R3", Paths "M 10 0 L 10 30 L 40 30" "M 20 0 L 20 20 L 40 20");
    ("U2U3-R1R2", Paths "M 20 0 L 20 20 L 40 20" "M 30 0 L 30 10 L 40 10");
    ("U2U3-R2R3", Paths "M 20 0 L 20 30 L 40 30" "M 30 0 L 30 20 L 40 20") ].

Definition straight_paths : list (string * paths) :=
  [ ("L2L3-R2R3", Paths "M 0 20 L 40 20" "M 0 30 L 40 30");
    ("R2R3-L2L3", Paths "M 40 20 L 0 20" "M 40 30 L 0 30");
    ("U2U3-D2D3", Paths "M 20 0 L 20 40" "M 30 0 L 30 40");
    ("D2D3-U2U3", Paths "M 20 40 L 20 0" "M 30 40 L 30 0") ].

Definition ROT_KEYS : gmap string (list string) :=
  list_to_map
    [ ("U1U2-R1R2", ["R1R2-D1D2"; "D1D2-L1L2"; "L1L2-U1U2"]);
      ("U1U2-R2R3", ["R1R2-D2D3"; "D1D2-L2L3"; "L1L2-U2U3"]);
      ("U2U3-R1R2", ["R2R3-D1D2"; "D2D3-L1L2"; "L2L3-U1U2"]);
      ("U2U3-R2R3", ["R2R3-D2D3"; "D2D3-L2L3"; "L2L3-U2U3"]) ].

Definition OUT_DIR : string := "road_tiles_8bit".

Definition write_svg (fname desc outer inner transform : string) : run unit :=
  emit (WriteFile (os_path_join OUT_DIR fname)
          (SVG_TMPL_format (drop_last4 fname) desc transform outer inner)).

Definition ANGLES : list N := [0; 90; 180; 270]%N.

(** [base_key if angle == 0 else ROT_KEYS[base_key][idx - 1]]; the rotation
    table is the global [ROT_KEYS], taken here as an argument. *)
Definition variant_key (rot : gmap string (list string))
    (base_key : string) (idx : Z) (angle : N) : result string :=
  if (angle =? 0)%N then Ok base_key
  else ks ← dict_getitem rot base_key; py_index ks (idx - 1)%Z.

Definition tile_fname (tile_type : string) (mask : N) : string :=
  "road-tile-" +:+ tile_type +:+ "-" +:+ format_02X mask +:+ ".svg".

Definition tile_desc (tile_type key : string) (mask : N) : string :=
  tile_type +:+ " tile, key=" +:+ key +:+ ", mask=0x" +:+ format_02X mask.

Definition transform_attr (angle : N) : string :=
  if (angle =? 0)%N then ""
  else dq " transform='rotate(" +:+ format_d angle +:+ dq " 20 20)'".

(** The inner loop [for idx, angle in enumerate((0, 90, 180, 270))] of
    [gen_rot_tiles], threading [used_masks]. *)
Fixpoint gen_rot_angles (rot : gmap string (list string))
    (tile_type base_key : string) (p : paths)
    (variants : list (Z * N)) (used_masks : gset N) : run (gset N) :=
  match variants with
  | [] => mret used_masks
  | (idx, angle) :: rest =>
      key ← lift (variant_key rot base_key idx angle);
      mask ← lift (key_to_mask key);
      let fname := tile_fname tile_type mask in
      if decide (mask ∈ used_masks)
      then gen_rot_angles rot tile_type base_key p rest used_masks
      else
        write_svg fname (tile_desc tile_type key mask)
          (outer p) (inner p) (transform_attr angle);;
        gen_rot_angles rot tile_type base_key p rest ({[mask]} ∪ used_masks)
  end.

(** The outer loop [for base_key, paths in base_dict.items()]. *)
Fixpoint gen_rot_items (rot : gmap string (list string)) (tile_type : string)
    (items : list (string * paths)) (used_masks : gset N) : run (gset N) :=
  match items with
  | [] => mret used_masks
  | (base_key, p) :: rest =>
      used_masks' ← gen_rot_angles rot tile_type base_key p
                      (enumerate ANGLES) used_masks;
      gen_rot_items rot tile_type rest used_masks'
  end.

(** [gen_rot_tiles] over a given rotation table: [used_masks] starts
    empty and lives for the one call. *)
Definition gen_rot_tiles_with (rot : gmap string (list string))
    (base_dict : list (string * paths)) (tile_type : string) : run unit :=
  gen_rot_items rot tile_type base_dict ∅;; mret tt.

(** [gen_rot_tiles] as the script has it, over [ROT_KEYS]. *)
Definition gen_rot_tiles (base_dict : list (string * paths))
    (tile_type : string) : run unit :=
  gen_rot_tiles_with ROT_KEYS base_dict tile_type.

(** The loop over [straight_paths.items()] of the main block. *)
Fixpoint straight_loop (items : list (string * paths))
    (used_masks : gset N) : run (gset N) :=
  match items with
  | [] => mret used_masks
  | (key, p) :: rest =>
      mask ← lift (key_to_mask key);
      let fname := tile_fname "straight" mask in
      if decide (mask ∈ used_masks)
      then straight_loop rest used_masks
      else
        write_svg fname (tile_desc "straight" key mask) (outer p) (inner p) "";;
        straight_loop rest ({[mask]} ∪ used_masks)
  end.

(** The script run as a program: the module-level [os.makedirs], then the
    main block. *)
Definition main : run unit :=
  emit (MakeDirs OUT_DIR);;
  emit (Print "Generating curve tiles …");;
  gen_rot_tiles curve_paths_base "curve";;
  emit (Print "Generating sharp tiles …");;
  gen_rot_tiles sharp_paths_base "sharp";;
  emit (Print "Generating straight tiles …");;
  straight_loop straight_paths ∅;;
  emit (Print ("Done. SVG files are in: " +:+ OUT_DIR)).

End Mask8.

(** ** generate-using-8bit-start-goal.py: start and goal marker tiles *)

Module Marker.

Definition PORT_TO_BIT : gmap string N :=
  list_to_map
    [ ("N0", 0%N); ("N1", 1%N);
      ("E0", 2%N); ("E1", 3%N);
      ("S1", 4%N); ("S0", 5%N);
      ("W1", 6%N); ("W0", 7%N) ].

(** [{port: (1 << bit) for port, bit in PORT_TO_BIT.items()}] *)
Definition PORT_TO_MASK : gmap string N := (λ bit, N.shiftl 1 bit) <$> PORT_TO_BIT.

Definition PORT_TO_LINES : gmap string (list (N * N * N * N)) :=
  list_to_map
    [ ("N0", [(10, 0, 10, 10); (20, 0, 20, 10)]);
      ("N1", [(20, 0, 20, 10); (30, 0, 30, 10)]);
      ("E0", [(30, 10, 40, 10); (30, 20, 40, 20)]);
      ("E1", [(30, 20, 40, 20); (30, 30, 40, 30)]);
      ("S1", [(20, 30, 20, 40); (30, 30, 30, 40)]);
      ("S0", [(10, 30, 10, 40); (20, 30, 20, 40)]);
      ("W1", [(0, 20, 10, 20); (0, 30, 10, 30)]);
      ("W0", [(0, 10, 10, 10); (0, 20, 10, 20)]) ]%N.

Definition OUT_DIR : string := "marker_tiles".

(** [SVG_BASE_TMPL.format(...)] *)
Definition SVG_BASE_TMPL_format (svg_id desc port_lines content : string)
    : string :=
  dq "<svg xmlns='http://www.w3.org/2000/svg' id='"
  +:+ svg_id
  +:+ dq "' width='40' height='40' viewBox='0 0 40 40'>
  <desc>"
  +:+ desc
  +:+ dq "</desc>
  <g stroke='#ccc' stroke-width='0.5'>
    <line x1='10' y1='0' x2='10' y2='40'/><line x1='20' y1='0' x2='20' y2='40'/><line x1='30' y1='0' x2='30' y2='40'/>
    <line x1='0' y1='10' x2='40' y2='10'/><line x1='0' y1='20' x2='40' y2='20'/><line x1='0' y1='30' x2='40' y2='30'/>
    <rect x='0' y='0' width='40' height='40' fill='none'/>
  </g>
"
  +:+ port_lines
  +:+ dq "
"
  +:+ content
  +:+ dq "
</svg>".

Definition START_CONTENT : string :=
  dq "  <!-- スタートフラッグと装飾 -->
  <g>
    <!-- フラッグポール -->
    <rect x='10' y='5' width='1.5' height='20' fill='#555' />
    <!-- フラッグ -->
    <path d='M 11.5 5 v 10 L 18 10 z' fill='#3498db' />
    <!-- 「START」テキスト -->
    <g transform='translate(5, 32)'>
      <rect x='0' y='-7' width='30' height='10' rx='2' fill='#3498db' fill-opacity='0.2' />
      <text x='15' y='0' font-family='Arial, sans-serif' font-size='6' text-anchor='middle' font-weight='bold' fill='#3498db'>START</text>
    </g>
  </g>".

Definition GOAL_CONTENT : string :=
  dq "  <!-- チェッカーフラッグと装飾 -->
  <g>
    <!-- 「GOAL」テキスト -->
    <g transform='translate(5, 32)'>
      <rect x='0' y='-7' width='30' height='10' rx='2' fill='#e74c3c' fill-opacity='0.2' />
      <text x='15' y='0' font-family='Arial, sans-serif' font-size='6' text-anchor='middle' font-weight='bold' fill='#e74c3c'>GOAL</text>
    </g>
    <!-- ターゲットマーク -->
    <g transform='translate(20, 15)'>
      <circle cx='0' cy='0' r='6' fill='none' stroke='#e74c3c' stroke-width='1' />
      <circle cx='0' cy='0' r='3' fill='none' stroke='#e74c3c' stroke-width='1' />
      <circle cx='0' cy='0' r='1' fill='#e74c3c' />
    </g>
  </g>".

Definition newline : string := String "010"%char "".

(** One [<path>] element per line of a port. *)
Definition port_line (l : N * N * N * N) : string :=
  let '(x1, y1, x2, y2) := l in
  dq "    <path d='M " +:+ format_d x1 +:+ " " +:+ format_d y1
  +:+ " L " +:+ format_d x2 +:+ " " +:+ format_d y2 +:+ dq "' />".

(** The loop [for port in ports] of [generate_port_lines], with [lines] as
    the accumulator: the two path elements of a port that is in
    [PORT_TO_LINES] are appended, any other port is passed over. *)
Fixpoint port_lines_loop (lines : list string) (ports : list string)
    : list string :=
  match ports with
  | [] => lines
  | port :: rest =>
      if dict_contains PORT_TO_LINES port
      then match PORT_TO_LINES !! port with
           | Some ls => port_lines_loop (lines ++ map port_line ls) rest
           | None => port_lines_loop lines rest
           end
      else port_lines_loop lines rest
  end.

Definition generate_port_lines (ports : list string) : string :=
  match ports with
  | [] => ""
  | _ =>
      let lines :=
        port_lines_loop
          ["  <!-- ポート接続（黒線） -->";
           dq "  <g stroke='#000' stroke-width='1' fill='none'>"] ports in
      join newline (lines ++ ["  </g>"])
  end.

Definition write_marker_svg (filename desc : string) (ports : list string)
    (content : string) : run unit :=
  let svg_id := drop_last4 filename in
  let port_lines := generate_port_lines ports in
  let svg_content := SVG_BASE_TMPL_format svg_id desc port_lines content in
  emit (WriteFile (os_path_join OUT_DIR filename) svg_content).

(** The loop of [calculate_mask], with [mask] as the accumulator: the
    subscript [PORT_TO_MASK[port]] is reached only under the membership
    test, and a port that fails the test is passed over. *)
Fixpoint calculate_mask_loop (mask : N) (ports : list string) : result N :=
  match ports with
  | [] => Ok mask
  | port :: rest =>
      if dict_contains PORT_TO_MASK port
      then m ← dict_getitem PORT_TO_MASK port;
           calculate_mask_loop (N.lor mask m) rest
      else calculate_mask_loop mask rest
  end.

Definition calculate_mask (ports : list string) : result N :=
  calculate_mask_loop 0 ports.

Definition generate_marker_tile (tile_type : string) (ports : list string)
    : run string :=
  mask ← lift (calculate_mask ports);
  let port_str := match ports with [] => "none" | _ => join "_" ports end in
  let '(filename, desc, content) :=
    if String.eqb tile_type "start" then
      ("road-tile-marker-start-" +:+ format_02X mask +:+ ".svg",
       "Start marker tile, ports=[" +:+ join "," ports +:+ "], mask=0x"
         +:+ format_02X mask,
       START_CONTENT)
    else
      ("road-tile-marker-goal-" +:+ format_02X mask +:+ ".svg",
       "Goal marker tile, ports=[" +:+ join "," ports +:+ "], mask=0x"
         +:+ format_02X mask,
       GOAL_CONTENT) in
  write_marker_svg filename desc ports content;;
  emit (Print ("生成: " +:+ filename +:+ " (ポート: " +:+ port_str
               +:+ ", マスク: 0x" +:+ format_02X mask +:+ ")"));;
  mret filename.

Definition start_warning (start_port : string) : string :=
  "警告: 無効なスタートポート '" +:+ start_port
  +:+ "' が指定されました。デフォルトの 'E0' を使用します。".

Definition goal_warning (goal_port : string) : string :=
  "警告: 無効なゴールポート '" +:+ goal_port
  +:+ "' が指定されました。デフォルトの 'W0' を使用します。".

Definition generate_marker_tiles (start_port goal_port : string)
    : run (string * string) :=
  start_port ← (if dict_contains PORT_TO_MASK start_port
                then mret start_port
                else emit (Print (start_warning start_port));; mret "E0");
  goal_port ← (if dict_contains PORT_TO_MASK goal_port
               then mret goal_port
               else emit (Print (goal_warning goal_port));; mret "W0");
  start_file ← generate_marker_tile "start" [start_port];
  goal_file ← generate_marker_tile "goal" [goal_port];
  emit (Print ("マーカータイル生成完了。ファイルは " +:+ OUT_DIR
               +:+ " ディレクトリに保存されました。"));;
  mret (start_file, goal_file).

(** The script run from the command line: the module-level [os.makedirs],
    then the main block; [None] is an option left out, for which
    [argparse] supplies the default. *)
Definition main (start goal : option string) : run (string * string) :=
  emit (MakeDirs OUT_DIR);;
  generate_marker_tiles (default "E0" start) (default "W0" goal).

End Marker.

(** ** generate.py: file names carry the tile key itself *)

Module TileKeyGen.

(** [SVG_TEMPLATE.format(...)] *)
Definition SVG_TEMPLATE_format
    (svg_id description transform_attr path_type path_outer path_inner : string)
    : string :=
  dq "<svg xmlns='http://www.w3.org/2000/svg' id='"
  +:+ svg_id
  +:+ dq "' width='40' height='40' viewBox='0 0 40 40'>
  <desc>"
  +:+ description
  +:+ dq "</desc>
  <defs>
    <style>
      /* Styles can be kept simple or removed if not strictly needed */
      /* .grid { stroke: #cccccc; stroke-width: 0.5; } */
      /* .road { stroke: #000000; stroke-width: 1; fill: none; } */
      /* .point { fill: #ff0000; } */
    </style>
  </defs>

  <g id='grid' stroke='#cccccc' stroke-width='0.5'>
    <line x1='0' y1='10' x2='40' y2='10' /> <line x1='0' y1='20' x2='40' y2='20' /> <line x1='0' y1='30' x2='40' y2='30' />
    <line x1='10' y1='0' x2='10' y2='40' /> <line x1='20' y1='0' x2='20' y2='40' /> <line x1='30' y1='0' x2='30' y2='40' />
    <line x1='0' y1='0' x2='40' y2='0' /> <line x1='0' y1='40' x2='40' y2='40' />
    <line x1='0' y1='0' x2='0' y2='40' /> <line x1='40' y1='0' x2='40' y2='40' />
  </g>

  <g id='road' stroke='#000000' stroke-width='1' fill='none'"
  +:+ transform_attr
  +:+ dq ">
    <path id='road-outer-"
  +:+ path_type
  +:+ dq "' d='"
  +:+ path_outer
  +:+ dq "' />
    <path id='road-inner-"
  +:+ path_type
  +:+ dq "' d='"
  +:+ path_inner
  +:+ dq "' />
  </g>

  <g id='anchor-points' fill='#ff0000'>
    <circle cx='10' cy='0' r='1' /> <circle cx='20' cy='0' r='1' /> <circle cx='30' cy='0' r='1' />
    <circle cx='40' cy='10' r='1' /> <circle cx='40' cy='20' r='1' /> <circle cx='40' cy='30' r='1' />
    <circle cx='10' cy='40' r='1' /> <circle cx='20' cy='40' r='1' /> <circle cx='30' cy='40' r='1' />
    <circle cx='0' cy='10' r='1' /> <circle cx='0' cy='20' r='1' /> <circle cx='0' cy='30' r='1' />
  </g>
</svg>
".

(** [s.capitalize()] on ASCII text: first letter upper case, the rest
    lower case.  The tile types are plain ASCII words. *)
Definition upper_ascii (c : ascii) : ascii :=
  let n := nat_of_ascii c in
  if (97 <=? n)%nat && (n <=? 122)%nat then ascii_of_nat (n - 32) else c.

Definition lower_ascii (c : ascii) : ascii :=
  let n := nat_of_ascii c in
  if (65 <=? n)%nat && (n <=? 90)%nat then ascii_of_nat (n + 32) else c.

Fixpoint lower (s : string) : string :=
  match s with
  | EmptyString => EmptyString
  | String c rest => String (lower_ascii c) (lower rest)
  end.

Definition capitalize (s : string) : string :=
  match s with
  | EmptyString => EmptyString
  | String c rest => String (upper_ascii c) (lower rest)
  end.

Definition dir_map_full : gmap string string :=
  list_to_map [ ("U", "Upper"); ("R", "Right"); ("D", "Bottom"); ("L", "Left") ].

Definition pair_range_map : gmap string string :=
  list_to_map
    [ ("U1U2", "(X:10-20)"); ("U2U3", "(X:20-30)");
      ("R1R2", "(Y:10-20)"); ("R2R3", "(Y:20-30)");
      ("D1D2", "(X:10-20)"); ("D2D3", "(X:20-30)");
      ("L1L2", "(Y:10-20)"); ("L2L3", "(Y:20-30)") ].

(** [s[0]] *)
Definition first_char (s : string) : result string :=
  match s with
  | EmptyString => Raise IndexError
  | String c _ => Ok (String c EmptyString)
  end.

(** [d.get(k, dflt)] *)
Definition dict_get (d : gmap string string) (k dflt : string) : string :=
  default dflt (d !! k).

Definition get_description (tile_key tile_type : string) : result string :=
  match split "-" tile_key with
  | [entry_pair; exit_pair] =>
      c_in ← first_char entry_pair;
      let entry_dir := dict_get dir_map_full c_in "Unknown" in
      c_out ← first_char exit_pair;
      let exit_dir := dict_get dir_map_full c_out "Unknown" in
      let entry_range := dict_get pair_range_map entry_pair "(Unknown)" in
      let exit_range := dict_get pair_range_map exit_pair "(Unknown)" in
      mret (capitalize tile_type +:+ " tile: Entry " +:+ entry_dir +:+ " "
            +:+ entry_range +:+ ", Exit " +:+ exit_dir +:+ " " +:+ exit_range)
  | _ => mret (capitalize tile_type +:+ " tile")
  end.

Definition curve_paths_base : list (string * paths) :=
  [ ("U1U2-R1R2", Paths "M 10 0 L 10 10 C 10 15.5 14.5 20 20 20 L 40 20"
                        "M 20 0 L 20 5 C 20 7.8 22.2 10 25 10 L 40 10");
    ("U1U2-R2R3", Paths "M 10 0 L 10 20 C 10 25.5 14.5 30 20 30 L 40 30"
                        "M 20 0 L 20 15 C 20 17.8 22.2 20 25 20 L 40 20");
    ("U2U3-R1R2", Paths "M 20 0 L 20 10 C 20 15.5 24.5 20 30 20 L 40 20"
                        "M 30 0 L 30 5 C 30 7.8 32.2 10 35 10 L 40 10");
    ("U2U3-R2R3", Paths "M 20 0 L 20 20 C 20 25.5 24.5 30 30 30 L 40 30"
                        "M 30 0 L 30 15 C 30 17.8 32.2 20 35 20 L 40 20") ].

Definition sharp_paths_base : list (string * paths) :=
  [ ("U1U2-R1R2", Paths "M 10 0 L 10 20 L 40 20" "M 20 0 L 20 10 L 40 10");
    ("U1U2-R2R3", Paths "M 10 0 L 10 30 L 40 30" "M 20 0 L 20 20 L 40 20");
    ("U2U3-R1R2", Paths "M 20 0 L 20 20 L 40 20" "M 30 0 L 30 10 L 40 10");
    ("U2U3-R2R3", Paths "M 20 0 L 20 30 L 40 30" "M 30 0 L 30 20 L 40 20") ].

Definition straight_paths : list (string * paths) :=
  [ ("L2L3-R2R3", Paths "M 0 20 L 40 20" "M 0 30 L 40 30");
    ("R2R3-L2L3", Paths "M 40 20 L 0 20" "M 40 30 L 0 30");
    ("U2U3-D2D3", Paths "M 20 0 L 20 40" "M 30 0 L 30 40");
    ("D2D3-U2U3", Paths "M 20 40 L 20 0" "M 30 40 L 30 0") ].

Definition output_dir : string := "road_tiles".

Definition rotated_keys_map : gmap string (list string) :=
  list_to_map
    [ ("U1U2-R1R2", ["R1R2-D1D2"; "D1D2-L1L2"; "L1L2-U1U2"]);
      ("U1U2-R2R3", ["R1R2-D2D3"; "D1D2-L2L3"; "L1L2-U2U3"]);
      ("U2U3-R1R2", ["R2R3-D1D2"; "D2D3-L1L2"; "L2L3-U1U2"]);
      ("U2U3-R2R3", ["R2R3-D2D3"; "D2D3-L2L3"; "L2L3-U2U3"]) ].

Definition ANGLES : list N := [0; 90; 180; 270]%N.

(** The [if angle == 0 / elif ... / else] that picks the key of a rotated
    tile: [Some key], or [None] on the branch that warns and goes on to the
    next angle.  The table is the global [rotated_keys_map], taken here as
    an argument. *)
Definition rotated_tile_key (rot : gmap string (list string))
    (base_key : string) (i : Z) (angle : N) : result (option string) :=
  if (angle =? 0)%N then mret (Some base_key)
  else
    in_table ← (if dict_contains rot base_key
                then ks ← dict_getitem rot base_key;
                     mret (i - 1 <? Z.of_nat (length ks))%Z
                else mret false);
    if in_table : bool
    then ks ← dict_getitem rot base_key;
         tile_key ← py_index ks (i - 1)%Z;
         mret (Some tile_key)
    else mret None.

Definition rotation_warning (base_key : string) (angle : N) : string :=
  "Warning: Rotated key mapping not found for " +:+ base_key +:+ " at "
  +:+ format_d angle +:+ " deg.".

Definition transform_attr (angle : N) : string :=
  if (angle =? 0)%N then ""
  else dq " transform='rotate(" +:+ format_d angle +:+ dq " 20 20)'".

Definition tile_filename (tile_type tile_key : string) : string :=
  "road-tile-" +:+ tile_type +:+ "-" +:+ tile_key +:+ ".svg".

(** The inner loop [for i, angle in enumerate([0, 90, 180, 270])] of
    [generate_rotated_tiles], threading the global
    [generated_files_count]. *)
Fixpoint rotated_angles (rot : gmap string (list string))
    (tile_type base_key : string) (path_data : paths)
    (variants : list (Z * N)) (generated_files_count : N) : run N :=
  match variants with
  | [] => mret generated_files_count
  | (i, angle) :: rest =>
      choice ← lift (rotated_tile_key rot base_key i angle);
      match choice with
      | None =>
          emit (Print (rotation_warning base_key angle));;
          rotated_angles rot tile_type base_key path_data rest
            generated_files_count
      | Some tile_key =>
          let filename := tile_filename tile_type tile_key in
          let svg_id := remove_dot_svg filename in
          description ← lift (get_description tile_key tile_type);
          let filepath := os_path_join output_dir filename in
          emit (WriteFile filepath
                  (SVG_TEMPLATE_format svg_id description (transform_attr angle)
                     tile_type (outer path_data) (inner path_data)));;
          rotated_angles rot tile_type base_key path_data rest
            (generated_files_count + 1)%N
      end
  end.

(** The outer loop [for base_key, path_data in base_paths.items()]. *)
Fixpoint generate_rotated_tiles_with (rot : gmap string (list string))
    (base_paths : list (string * paths)) (tile_type : string)
    (generated_files_count : N) : run N :=
  match base_paths with
  | [] => mret generated_files_count
  | (base_key, path_data) :: rest =>
      count ← rotated_angles rot tile_type base_key path_data
                (enumerate ANGLES) generated_files_count;
      generate_rotated_tiles_with rot rest tile_type count
  end.

(** [generate_rotated_tiles] as the script has it, over
    [rotated_keys_map]; the argument and the value are the global counter
    before and after the call. *)
Definition generate_rotated_tiles (base_paths : list (string * paths))
    (tile_type : string) (generated_files_count : N) : run N :=
  generate_rotated_tiles_with rotated_keys_map base_paths tile_type
    generated_files_count.

(** The module-level loop over [straight_paths.items()]. *)
Fixpoint straight_loop (tile_type : string) (items : list (string * paths))
    (generated_files_count : N) : run N :=
  match items with
  | [] => mret generated_files_count
  | (key, path_data) :: rest =>
      let filename := tile_filename tile_type key in
      let svg_id := remove_dot_svg filename in
      description ← lift (get_description key tile_type);
      let filepath := os_path_join output_dir filename in
      emit (WriteFile filepath
              (SVG_TEMPLATE_format svg_id description "" tile_type
                 (outer path_data) (inner path_data)));;
      straight_loop tile_type rest (generated_files_count + 1)%N
  end.

Definition newline : string := String "010"%char "".

(** The whole script; [dir_exists] is the answer of
    [os.path.exists(output_dir)].  The value is the final
    [generated_files_count]. *)
Definition main (dir_exists : bool) : run N :=
  (if dir_exists then mret tt else emit (MakeDirs output_dir));;
  emit (Print "Generating curve tiles...");;
  count ← generate_rotated_tiles curve_paths_base "curve" 0%N;
  emit (Print "Generating sharp tiles...");;
  count ← generate_rotated_tiles sharp_paths_base "sharp" count;
  emit (Print "Generating straight tiles (central lanes only)...");;
  count ← straight_loop "straight" straight_paths count;
  emit (Print (newline +:+ "Successfully generated " +:+ format_d count
               +:+ " SVG files in '" +:+ output_dir +:+ "' directory."));;
  (if (count =? 36)%N
   then emit (Print "Generated 16 curve, 16 sharp, and 4 straight (central lanes only) tiles as expected.")
   else emit (Print ("Warning: Expected 36 files (16 curve + 16 sharp + 4 straight), but generated "
                     +:+ format_d count +:+ ".")));;
  mret count.

End TileKeyGen.

(** ** Vocabulary of the properties *)

(** The path under which the mask-named generator writes the tile of a
    mask. *)
Definition mask_path (tile_type : string) (mask : N) : string :=
  os_path_join Mask8.OUT_DIR (Mask8.tile_fname tile_type mask).

(** A deduplicating pass started with the set [used]: it writes exactly one
    file per mask of a duplicate-free list of masks, none of which was in
    [used], and when it returns, it returns [used] with those masks added. *)
Definition dedup_pass (name : N → string) (used : gset N)
    (r : run (gset N)) : Prop :=
  ∃ masks : list N,
    NoDup masks ∧
    (∀ m, m ∈ masks → m ∉ used) ∧
    written (trace r) = map name masks ∧
    (∀ used', outcome r = Ok used' → used' = list_to_set masks ∪ used).

(** The bit value of a port name: [1 << bit] for a recognised name, no bit
    for any other. *)
Definition port_mask (port : string) : N :=
  default 0%N (Marker.PORT_TO_MASK !! port).

(** The bitwise OR of the bit values of a sequence of port names. *)
Definition mask_of_ports (ports : list string) : N :=
  foldr (λ port acc, N.lor (port_mask port) acc) 0%N ports.

(** A recognised port name. *)
Definition recognised (port : string) : Prop :=
  is_Some (Marker.PORT_TO_BIT !! port).

(** The file name of a marker tile of a kind, for a list of ports. *)
Definition marker_fname (tile_type : string) (ports : list string) : string :=
  "road-tile-marker-"
  +:+ (if String.eqb tile_type "start" then "start" else "goal")
  +:+ "-" +:+ format_02X (mask_of_ports ports) +:+ ".svg".

(** The rotation table has no key for the variant of loop index [idx] of a
    base key: the base key is not in the table, or its entry is too short
    to have the position [idx - 1]. *)
Definition rotation_missing (rot : gmap string (list string))
    (base_key : string) (idx : Z) : Prop :=
  match rot !! base_key with
  | None => True
  | Some ks => (Z.of_nat (length ks) ≤ idx - 1)%Z
  end.

(** The loop index and angle of the three rotated variants. *)
Definition rotated_variants : list (Z * N) :=
  [(1%Z, 90%N); (2%Z, 180%N); (3%Z, 270%N)].

(** The (angle, key) pairs that the inner loop of [gen_rot_tiles] goes
    through for one base key, in loop order. *)
Definition derived_variants (rot : gmap string (list string))
    (base_key : string) : list (N * result string) :=
  map (λ ia, (ia.2, Mask8.variant_key rot base_key ia.1 ia.2))
    (enumerate Mask8.ANGLES).

(** What the loop writes for one variant when no earlier mask hides it. *)
Definition variant_file (tile_type : string) (p : paths)
    (v : N * result string) : list event :=
  match v with
  | (angle, Ok key) =>
      match Mask8.key_to_mask key with
      | Ok mask =>
          trace (Mask8.write_svg (Mask8.tile_fname tile_type mask)
                   (Mask8.tile_desc tile_type key mask)
                   (outer p) (inner p) (Mask8.transform_attr angle))
      | Raise _ => []
      end
  | (_, Raise _) => []
  end.

(** The [transform] attribute that goes with an angle: none at angle 0, a
    rotation by the angle about the tile centre (20, 20) otherwise. *)
Definition rotate_attr_of (angle : N) (attr : string) : Prop :=
  (angle = 0%N ∧ attr = "")
  ∨ (angle ≠ 0%N
     ∧ attr = dq " transform='rotate(" +:+ format_d angle +:+ dq " 20 20)'").

(** An event of the mask-named generator is the file of a rotation variant
    of an entry of the base dictionary, drawn with the paths of that entry
    as they stand. *)
Definition reuses_base_paths_mask (rot : gmap string (list string))
    (base_dict : list (string * paths)) (tile_type : string)
    (ev : event) : Prop :=
  match ev with
  | WriteFile path text =>
      ∃ base_key p idx angle key mask attr,
        (base_key, p) ∈ base_dict
        ∧ (idx, angle) ∈ enumerate Mask8.ANGLES
        ∧ Mask8.variant_key rot base_key idx angle = Ok key
        ∧ Mask8.key_to_mask key = Ok mask
        ∧ rotate_attr_of angle attr
        ∧ path = mask_path tile_type mask
        ∧ text = Mask8.SVG_TMPL_format
                   (drop_last4 (Mask8.tile_fname tile_type mask))
                   (Mask8.tile_desc tile_type key mask)
                   attr (outer p) (inner p)
  | _ => False
  end.

(** The same for the key-named generator, whose passes also print the
    warnings of the missing variants. *)
Definition reuses_base_paths_key (rot : gmap string (list string))
    (base_paths : list (string * paths)) (tile_type : string)
    (ev : event) : Prop :=
  match ev with
  | WriteFile path text =>
      ∃ base_key p i angle tile_key description attr,
        (base_key, p) ∈ base_paths
        ∧ (i, angle) ∈ enumerate TileKeyGen.ANGLES
        ∧ TileKeyGen.rotated_tile_key rot base_key i angle = Ok (Some tile_key)
        ∧ TileKeyGen.get_description tile_key tile_type = Ok description
        ∧ rotate_attr_of angle attr
        ∧ path = os_path_join TileKeyGen.output_dir
                   (TileKeyGen.tile_filename tile_type tile_key)
        ∧ text = TileKeyGen.SVG_TEMPLATE_format
                   (remove_dot_svg (TileKeyGen.tile_filename tile_type tile_key))
                   description attr tile_type (outer p) (inner p)
  | Print line =>
      ∃ base_key angle, line = TileKeyGen.rotation_warning base_key angle
  | MakeDirs _ => False
  end.

(** The key the key-named generator draws for a loop index and angle of a
    base key, when the table gives one. *)
Definition candidate_key (rot : gmap string (list string))
    (base_key : string) (ia : Z * N) : option string :=
  match TileKeyGen.rotated_tile_key rot base_key ia.1 ia.2 with
  | Ok (Some tile_key) => Some tile_key
  | _ => None
  end.

(** The keys of all candidate variants of a base dictionary: for each entry
    in order, for each angle in order. *)
Definition candidate_keys (rot : gmap string (list string))
    (base_paths : list (string * paths)) : list string :=
  flat_map (λ entry, omap (candidate_key rot entry.1)
                       (enumerate TileKeyGen.ANGLES)) base_paths.

(** The path under which the key-named generator writes the tile of a
    key. *)
Definition key_path (tile_type tile_key : string) : string :=
  os_path_join TileKeyGen.output_dir (TileKeyGen.tile_filename tile_type tile_key).

(** The bit value of one token of a tile key: [1 << bit] for a pair that is
    in [PAIR_TO_BIT], no bit for any other token. *)
Definition pair_mask (tok : string) : N :=
  match Mask8.PAIR_TO_BIT !! tok with
  | Some bit => N.shiftl 1 bit
  | None => 0%N
  end.

(** The bitwise OR of the bit values of a list of tokens. *)
Definition mask_of_pairs (toks : list string) : N :=
  foldr (λ tok acc, N.lor (pair_mask tok) acc) 0%N toks.

(** The first token of a list that is not a pair of [PAIR_TO_BIT]. *)
Definition first_unknown_pair (toks : list string) : option string :=
  head (filter (λ tok, Mask8.PAIR_TO_BIT !! tok = None) toks).

(** Reading the mask back from a file name of the form [...XX.svg]: the
    two characters before the extension, as hexadecimal. *)
Definition mask_of_fname (fname : string) : N :=
  parse_hex 0 (String.substring (String.length fname - 6) 2 fname).

(** The exception of a missing rotation entry in the mask-named generator:
    the subscript [ROT_KEYS[base_key]] raises [KeyError] when the base key
    is not in the table, and the subscript [[idx - 1]] raises [IndexError]
    when the entry is there but too short. *)
Definition missing_rotation_error (rot : gmap string (list string))
    (base_key : string) : exn :=
  match rot !! base_key with
  | None => KeyError base_key
  | Some _ => IndexError
  end.

(** *** The text of a tile, part by part

    The text of a tile of [generate-using-8bit.py] is a head (the [svg]
    element with its id, the description and the grid) followed by the road
    group, which ends the file. *)
Definition svg_head_mask (svg_id desc : string) : string :=
  dq "<svg xmlns='http://www.w3.org/2000/svg' id='"
  +:+ svg_id
  +:+ dq "' width='40' height='40' viewBox='0 0 40 40'>
  <desc>"
  +:+ desc
  +:+ dq "</desc>
  <g stroke='#ccc' stroke-width='0.5'>
    <line x1='10' y1='0' x2='10' y2='40'/><line x1='20' y1='0' x2='20' y2='40'/><line x1='30' y1='0' x2='30' y2='40'/>
    <line x1='0' y1='10' x2='40' y2='10'/><line x1='0' y1='20' x2='40' y2='20'/><line x1='0' y1='30' x2='40' y2='30'/>
    <rect x='0' y='0' width='40' height='40' fill='none'/>
  </g>
".

Definition road_group_mask (attr outer inner : string) : string :=
  dq "  <g stroke='#000' stroke-width='1' fill='none'"
  +:+ attr
  +:+ dq ">
    <path d='"
  +:+ outer
  +:+ dq "' />
    <path d='"
  +:+ inner
  +:+ dq "' />
  </g>
</svg>".

(** The text of a tile of [generate.py]: a head, the road group, whose two
    paths carry the tile type in their ids, and a tail with the anchor
    points. *)
Definition svg_head_key (svg_id description : string) : string :=
  dq "<svg xmlns='http://www.w3.org/2000/svg' id='"
  +:+ svg_id
  +:+ dq "' width='40' height='40' viewBox='0 0 40 40'>
  <desc>"
  +:+ description
  +:+ dq "</desc>
  <defs>
    <style>
      /* Styles can be kept simple or removed if not strictly needed */
      /* .grid { stroke: #cccccc; stroke-width: 0.5; } */
      /* .road { stroke: #000000; stroke-width: 1; fill: none; } */
      /* .point { fill: #ff0000; } */
    </style>
  </defs>

  <g id='grid' stroke='#cccccc' stroke-width='0.5'>
    <line x1='0' y1='10' x2='40' y2='10' /> <line x1='0' y1='20' x2='40' y2='20' /> <line x1='0' y1='30' x2='40' y2='30' />
    <line x1='10' y1='0' x2='10' y2='40' /> <line x1='20' y1='0' x2='20' y2='40' /> <line x1='30' y1='0' x2='30' y2='40' />
    <line x1='0' y1='0' x2='40' y2='0' /> <line x1='0' y1='40' x2='40' y2='40' />
    <line x1='0' y1='0' x2='0' y2='40' /> <line x1='40' y1='0' x2='40' y2='40' />
  </g>

".

Definition road_group_key (tile_type attr outer inner : string) : string :=
  dq "  <g id='road' stroke='#000000' stroke-width='1' fill='none'"
  +:+ attr
  +:+ dq ">
    <path id='road-outer-"
  +:+ tile_type
  +:+ dq "' d='"
  +:+ outer
  +:+ dq "' />
    <path id='road-inner-"
  +:+ tile_type
  +:+ dq "' d='"
  +:+ inner
  +:+ dq "' />
  </g>".

Definition svg_tail_key : string :=
  dq "

  <g id='anchor-points' fill='#ff0000'>
    <circle cx='10' cy='0' r='1' /> <circle cx='20' cy='0' r='1' /> <circle cx='30' cy='0' r='1' />
    <circle cx='40' cy='10' r='1' /> <circle cx='40' cy='20' r='1' /> <circle cx='40' cy='30' r='1' />
    <circle cx='10' cy='40' r='1' /> <circle cx='20' cy='40' r='1' /> <circle cx='30' cy='40' r='1' />
    <circle cx='0' cy='10' r='1' /> <circle cx='0' cy='20' r='1' /> <circle cx='0' cy='30' r='1' />
  </g>
</svg>
".

(** An event of the mask-named generator is the file of a rotation variant
    of an entry of the base dictionary, and the road group of its text is
    drawn with the outer and inner paths of that entry and with the
    [transform] attribute of the variant's angle. *)
Definition draws_base_paths_mask (rot : gmap string (list string))
    (base_dict : list (string * paths)) (tile_type : string)
    (ev : event) : Prop :=
  match ev with
  | WriteFile path text =>
      ∃ base_key p idx angle key mask attr svg_id desc,
        (base_key, p) ∈ base_dict
        ∧ (idx, angle) ∈ enumerate Mask8.ANGLES
        ∧ Mask8.variant_key rot base_key idx angle = Ok key
        ∧ Mask8.key_to_mask key = Ok mask
        ∧ rotate_attr_of angle attr
        ∧ path = mask_path tile_type mask
        ∧ text = svg_head_mask svg_id desc
                 +:+ road_group_mask attr (outer p) (inner p)
  | _ => False
  end.

(** The same for the key-named generator, whose passes also print the
    warnings of the missing variants. *)
Definition draws_base_paths_key (rot : gmap string (list string))
    (base_paths : list (string * paths)) (tile_type : string)
    (ev : event) : Prop :=
  match ev with
  | WriteFile path text =>
      ∃ base_key p i angle tile_key attr svg_id description,
        (base_key, p) ∈ base_paths
        ∧ (i, angle) ∈ enumerate TileKeyGen.ANGLES
        ∧ TileKeyGen.rotated_tile_key rot base_key i angle = Ok (Some tile_key)
        ∧ rotate_attr_of angle attr
        ∧ path = key_path tile_type tile_key
        ∧ text = svg_head_key svg_id description
                 +:+ road_group_key tile_type attr (outer p) (inner p)
                 +:+ svg_tail_key
  | Print line =>
      ∃ base_key angle, line = TileKeyGen.rotation_warning base_key angle
  | MakeDirs _ => False
  end.

(** The part of a text from the first occurrence of a marker to the end;
    the empty string when the marker does not occur. *)
Definition text_from (marker text : string) : string :=
  match String.index 0 marker text with
  | Some n => String.substring n (String.length text - n) text
  | None => ""
  end.

(** The road of a written tile: its text from the opening tag of the road
    group on. *)
Definition road_of_mask_tile (ev : event) : string :=
  match ev with
  | WriteFile _ text => text_from (dq "  <g stroke='#000'") text
  | _ => ""
  end.

Definition road_of_key_tile (ev : event) : string :=
  match ev with
  | WriteFile _ text => text_from (dq "  <g id='road'") text
  | _ => ""
  end.

(** The four [transform] attributes, in the order of the angles 0, 90, 180
    and 270. *)
Definition rotate_attrs : list string :=
  [ ""; dq " transform='rotate(90 20 20)'";
    dq " transform='rotate(180 20 20)'";
    dq " transform='rotate(270 20 20)'" ].

(** A written file has the id of its name: it lies in the directory [dir],
    its name is [stem.svg], and the [svg] element of its text has the id
    [stem]. *)
Definition id_is_stem (dir : string) (ev : event) : Prop :=
  match ev with
  | WriteFile path text =>
      ∃ stem rest,
        path = dir +:+ "/" +:+ stem +:+ ".svg"
        ∧ text = dq "<svg xmlns='http://www.w3.org/2000/svg' id='" +:+ stem
                 +:+ dq "' width='40' height='40' viewBox='0 0 40 40'>"
                 +:+ rest
  | _ => True
  end.

(** The two connector lines of a port, as they stand in the text of a
    marker tile: one [path] element per line of [PORT_TO_LINES], none for a
    name that has no lines. *)
Definition connector_lines (port : string) : list string :=
  match Marker.PORT_TO_LINES !! port with
  | Some ls =>
      map (λ '(x1, y1, x2, y2),
             dq "    <path d='M " +:+ format_d x1 +:+ " " +:+ format_d y1
             +:+ " L " +:+ format_d x2 +:+ " " +:+ format_d y2 +:+ dq "' />") ls
  | None => []
  end.

(** A string of ASCII characters only. *)
Fixpoint is_ascii (s : string) : bool :=
  match s with
  | EmptyString => true
  | String c rest => (nat_of_ascii c <? 128)%nat && is_ascii rest
  end.

(** * Properties *)

(** ** Strings and number formatting *)

Section Strings.

Lemma string_app_cons (x : ascii) (a b : string) :
  String x a +:+ b = String x (a +:+ b).
Proof. reflexivity. Qed.

Lemma string_app_length (a b : string) :
  String.length (a +:+ b) = (String.length a + String.length b)%nat.
Proof.
  induction a as [|c a IH]; [done|].
  rewrite string_app_cons. simpl. by rewrite IH.
Qed.

Lemma string_app_assoc (a b c : string) : (a +:+ b) +:+ c = a +:+ (b +:+ c).
Proof.
  induction a as [|x a IH]; [done|].
  rewrite !string_app_cons. by rewrite IH.
Qed.

Lemma string_app_inj_l (s a b : string) : s +:+ a = s +:+ b → a = b.
Proof.
  induction s as [|c s IH]; intros H; [done|].
  rewrite !string_app_cons in H. apply IH. by injection H.
Qed.

Lemma string_app_inj_r (t a b : string) : a +:+ t = b +:+ t → a = b.
Proof.
  revert b. induction a as [|x a IH]; intros [|y b] H.
  - done.
  - apply (f_equal String.length) in H.
    rewrite !string_app_length in H. simpl in H. lia.
  - apply (f_equal String.length) in H.
    rewrite !string_app_length in H. simpl in H. lia.
  - rewrite !string_app_cons in H. injection H as -> H. f_equal. by apply IH.
Qed.

Lemma parse_hex_app (acc : N) (a b : string) :
  parse_hex acc (a +:+ b) = parse_hex (parse_hex acc a) b.
Proof.
  revert acc. induction a as [|c a IH]; intros acc; [done|].
  rewrite string_app_cons. simpl. apply IH.
Qed.

Lemma parse_hex_zeros (k : nat) : parse_hex 0 (zeros k) = 0%N.
Proof. induction k as [|k IH]; simpl; [done | apply IH]. Qed.

Lemma hex_val_char (d : N) : (d < 16)%N → hex_val (hex_char d) = d.
Proof.
  intros Hd.
  destruct d as [|p]; [done|].
  do 4 (destruct p as [p|p|]; try lia; try reflexivity).
Qed.

Lemma pos_size_nat_bound (p : positive) :
  (N.pos p < 2 ^ N.of_nat (Pos.size_nat p))%N.
Proof.
  induction p as [p IH|p IH|]; simpl Pos.size_nat;
    rewrite ?Nat2N.inj_succ, ?N.pow_succ_r'; lia.
Qed.

Lemma size_nat_bound (n : N) : (n < 16 ^ N.of_nat (S (N.size_nat n)))%N.
Proof.
  rewrite Nat2N.inj_succ, N.pow_succ_r'.
  destruct n as [|p]; simpl N.size_nat.
  - simpl. lia.
  - pose proof (pos_size_nat_bound p) as Hp.
    assert (2 ^ N.of_nat (Pos.size_nat p) ≤ 16 ^ N.of_nat (Pos.size_nat p))%N
      by (apply N.pow_le_mono_l; lia).
    lia.
Qed.

Lemma parse_hex_upper_fuel (fuel : nat) (n : N) :
  (n < 16 ^ N.of_nat fuel)%N → parse_hex 0 (hex_upper_fuel fuel n) = n.
Proof.
  revert n. induction fuel as [|fuel IH]; intros n Hn.
  - simpl in *. lia.
  - simpl hex_upper_fuel. destruct (N.ltb_spec n 16) as [Hlt|Hge].
    + simpl. rewrite hex_val_char by done. lia.
    + rewrite parse_hex_app, IH.
      * simpl. rewrite hex_val_char by (apply N.mod_lt; lia).
        pose proof (N.div_mod n 16). lia.
      * rewrite Nat2N.inj_succ, N.pow_succ_r' in Hn.
        apply N.Div0.div_lt_upper_bound. lia.
Qed.

(** Reading a formatted mask back gives the mask: [{mask:02X}] loses
    nothing. *)
Lemma parse_format_02X (n : N) : parse_hex 0 (format_02X n) = n.
Proof.
  unfold format_02X, hex_upper.
  rewrite parse_hex_app, parse_hex_zeros.
  apply parse_hex_upper_fuel, size_nat_bound.
Qed.

Lemma format_02X_inj (m n : N) : format_02X m = format_02X n → m = n.
Proof.
  intros H. rewrite <- (parse_format_02X m), <- (parse_format_02X n).
  by rewrite H.
Qed.

End Strings.

(** ** The [run] monad *)

Section Run.
Context {A B : Type}.
Implicit Types (m : run A) (f : A → run B).

Lemma trace_bind m f :
  trace (m ≫= f)
  = trace m ++ match outcome m with Ok a => trace (f a) | Raise _ => [] end.
Proof. destruct m as [t [a|e]]; simpl; [done | by rewrite app_nil_r]. Qed.

Lemma outcome_bind m f :
  outcome (m ≫= f)
  = match outcome m with Ok a => outcome (f a) | Raise e => Raise e end.
Proof. by destruct m as [t [a|e]]. Qed.

Lemma lift_ok_bind (a : A) f : lift (Ok a) ≫= f = f a.
Proof. unfold mbind, run_mbind, lift. simpl. by destruct (f a). Qed.

Lemma lift_raise_bind (e : exn) f : lift (Raise e) ≫= f = ([], Raise e).
Proof. done. Qed.

Lemma ret_bind (a : A) f : mret a ≫= f = f a.
Proof. unfold mbind, run_mbind, mret, run_mret. simpl. by destruct (f a). Qed.

Lemma bind_assoc {C} m f (g : B → run C) :
  (m ≫= f) ≫= g = m ≫= (λ a, f a ≫= g).
Proof.
  destruct m as [t [a|e]]; [|done].
  unfold mbind, run_mbind. simpl.
  destruct (f a) as [t' [b|e']]; simpl; [|done].
  destruct (g b) as [t'' r]; simpl. by rewrite app_assoc.
Qed.

End Run.

Lemma emit_bind {B} (e : event) (k : run B) :
  (emit e;; k) = (e :: trace k, outcome k).
Proof. done. Qed.

Lemma written_app (t1 t2 : list event) :
  written (t1 ++ t2) = written t1 ++ written t2.
Proof.
  induction t1 as [|[d|l|p x] t1 IH]; simpl; rewrite ?IH; done.
Qed.

Lemma printed_app (t1 t2 : list event) :
  printed (t1 ++ t2) = printed t1 ++ printed t2.
Proof.
  induction t1 as [|[d|l|p x] t1 IH]; simpl; rewrite ?IH; done.
Qed.

(** ** Deduplication by mask *)

Section Dedup.
Variable name : N → string.

Lemma dedup_pass_ret (used : gset N) : dedup_pass name used (mret used).
Proof.
  exists []. split_and!; [constructor | | done |].
  - intros m Hm. by apply elem_of_nil in Hm.
  - intros used' [= <-]. by rewrite list_to_set_nil, (left_id_L ∅ (∪)).
Qed.

Lemma dedup_pass_raise (used : gset N) (e : exn) :
  dedup_pass name used ([], Raise e).
Proof.
  exists []. split_and!; [constructor | | done | done].
  intros m Hm. by apply elem_of_nil in Hm.
Qed.

Lemma dedup_pass_bind (used : gset N) (r : run (gset N))
    (f : gset N → run (gset N)) :
  dedup_pass name used r →
  (∀ used', dedup_pass name used' (f used')) →
  dedup_pass name used (r ≫= f).
Proof.
  intros (ms1 & Hnd1 & Hfresh1 & Hw1 & Hout1) Hf.
  destruct (outcome r) as [used1|e] eqn:Hr.
  - destruct (Hf used1) as (ms2 & Hnd2 & Hfresh2 & Hw2 & Hout2).
    specialize (Hout1 used1 eq_refl). subst used1.
    exists (ms1 ++ ms2). split_and!.
    + apply NoDup_app. split_and!; [done | | done].
      intros m Hm1 Hm2. apply (Hfresh2 m Hm2).
      apply elem_of_union. left. by apply elem_of_list_to_set.
    + intros m [Hm|Hm]%elem_of_app; [by apply Hfresh1|].
      intros Hused. apply (Hfresh2 m Hm). apply elem_of_union. by right.
    + rewrite trace_bind, Hr, written_app, Hw1, Hw2. by rewrite map_app.
    + intros used'. rewrite outcome_bind, Hr. intros Hout.
      rewrite (Hout2 used' Hout), list_to_set_app_L.
      rewrite (comm_L (∪) (list_to_set ms1) (list_to_set ms2)).
      by rewrite (assoc_L (∪)).
  - exists ms1. split_and!; [done | done | |].
    + by rewrite trace_bind, Hr, app_nil_r.
    + intros used'. by rewrite outcome_bind, Hr.
Qed.

(** Writing the file of a mask that is not in [used], then going on with
    the mask added. *)
Lemma dedup_pass_write (used : gset N) (mask : N) (text : string)
    (k : run (gset N)) :
  mask ∉ used →
  dedup_pass name ({[mask]} ∪ used) k →
  dedup_pass name used (emit (WriteFile (name mask) text);; k).
Proof.
  intros Hfresh (ms & Hnd & Hfr & Hw & Hout).
  exists (mask :: ms). split_and!.
  - constructor; [|done]. intros Hin. apply (Hfr mask Hin).
    apply elem_of_union. left. by apply elem_of_singleton.
  - intros m [->|Hm]%elem_of_cons; [done|].
    intros Hused. apply (Hfr m Hm). apply elem_of_union. by right.
  - rewrite emit_bind. simpl. by rewrite Hw.
  - intros used'. rewrite emit_bind. simpl. intros Hk.
    rewrite (Hout used' Hk), ?list_to_set_cons.
    rewrite (comm_L (∪) {[mask]} (list_to_set ms)).
    by rewrite (assoc_L (∪)).
Qed.

(** The files of a deduplicating pass have pairwise distinct names. *)
Lemma dedup_pass_NoDup (used : gset N) (r : run (gset N)) :
  (∀ m n, name m = name n → m = n) →
  dedup_pass name used r → NoDup (written (trace r)).
Proof.
  intros name_inj (ms & Hnd & _ & Hw & _). rewrite Hw.
  apply NoDup_fmap_2; [|done]. intros m n. apply name_inj.
Qed.

End Dedup.

Lemma mask_path_eq (tile_type : string) (mask : N) :
  mask_path tile_type mask
  = "road_tiles_8bit/road-tile-" +:+ tile_type +:+ "-"
    +:+ format_02X mask +:+ ".svg".
Proof. reflexivity. Qed.

Lemma mask_path_inj (tile_type : string) (m n : N) :
  mask_path tile_type m = mask_path tile_type n → m = n.
Proof.
  rewrite !mask_path_eq. intros H.
  apply string_app_inj_l, string_app_inj_l, string_app_inj_l in H.
  by apply string_app_inj_r, format_02X_inj in H.
Qed.

Lemma gen_rot_angles_cons rot tile_type base_key p idx angle rest used :
  Mask8.gen_rot_angles rot tile_type base_key p ((idx, angle) :: rest) used
  = (key ← lift (Mask8.variant_key rot base_key idx angle);
     mask ← lift (Mask8.key_to_mask key);
     if decide (mask ∈ used)
     then Mask8.gen_rot_angles rot tile_type base_key p rest used
     else
       Mask8.write_svg (Mask8.tile_fname tile_type mask)
         (Mask8.tile_desc tile_type key mask)
         (outer p) (inner p) (Mask8.transform_attr angle);;
       Mask8.gen_rot_angles rot tile_type base_key p rest ({[mask]} ∪ used)).
Proof. reflexivity. Qed.

Lemma gen_rot_items_cons rot tile_type base_key p rest used :
  Mask8.gen_rot_items rot tile_type ((base_key, p) :: rest) used
  = (used' ← Mask8.gen_rot_angles rot tile_type base_key p
               (enumerate Mask8.ANGLES) used;
     Mask8.gen_rot_items rot tile_type rest used').
Proof. reflexivity. Qed.

Lemma straight_loop_cons key p rest used :
  Mask8.straight_loop ((key, p) :: rest) used
  = (mask ← lift (Mask8.key_to_mask key);
     if decide (mask ∈ used)
     then Mask8.straight_loop rest used
     else
       Mask8.write_svg (Mask8.tile_fname "straight" mask)
         (Mask8.tile_desc "straight" key mask) (outer p) (inner p) "";;
       Mask8.straight_loop rest ({[mask]} ∪ used)).
Proof. reflexivity. Qed.

Lemma gen_rot_angles_dedup rot tile_type base_key p variants used :
  dedup_pass (mask_path tile_type) used
    (Mask8.gen_rot_angles rot tile_type base_key p variants used).
Proof.
  revert used. induction variants as [|[idx angle] rest IH]; intros used.
  - apply dedup_pass_ret.
  - rewrite gen_rot_angles_cons.
    destruct (Mask8.variant_key rot base_key idx angle) as [key|e];
      [rewrite lift_ok_bind | apply dedup_pass_raise].
    destruct (Mask8.key_to_mask key) as [mask|e];
      [rewrite lift_ok_bind | apply dedup_pass_raise].
    destruct (decide (mask ∈ used)) as [Hin|Hnin]; [apply IH|].
    unfold Mask8.write_svg.
    apply (dedup_pass_write (mask_path _) used mask); [done | apply IH].
Qed.

Lemma gen_rot_items_dedup rot tile_type items used :
  dedup_pass (mask_path tile_type) used
    (Mask8.gen_rot_items rot tile_type items used).
Proof.
  revert used. induction items as [|[base_key p] rest IH]; intros used.
  - apply dedup_pass_ret.
  - rewrite gen_rot_items_cons. apply dedup_pass_bind.
    + apply gen_rot_angles_dedup.
    + intros used'. apply IH.
Qed.

Lemma straight_loop_dedup items used :
  dedup_pass (mask_path "straight") used (Mask8.straight_loop items used).
Proof.
  revert used. induction items as [|[key p] rest IH]; intros used.
  - apply dedup_pass_ret.
  - rewrite straight_loop_cons.
    destruct (Mask8.key_to_mask key) as [mask|e];
      [rewrite lift_ok_bind | apply dedup_pass_raise].
    destruct (decide (mask ∈ used)) as [Hin|Hnin]; [apply IH|].
    unfold Mask8.write_svg.
    apply (dedup_pass_write (mask_path _) used mask); [done | apply IH].
Qed.

Lemma trace_gen_rot_tiles_with rot base_dict tile_type :
  trace (Mask8.gen_rot_tiles_with rot base_dict tile_type)
  = trace (Mask8.gen_rot_items rot tile_type base_dict ∅).
Proof.
  unfold Mask8.gen_rot_tiles_with. rewrite trace_bind.
  destruct (outcome _); simpl; by rewrite app_nil_r.
Qed.

(** ** The port/mask codec of the marker generator *)

Lemma PORT_TO_MASK_lookup (port : string) :
  Marker.PORT_TO_MASK !! port = N.shiftl 1 <$> Marker.PORT_TO_BIT !! port.
Proof. unfold Marker.PORT_TO_MASK. apply lookup_fmap. Qed.

Lemma port_mask_recognised (port : string) (bit : N) :
  Marker.PORT_TO_BIT !! port = Some bit → port_mask port = N.shiftl 1 bit.
Proof. intros H. unfold port_mask. by rewrite PORT_TO_MASK_lookup, H. Qed.

Lemma port_mask_unrecognised (port : string) :
  Marker.PORT_TO_BIT !! port = None → port_mask port = 0%N.
Proof. intros H. unfold port_mask. by rewrite PORT_TO_MASK_lookup, H. Qed.

Lemma calculate_mask_loop_eq (mask : N) (ports : list string) :
  Marker.calculate_mask_loop mask ports = Ok (N.lor mask (mask_of_ports ports)).
Proof.
  revert mask. induction ports as [|port rest IH]; intros mask.
  - simpl. by rewrite N.lor_0_r.
  - simpl. unfold dict_contains, dict_getitem, port_mask.
    destruct (Marker.PORT_TO_MASK !! port) as [m|] eqn:Hm.
    + rewrite bool_decide_eq_true_2 by eauto.
      simpl. rewrite IH. by rewrite N.lor_assoc.
    + rewrite bool_decide_eq_false_2 by (by intros [? ?]).
      rewrite IH. simpl. by rewrite N.lor_0_l.
Qed.

Lemma calculate_mask_eq (ports : list string) :
  Marker.calculate_mask ports = Ok (mask_of_ports ports).
Proof.
  unfold Marker.calculate_mask. rewrite calculate_mask_loop_eq.
  by rewrite N.lor_0_l.
Qed.

Lemma port_mask_testbit (port : string) (b : N) :
  N.testbit (port_mask port) b = true ↔ Marker.PORT_TO_BIT !! port = Some b.
Proof.
  destruct (Marker.PORT_TO_BIT !! port) as [bit|] eqn:Hbit.
  - rewrite (port_mask_recognised _ _ Hbit), N.shiftl_1_l, N.pow2_bits_eqb.
    rewrite N.eqb_eq. split; [by intros -> | by intros [= ->]].
  - rewrite (port_mask_unrecognised _ Hbit), N.bits_0. split; done.
Qed.

Lemma mask_of_ports_testbit (ports : list string) (b : N) :
  N.testbit (mask_of_ports ports) b = true
  ↔ ∃ port, port ∈ ports ∧ Marker.PORT_TO_BIT !! port = Some b.
Proof.
  induction ports as [|port rest IH]; simpl.
  - rewrite ?N.bits_0. split; [done|].
    intros (p & Hp & _). by apply elem_of_nil in Hp.
  - rewrite N.lor_spec, orb_true_iff, port_mask_testbit, IH. split.
    + intros [H|(p & Hp & H)]; [exists port | exists p]; split; try done.
      * apply elem_of_cons; by left.
      * apply elem_of_cons; by right.
    + intros (p & [->|Hp]%elem_of_cons & H); [by left|].
      right. by exists p.
Qed.

(** The mask depends only on which names occur in the sequence. *)
Lemma mask_of_ports_ext (l l' : list string) :
  (∀ port, port ∈ l ↔ port ∈ l') → mask_of_ports l = mask_of_ports l'.
Proof.
  intros Hll'. apply N.bits_inj. intros b.
  apply eq_true_iff_eq. rewrite !mask_of_ports_testbit.
  split; intros (p & Hp & H); exists p; split; try done; by apply Hll'.
Qed.

Lemma mask_of_ports_filter (ports : list string) :
  mask_of_ports (filter recognised ports) = mask_of_ports ports.
Proof.
  apply N.bits_inj. intros b.
  apply eq_true_iff_eq. rewrite !mask_of_ports_testbit.
  split; intros (p & Hp & H); exists p; split; try done.
  - by apply list_elem_of_filter in Hp as [_ ?].
  - apply list_elem_of_filter. split; [|done]. unfold recognised. by rewrite H.
Qed.

(** ** The marker tiles *)

Lemma dict_contains_true {V} (d : gmap string V) (k : string) :
  dict_contains d k = true ↔ is_Some (d !! k).
Proof. unfold dict_contains. apply bool_decide_eq_true. Qed.



Lemma PORT_TO_MASK_known (port : string) :
  is_Some (Marker.PORT_TO_BIT !! port) →
  dict_contains Marker.PORT_TO_MASK port = true.
Proof.
  intros [bit H]. apply dict_contains_true.
  rewrite PORT_TO_MASK_lookup, H. by eexists.
Qed.

(** One marker tile: one file written under the name of its mask, one line
    printed, and the file name returned. *)
Lemma generate_marker_tile_shape (tile_type : string) (ports : list string) :
  ∃ text line,
    Marker.generate_marker_tile tile_type ports
    = ([ WriteFile (os_path_join Marker.OUT_DIR (marker_fname tile_type ports)) text;
         Print line ],
       Ok (marker_fname tile_type ports)).
Proof.
  unfold Marker.generate_marker_tile, marker_fname.
  rewrite calculate_mask_eq, lift_ok_bind.
  destruct (String.eqb tile_type "start"); eexists _, _; reflexivity.
Qed.

Lemma generate_marker_tiles_unfold (start_port goal_port : string) :
  Marker.generate_marker_tiles start_port goal_port
  = (start_port ← (if dict_contains Marker.PORT_TO_MASK start_port
                   then mret start_port
                   else emit (Print (Marker.start_warning start_port));; mret "E0");
     goal_port ← (if dict_contains Marker.PORT_TO_MASK goal_port
                  then mret goal_port
                  else emit (Print (Marker.goal_warning goal_port));; mret "W0");
     start_file ← Marker.generate_marker_tile "start" [start_port];
     goal_file ← Marker.generate_marker_tile "goal" [goal_port];
     emit (Print ("マーカータイル生成完了。ファイルは " +:+ Marker.OUT_DIR
                  +:+ " ディレクトリに保存されました。"));;
     mret (start_file, goal_file)).
Proof. reflexivity. Qed.

(** The tiles of two ports, once the ports are settled. *)
Lemma marker_tiles_settled (start_port goal_port : string) :
  ∃ tiles,
    (start_file ← Marker.generate_marker_tile "start" [start_port];
     goal_file ← Marker.generate_marker_tile "goal" [goal_port];
     emit (Print ("マーカータイル生成完了。ファイルは " +:+ Marker.OUT_DIR
                  +:+ " ディレクトリに保存されました。"));;
     mret (start_file, goal_file))
    = (tiles, Ok (marker_fname "start" [start_port],
                  marker_fname "goal" [goal_port]))
    ∧ written tiles
      = [ os_path_join Marker.OUT_DIR (marker_fname "start" [start_port]);
          os_path_join Marker.OUT_DIR (marker_fname "goal" [goal_port]) ].
Proof.
  destruct (generate_marker_tile_shape "start" [start_port]) as (t1 & l1 & ->).
  destruct (generate_marker_tile_shape "goal" [goal_port]) as (t2 & l2 & ->).
  eexists. split; reflexivity.
Qed.

(** ** Missing entries of the rotation table *)

Lemma enumerate_ANGLES :
  enumerate Mask8.ANGLES = [(0%Z, 0%N); (1%Z, 90%N); (2%Z, 180%N); (3%Z, 270%N)]
  ∧ enumerate TileKeyGen.ANGLES
    = [(0%Z, 0%N); (1%Z, 90%N); (2%Z, 180%N); (3%Z, 270%N)].
Proof. split; reflexivity. Qed.

Lemma rotated_variants_enumerated (ia : Z * N) :
  ia ∈ rotated_variants →
  ia ∈ enumerate Mask8.ANGLES ∧ ia ∈ enumerate TileKeyGen.ANGLES
  ∧ (1 ≤ ia.1)%Z ∧ (ia.2 =? 0)%N = false.
Proof.
  destruct enumerate_ANGLES as [-> ->].
  unfold rotated_variants. rewrite !elem_of_cons, elem_of_nil.
  intros [->|[->|[->|[]]]]; (split_and!; [tauto | tauto | simpl; lia | done]).
Qed.

Lemma py_index_out_of_range {A} (l : list A) (i : Z) :
  (0 ≤ i)%Z → (Z.of_nat (length l) ≤ i)%Z → py_index l i = Raise IndexError.
Proof.
  intros H0 Hlen. unfold py_index.
  destruct (Z.ltb_spec i 0) as [?|_]; [lia|].
  destruct (Z.ltb_spec i 0) as [?|_]; [lia|].
  rewrite lookup_ge_None_2; [done | lia].
Qed.

(** In the mask-named generator a missing entry raises. *)
Lemma variant_key_missing rot base_key idx angle :
  (1 ≤ idx)%Z → (angle =? 0)%N = false →
  rotation_missing rot base_key idx →
  ∃ e, (e = KeyError base_key ∨ e = IndexError)
       ∧ Mask8.variant_key rot base_key idx angle = Raise e.
Proof.
  intros Hidx Hangle Hmiss. unfold Mask8.variant_key, rotation_missing in *.
  rewrite Hangle. unfold dict_getitem.
  destruct (rot !! base_key) as [ks|].
  - exists IndexError. split; [by right|]. simpl.
    apply py_index_out_of_range; lia.
  - exists (KeyError base_key). split; [by left | done].
Qed.

Lemma gen_rot_angles_missing rot tile_type base_key p variants used idx angle :
  (idx, angle) ∈ variants →
  (1 ≤ idx)%Z → (angle =? 0)%N = false →
  rotation_missing rot base_key idx →
  ∃ e, outcome (Mask8.gen_rot_angles rot tile_type base_key p variants used)
       = Raise e.
Proof.
  intros Hin Hidx Hangle Hmiss. revert used.
  induction variants as [|[i a] rest IH]; intros used.
  - by apply elem_of_nil in Hin.
  - rewrite gen_rot_angles_cons.
    apply elem_of_cons in Hin as [[= <- <-]|Hin].
    + destruct (variant_key_missing rot base_key idx angle)
        as (e & _ & ->); [done..|].
      by exists e.
    + destruct (Mask8.variant_key rot base_key i a) as [key|e];
        [rewrite lift_ok_bind | by exists e].
      destruct (Mask8.key_to_mask key) as [mask|e];
        [rewrite lift_ok_bind | by exists e].
      destruct (decide (mask ∈ used)); [by apply IH|].
      unfold Mask8.write_svg. rewrite emit_bind. simpl. by apply IH.
Qed.

Lemma gen_rot_items_missing rot tile_type items used base_key p idx angle :
  (base_key, p) ∈ items →
  (idx, angle) ∈ enumerate Mask8.ANGLES →
  (1 ≤ idx)%Z → (angle =? 0)%N = false →
  rotation_missing rot base_key idx →
  ∃ e, outcome (Mask8.gen_rot_items rot tile_type items used) = Raise e.
Proof.
  intros Hin Hia Hidx Hangle Hmiss. revert used.
  induction items as [|[bk q] rest IH]; intros used.
  - by apply elem_of_nil in Hin.
  - rewrite gen_rot_items_cons, outcome_bind.
    apply elem_of_cons in Hin as [[= <- <-]|Hin].
    + destruct (gen_rot_angles_missing rot tile_type base_key p
                  (enumerate Mask8.ANGLES) used idx angle) as (e & ->);
        [done..|].
      by exists e.
    + destruct (outcome (Mask8.gen_rot_angles rot tile_type bk q
                           (enumerate Mask8.ANGLES) used)) as [used'|e].
      * by apply IH.
      * by exists e.
Qed.

(** In the key-named generator a missing entry is the branch that warns. *)
Lemma rotated_tile_key_missing rot base_key i angle :
  (angle =? 0)%N = false →
  rotation_missing rot base_key i →
  TileKeyGen.rotated_tile_key rot base_key i angle = Ok None.
Proof.
  intros Hangle Hmiss. unfold TileKeyGen.rotated_tile_key, rotation_missing in *.
  rewrite Hangle. unfold dict_contains, dict_getitem.
  destruct (rot !! base_key) as [ks|].
  - rewrite bool_decide_eq_true_2 by eauto. simpl.
    destruct (Z.ltb_spec (i - 1) (Z.of_nat (length ks))); [lia | done].
  - rewrite bool_decide_eq_false_2 by (by intros [? ?]). done.
Qed.

Lemma rotated_angles_cons rot tile_type base_key path_data i angle rest count :
  TileKeyGen.rotated_angles rot tile_type base_key path_data
    ((i, angle) :: rest) count
  = (choice ← lift (TileKeyGen.rotated_tile_key rot base_key i angle);
     match choice with
     | None =>
         emit (Print (TileKeyGen.rotation_warning base_key angle));;
         TileKeyGen.rotated_angles rot tile_type base_key path_data rest count
     | Some tile_key =>
         let filename := TileKeyGen.tile_filename tile_type tile_key in
         description ← lift (TileKeyGen.get_description tile_key tile_type);
         emit (WriteFile (os_path_join TileKeyGen.output_dir filename)
                 (TileKeyGen.SVG_TEMPLATE_format (remove_dot_svg filename)
                    description (TileKeyGen.transform_attr angle) tile_type
                    (outer path_data) (inner path_data)));;
         TileKeyGen.rotated_angles rot tile_type base_key path_data rest
           (count + 1)%N
     end).
Proof. reflexivity. Qed.

Lemma generate_rotated_tiles_cons rot base_key path_data rest tile_type count :
  TileKeyGen.generate_rotated_tiles_with rot ((base_key, path_data) :: rest)
    tile_type count
  = (count' ← TileKeyGen.rotated_angles rot tile_type base_key path_data
                (enumerate TileKeyGen.ANGLES) count;
     TileKeyGen.generate_rotated_tiles_with rot rest tile_type count').
Proof. reflexivity. Qed.

(** ** Rotated tiles are drawn with the base paths *)

Lemma transform_attr_mask_spec (angle : N) :
  rotate_attr_of angle (Mask8.transform_attr angle).
Proof.
  unfold rotate_attr_of, Mask8.transform_attr.
  destruct (N.eqb_spec angle 0); [by left | by right].
Qed.

Lemma transform_attr_key_spec (angle : N) :
  rotate_attr_of angle (TileKeyGen.transform_attr angle).
Proof.
  unfold rotate_attr_of, TileKeyGen.transform_attr.
  destruct (N.eqb_spec angle 0); [by left | by right].
Qed.

Lemma Forall_trace_bind {A B} (P : event → Prop) (m : run A) (f : A → run B) :
  Forall P (trace m) → (∀ a, Forall P (trace (f a))) →
  Forall P (trace (m ≫= f)).
Proof.
  intros Hm Hf. rewrite trace_bind. apply Forall_app. split; [done|].
  destruct (outcome m); [apply Hf | constructor].
Qed.

Lemma gen_rot_angles_reuses rot base_dict tile_type base_key p variants used :
  (base_key, p) ∈ base_dict →
  (∀ ia, ia ∈ variants → ia ∈ enumerate Mask8.ANGLES) →
  Forall (reuses_base_paths_mask rot base_dict tile_type)
    (trace (Mask8.gen_rot_angles rot tile_type base_key p variants used)).
Proof.
  intros Hin. revert used.
  induction variants as [|[idx angle] rest IH]; intros used Hsub.
  - constructor.
  - assert (Hrest : ∀ ia, ia ∈ rest → ia ∈ enumerate Mask8.ANGLES)
      by (intros ia Hia; apply Hsub, elem_of_cons; by right).
    rewrite gen_rot_angles_cons.
    destruct (Mask8.variant_key rot base_key idx angle) as [key|e] eqn:Hkey;
      [rewrite lift_ok_bind | constructor].
    destruct (Mask8.key_to_mask key) as [mask|e] eqn:Hmask;
      [rewrite lift_ok_bind | constructor].
    destruct (decide (mask ∈ used)); [by apply IH|].
    unfold Mask8.write_svg. rewrite emit_bind. simpl.
    constructor; [|by apply IH].
    exists base_key, p, idx, angle, key, mask, (Mask8.transform_attr angle).
    split_and!; try done.
    + apply Hsub, elem_of_cons. by left.
    + apply transform_attr_mask_spec.
Qed.

Lemma gen_rot_items_reuses rot base_dict tile_type items used :
  (∀ x, x ∈ items → x ∈ base_dict) →
  Forall (reuses_base_paths_mask rot base_dict tile_type)
    (trace (Mask8.gen_rot_items rot tile_type items used)).
Proof.
  revert used. induction items as [|[base_key p] rest IH]; intros used Hsub.
  - constructor.
  - rewrite gen_rot_items_cons. apply Forall_trace_bind.
    + apply gen_rot_angles_reuses; [|done].
      apply Hsub, elem_of_cons. by left.
    + intros used'. apply IH. intros x Hx. apply Hsub, elem_of_cons. by right.
Qed.

Lemma rotated_angles_reuses rot base_paths tile_type base_key p variants count :
  (base_key, p) ∈ base_paths →
  (∀ ia, ia ∈ variants → ia ∈ enumerate TileKeyGen.ANGLES) →
  Forall (reuses_base_paths_key rot base_paths tile_type)
    (trace (TileKeyGen.rotated_angles rot tile_type base_key p variants count)).
Proof.
  intros Hin. revert count.
  induction variants as [|[i angle] rest IH]; intros count Hsub.
  - constructor.
  - assert (Hrest : ∀ ia, ia ∈ rest → ia ∈ enumerate TileKeyGen.ANGLES)
      by (intros ia Hia; apply Hsub, elem_of_cons; by right).
    rewrite rotated_angles_cons.
    destruct (TileKeyGen.rotated_tile_key rot base_key i angle)
      as [[tile_key|]|e] eqn:Hkey;
      [rewrite lift_ok_bind | rewrite lift_ok_bind | constructor].
    + cbv zeta.
      destruct (TileKeyGen.get_description tile_key tile_type)
        as [description|e] eqn:Hdesc;
        [rewrite lift_ok_bind | constructor].
      rewrite emit_bind. simpl. constructor; [|by apply IH].
      exists base_key, p, i, angle, tile_key, description,
        (TileKeyGen.transform_attr angle).
      split_and!; try done.
      * apply Hsub, elem_of_cons. by left.
      * apply transform_attr_key_spec.
    + rewrite emit_bind. simpl. constructor; [|by apply IH].
      by exists base_key, angle.
Qed.

Lemma generate_rotated_tiles_reuses rot base_paths tile_type items count :
  (∀ x, x ∈ items → x ∈ base_paths) →
  Forall (reuses_base_paths_key rot base_paths tile_type)
    (trace (TileKeyGen.generate_rotated_tiles_with rot items tile_type count)).
Proof.
  revert count. induction items as [|[base_key p] rest IH]; intros count Hsub.
  - constructor.
  - rewrite generate_rotated_tiles_cons. apply Forall_trace_bind.
    + apply rotated_angles_reuses; [|done].
      apply Hsub, elem_of_cons. by left.
    + intros count'. apply IH. intros x Hx. apply Hsub, elem_of_cons. by right.
Qed.

(** ** The key-named generator writes every candidate *)

Lemma key_path_eq (tile_type tile_key : string) :
  key_path tile_type tile_key
  = "road_tiles/road-tile-" +:+ tile_type +:+ "-" +:+ tile_key +:+ ".svg".
Proof. reflexivity. Qed.

Lemma omap_cons_match {A B} (f : A → option B) (x : A) (l : list A) :
  omap f (x :: l)
  = match f x with Some y => y :: omap f l | None => omap f l end.
Proof. reflexivity. Qed.

Lemma rotated_angles_all rot tile_type base_key p variants count n :
  outcome (TileKeyGen.rotated_angles rot tile_type base_key p variants count)
    = Ok n →
  written (trace (TileKeyGen.rotated_angles rot tile_type base_key p variants count))
    = map (key_path tile_type) (omap (candidate_key rot base_key) variants)
  ∧ n = (count + N.of_nat (length (omap (candidate_key rot base_key) variants)))%N.
Proof.
  revert count. induction variants as [|[i angle] rest IH]; intros count.
  - simpl. intros [= <-]. split; [done | lia].
  - rewrite rotated_angles_cons, !omap_cons_match.
    assert (Hc : candidate_key rot base_key (i, angle)
                 = match TileKeyGen.rotated_tile_key rot base_key i angle with
                   | Ok (Some tile_key) => Some tile_key
                   | _ => None
                   end) by reflexivity.
    destruct (TileKeyGen.rotated_tile_key rot base_key i angle)
      as [[tile_key|]|e]; [rewrite lift_ok_bind | rewrite lift_ok_bind | done];
      rewrite Hc.
    + cbv zeta.
      destruct (TileKeyGen.get_description tile_key tile_type) as [d|e];
        [rewrite lift_ok_bind | done].
      rewrite emit_bind. unfold outcome at 1, trace at 1. simpl fst. simpl snd.
      intros Hout.
      destruct (IH _ Hout) as [Hw ->]. simpl written. rewrite Hw.
      split; [done | simpl length; lia].
    + rewrite emit_bind. unfold outcome at 1, trace at 1. simpl fst. simpl snd.
      intros Hout. simpl written. by apply IH.
Qed.

Lemma candidate_keys_cons rot base_key p rest :
  candidate_keys rot ((base_key, p) :: rest)
  = omap (candidate_key rot base_key) (enumerate TileKeyGen.ANGLES)
    ++ candidate_keys rot rest.
Proof. reflexivity. Qed.

Lemma generate_rotated_tiles_all rot base_paths tile_type count n :
  outcome (TileKeyGen.generate_rotated_tiles_with rot base_paths tile_type count)
    = Ok n →
  written (trace (TileKeyGen.generate_rotated_tiles_with rot base_paths
                    tile_type count))
    = map (key_path tile_type) (candidate_keys rot base_paths)
  ∧ n = (count + N.of_nat (length (candidate_keys rot base_paths)))%N.
Proof.
  revert count. induction base_paths as [|[base_key p] rest IH]; intros count.
  - simpl. intros [= <-]. split; [done | lia].
  - rewrite generate_rotated_tiles_cons, outcome_bind, trace_bind.
    destruct (outcome (TileKeyGen.rotated_angles rot tile_type base_key p
                         (enumerate TileKeyGen.ANGLES) count))
      as [count'|e] eqn:Hinner; [|done].
    intros Hout.
    destruct (rotated_angles_all _ _ _ _ _ _ _ Hinner) as [Hw1 ->].
    destruct (IH _ Hout) as [Hw2 ->].
    rewrite candidate_keys_cons, written_app, Hw1, Hw2, map_app, length_app.
    split; [done | lia].
Qed.

Lemma straight_loop_cons_key tile_type key path_data rest count :
  TileKeyGen.straight_loop tile_type ((key, path_data) :: rest) count
  = (let filename := TileKeyGen.tile_filename tile_type key in
     description ← lift (TileKeyGen.get_description key tile_type);
     emit (WriteFile (os_path_join TileKeyGen.output_dir filename)
             (TileKeyGen.SVG_TEMPLATE_format (remove_dot_svg filename)
                description "" tile_type (outer path_data) (inner path_data)));;
     TileKeyGen.straight_loop tile_type rest (count + 1)%N).
Proof. reflexivity. Qed.

Lemma straight_loop_all tile_type items count n :
  outcome (TileKeyGen.straight_loop tile_type items count) = Ok n →
  written (trace (TileKeyGen.straight_loop tile_type items count))
    = map (key_path tile_type) (map fst items)
  ∧ n = (count + N.of_nat (length items))%N.
Proof.
  revert count. induction items as [|[key p] rest IH]; intros count.
  - simpl. intros [= <-]. split; [done | lia].
  - rewrite straight_loop_cons_key. cbv zeta.
    destruct (TileKeyGen.get_description key tile_type) as [d|e];
      [rewrite lift_ok_bind | done].
    rewrite emit_bind. simpl. intros Hout.
    destruct (IH _ Hout) as [-> ->]. split; [done | lia].
Qed.

(** ** The runtime functions on sample inputs *)

Example split_key : split "-" "U1U2-R1R2" = ["U1U2"; "R1R2"].
Proof. reflexivity. Qed.

Example split_edge_cases :
  split "-" "" = [""] ∧ split "-" "U1U2" = ["U1U2"]
  ∧ split "-" "-R1R2" = [""; "R1R2"] ∧ split "-" "a--b-" = ["a"; ""; "b"; ""].
Proof. repeat split. Qed.

Example join_ports : join "_" ["E0"; "W0"; "N1"] = "E0_W0_N1" ∧ join "," [] = "".
Proof. split; reflexivity. Qed.

Example format_02X_samples :
  map format_02X [0; 4; 10; 18; 72; 128; 255; 256]%N
  = ["00"; "04"; "0A"; "12"; "48"; "80"; "FF"; "100"].
Proof. reflexivity. Qed.

Example format_d_samples : map format_d [0; 7; 36; 270]%N = ["0"; "7"; "36"; "270"].
Proof. reflexivity. Qed.

Example drop_last4_samples :
  drop_last4 "road-tile-curve-05.svg" = "road-tile-curve-05" ∧ drop_last4 "svg" = "".
Proof. split; reflexivity. Qed.

Example remove_dot_svg_samples :
  remove_dot_svg "road-tile-curve-U1U2-R1R2.svg" = "road-tile-curve-U1U2-R1R2"
  ∧ remove_dot_svg "a.svg.svgb" = "ab".
Proof. split; reflexivity. Qed.

Example os_path_join_samples :
  os_path_join "road_tiles" "x.svg" = "road_tiles/x.svg"
  ∧ os_path_join "road_tiles/" "x.svg" = "road_tiles/x.svg"
  ∧ os_path_join "road_tiles" "/x.svg" = "/x.svg"
  ∧ os_path_join "" "x.svg" = "x.svg".
Proof. repeat split. Qed.

Example py_index_samples :
  py_index ["a"; "b"; "c"] 0 = Ok "a" ∧ py_index ["a"; "b"; "c"] 2 = Ok "c"
  ∧ py_index ["a"; "b"; "c"] (-1) = Ok "c"
  ∧ py_index ["a"; "b"; "c"] 3 = Raise IndexError
  ∧ py_index ["a"; "b"; "c"] (-4) = Raise IndexError.
Proof. repeat split. Qed.

Example key_to_mask_samples :
  Mask8.key_to_mask "U1U2-R1R2" = Ok 5%N
  ∧ Mask8.key_to_mask "L2L3-R2R3" = Ok 0x48%N
  ∧ Mask8.key_to_mask "U1U2-R1R"
    = Raise (ValueError "Unknown port pair 'R1R'").
Proof. split_and!; vm_compute; reflexivity. Qed.

Example get_description_samples :
  TileKeyGen.get_description "L1L2-U1U2" "curve"
  = Ok "Curve tile: Entry Left (Y:10-20), Exit Upper (X:10-20)"
  ∧ TileKeyGen.get_description "U1U2" "sharp" = Ok "Sharp tile"
  ∧ TileKeyGen.get_description "-R1R2" "curve" = Raise IndexError.
Proof. split_and!; vm_compute; reflexivity. Qed.

Example mask_generator_writes_34_files :
  length (written (trace Mask8.main)) = 34%nat ∧ outcome Mask8.main = Ok tt.
Proof. split; vm_compute; reflexivity. Qed.

Example invalid_start_port_Z9 :
  written (trace (Marker.main (Some "Z9") None))
  = [ "marker_tiles/road-tile-marker-start-04.svg";
      "marker_tiles/road-tile-marker-goal-80.svg" ]
  ∧ head (printed (trace (Marker.main (Some "Z9") None)))
    = Some (Marker.start_warning "Z9").
Proof. split; vm_compute; reflexivity. Qed.

(** ** Passes put together *)

Lemma bind_ext {A B} (m : run A) (f g : A → run B) :
  (∀ a, f a = g a) → m ≫= f = m ≫= g.
Proof.
  intros Hfg. destruct m as [t [a|e]]; [|done].
  unfold mbind, run_mbind. simpl. by rewrite Hfg.
Qed.

Lemma bind_ok {A B} (m : run A) (f : A → run B) (a : A) :
  outcome m = Ok a → m ≫= f = (trace m ++ trace (f a), outcome (f a)).
Proof. destruct m as [t [x|e]]; simpl; intros [= ->]; done. Qed.

Lemma bind_raise {A B} (m : run A) (f : A → run B) (e : exn) :
  outcome m = Raise e → m ≫= f = (trace m, Raise e).
Proof. destruct m as [t [x|e']]; simpl; intros [= ->]; done. Qed.

Lemma gen_rot_angles_app rot tile_type base_key p l1 l2 used :
  Mask8.gen_rot_angles rot tile_type base_key p (l1 ++ l2) used
  = Mask8.gen_rot_angles rot tile_type base_key p l1 used
    ≫= Mask8.gen_rot_angles rot tile_type base_key p l2.
Proof.
  revert used. induction l1 as [|[idx angle] rest IH]; intros used.
  - simpl app.
    change (Mask8.gen_rot_angles rot tile_type base_key p [] used)
      with (mret used : run _).
    by rewrite ret_bind.
  - change (((idx, angle) :: rest) ++ l2) with ((idx, angle) :: (rest ++ l2)).
    rewrite !gen_rot_angles_cons.
    destruct (Mask8.variant_key rot base_key idx angle) as [key|e];
      [rewrite !lift_ok_bind | done].
    destruct (Mask8.key_to_mask key) as [mask|e];
      [rewrite !lift_ok_bind | done].
    destruct (decide (mask ∈ used)); [apply IH|].
    rewrite bind_assoc. apply bind_ext. intros _. apply IH.
Qed.

Lemma gen_rot_items_app rot tile_type l1 l2 used :
  Mask8.gen_rot_items rot tile_type (l1 ++ l2) used
  = Mask8.gen_rot_items rot tile_type l1 used
    ≫= Mask8.gen_rot_items rot tile_type l2.
Proof.
  revert used. induction l1 as [|[base_key p] rest IH]; intros used.
  - simpl app.
    change (Mask8.gen_rot_items rot tile_type [] used) with (mret used : run _).
    by rewrite ret_bind.
  - change (((base_key, p) :: rest) ++ l2) with ((base_key, p) :: (rest ++ l2)).
    rewrite !gen_rot_items_cons, bind_assoc. apply bind_ext. intros used'.
    apply IH.
Qed.

Lemma straight_loop_app l1 l2 used :
  Mask8.straight_loop (l1 ++ l2) used
  = Mask8.straight_loop l1 used ≫= Mask8.straight_loop l2.
Proof.
  revert used. induction l1 as [|[key p] rest IH]; intros used.
  - simpl app.
    change (Mask8.straight_loop [] used) with (mret used : run _).
    by rewrite ret_bind.
  - change (((key, p) :: rest) ++ l2) with ((key, p) :: (rest ++ l2)).
    rewrite !straight_loop_cons.
    destruct (Mask8.key_to_mask key) as [mask|e];
      [rewrite !lift_ok_bind | done].
    destruct (decide (mask ∈ used)); [apply IH|].
    rewrite bind_assoc. apply bind_ext. intros _. apply IH.
Qed.

(** A run of [gen_rot_tiles] that reaches a variant whose key cannot be
    derived: everything before it went through, and the run ends in the
    exception of the derivation. *)
Lemma gen_rot_tiles_stops_at rot tile_type before base_key p after
    earlier idx angle later used used' e :
  enumerate Mask8.ANGLES = earlier ++ (idx, angle) :: later →
  Mask8.variant_key rot base_key idx angle = Raise e →
  outcome (Mask8.gen_rot_items rot tile_type before ∅) = Ok used →
  outcome (Mask8.gen_rot_angles rot tile_type base_key p earlier used)
    = Ok used' →
  Mask8.gen_rot_tiles_with rot (before ++ (base_key, p) :: after) tile_type
  = (trace (Mask8.gen_rot_items rot tile_type before ∅)
     ++ trace (Mask8.gen_rot_angles rot tile_type base_key p earlier used),
     Raise e).
Proof.
  intros Henum Hkey Hbefore Hearlier. unfold Mask8.gen_rot_tiles_with.
  assert (Hstop : Mask8.gen_rot_angles rot tile_type base_key p
                    (enumerate Mask8.ANGLES) used
                  = (trace (Mask8.gen_rot_angles rot tile_type base_key p
                              earlier used), Raise e)).
  { rewrite Henum, gen_rot_angles_app, (bind_ok _ _ _ Hearlier).
    rewrite gen_rot_angles_cons, Hkey. simpl. by rewrite app_nil_r. }
  rewrite gen_rot_items_app, (bind_ok _ _ _ Hbefore).
  rewrite gen_rot_items_cons, Hstop. reflexivity.
Qed.

(** ** What a pass that returns has gone through *)

Lemma gen_rot_angles_covers rot tile_type base_key p variants used used' :
  outcome (Mask8.gen_rot_angles rot tile_type base_key p variants used)
    = Ok used' →
  used ⊆ used'
  ∧ ∀ idx angle, (idx, angle) ∈ variants →
      ∃ key mask, Mask8.variant_key rot base_key idx angle = Ok key
                  ∧ Mask8.key_to_mask key = Ok mask ∧ mask ∈ used'.
Proof.
  revert used. induction variants as [|[i a] rest IH]; intros used.
  - simpl. intros [= <-]. split; [done|].
    intros idx angle Hin. by apply elem_of_nil in Hin.
  - rewrite gen_rot_angles_cons.
    destruct (Mask8.variant_key rot base_key i a) as [key|e] eqn:Hkey;
      [rewrite lift_ok_bind | done].
    destruct (Mask8.key_to_mask key) as [mask|e] eqn:Hmask;
      [rewrite lift_ok_bind | done].
    destruct (decide (mask ∈ used)) as [Hin|Hnin].
    + intros Hout. destruct (IH _ Hout) as [Hsub Hcov]. split; [done|].
      intros idx angle [[= -> ->]|Hrest]%elem_of_cons; [|by apply Hcov].
      exists key, mask. split_and!; [done | done | by apply Hsub].
    + unfold Mask8.write_svg. rewrite emit_bind.
      unfold outcome at 1. simpl snd. intros Hout.
      destruct (IH _ Hout) as [Hsub Hcov]. split.
      * intros m Hm. apply Hsub, elem_of_union. by right.
      * intros idx angle [[= -> ->]|Hrest]%elem_of_cons; [|by apply Hcov].
        exists key, mask. split_and!; [done | done |].
        apply Hsub, elem_of_union. left. by apply elem_of_singleton.
Qed.

Lemma gen_rot_items_covers rot tile_type items used used' :
  outcome (Mask8.gen_rot_items rot tile_type items used) = Ok used' →
  used ⊆ used'
  ∧ ∀ base_key p idx angle,
      (base_key, p) ∈ items → (idx, angle) ∈ enumerate Mask8.ANGLES →
      ∃ key mask, Mask8.variant_key rot base_key idx angle = Ok key
                  ∧ Mask8.key_to_mask key = Ok mask ∧ mask ∈ used'.
Proof.
  revert used. induction items as [|[bk q] rest IH]; intros used.
  - simpl. intros [= <-]. split; [done|].
    intros base_key p idx angle Hin. by apply elem_of_nil in Hin.
  - rewrite gen_rot_items_cons, outcome_bind.
    destruct (outcome (Mask8.gen_rot_angles rot tile_type bk q
                         (enumerate Mask8.ANGLES) used)) as [used1|e] eqn:Hinner;
      [|done].
    intros Hout.
    destruct (gen_rot_angles_covers _ _ _ _ _ _ _ Hinner) as [Hsub1 Hcov1].
    destruct (IH _ Hout) as [Hsub2 Hcov2]. split.
    + intros m Hm. by apply Hsub2, Hsub1.
    + intros base_key p idx angle [[= -> ->]|Hrest]%elem_of_cons Hia.
      * destruct (Hcov1 idx angle Hia) as (key & mask & Hk & Hm & Hin).
        exists key, mask. split_and!; [done | done | by apply Hsub2].
      * by apply (Hcov2 base_key p).
Qed.

Lemma written_elem (t : list event) (path : string) :
  path ∈ written t → ∃ text, WriteFile path text ∈ t.
Proof.
  induction t as [|[d|l|q x] t IH]; simpl.
  - intros H. by apply elem_of_nil in H.
  - intros [text H]%IH. exists text. apply elem_of_cons. by right.
  - intros [text H]%IH. exists text. apply elem_of_cons. by right.
  - intros [->|H]%elem_of_cons.
    + exists x. apply elem_of_cons. by left.
    + destruct (IH H) as [text Ht]. exists text. apply elem_of_cons. by right.
Qed.

(** The file of every variant's mask is among the events of a pass that
    returns. *)
Lemma gen_rot_tiles_writes_mask rot base_dict tile_type base_key p idx angle :
  outcome (Mask8.gen_rot_tiles_with rot base_dict tile_type) = Ok tt →
  (base_key, p) ∈ base_dict →
  (idx, angle) ∈ enumerate Mask8.ANGLES →
  ∃ key mask text,
    Mask8.variant_key rot base_key idx angle = Ok key
    ∧ Mask8.key_to_mask key = Ok mask
    ∧ WriteFile (mask_path tile_type mask) text
      ∈ trace (Mask8.gen_rot_tiles_with rot base_dict tile_type).
Proof.
  unfold Mask8.gen_rot_tiles_with at 1. rewrite outcome_bind.
  destruct (outcome (Mask8.gen_rot_items rot tile_type base_dict ∅))
    as [used'|e] eqn:Hout; [|done].
  intros _ Hin Hia.
  destruct (gen_rot_items_covers _ _ _ _ _ Hout) as [_ Hcov].
  destruct (Hcov base_key p idx angle Hin Hia) as (key & mask & Hk & Hm & Hused).
  destruct (gen_rot_items_dedup rot tile_type base_dict ∅)
    as (masks & _ & _ & Hw & Hfinal).
  rewrite (Hfinal _ Hout) in Hused.
  apply elem_of_union in Hused as [Hused|Hused];
    [|by apply not_elem_of_empty in Hused].
  apply elem_of_list_to_set in Hused.
  destruct (written_elem
              (trace (Mask8.gen_rot_tiles_with rot base_dict tile_type))
              (mask_path tile_type mask)) as [text Htext].
  { rewrite trace_gen_rot_tiles_with, Hw. apply list_elem_of_fmap.
    by exists mask. }
  by exists key, mask, text.
Qed.

(** ** The text of a tile *)

Lemma SVG_TMPL_format_parts (svg_id desc transform outer inner : string) :
  Mask8.SVG_TMPL_format svg_id desc transform outer inner
  = svg_head_mask svg_id desc +:+ road_group_mask transform outer inner.
Proof.
  unfold Mask8.SVG_TMPL_format, svg_head_mask, road_group_mask.
  rewrite !string_app_assoc. do 4 f_equal.
Qed.

Lemma SVG_TEMPLATE_format_parts
    (svg_id description transform_attr path_type path_outer path_inner : string) :
  TileKeyGen.SVG_TEMPLATE_format svg_id description transform_attr path_type
    path_outer path_inner
  = svg_head_key svg_id description
    +:+ road_group_key path_type transform_attr path_outer path_inner
    +:+ svg_tail_key.
Proof.
  unfold TileKeyGen.SVG_TEMPLATE_format, svg_head_key, road_group_key,
    svg_tail_key.
  rewrite !string_app_assoc. do 4 f_equal.
Qed.

Lemma reuses_draws_mask rot base_dict tile_type (ev : event) :
  reuses_base_paths_mask rot base_dict tile_type ev →
  draws_base_paths_mask rot base_dict tile_type ev.
Proof.
  destruct ev as [dir|line|path text]; [done | done |].
  intros (base_key & p & idx & angle & key & mask & attr
          & Hin & Hia & Hkey & Hmask & Hattr & -> & ->).
  exists base_key, p, idx, angle, key, mask, attr.
  eexists _, _. split_and!; try done. apply SVG_TMPL_format_parts.
Qed.

Lemma reuses_draws_key rot base_paths tile_type (ev : event) :
  reuses_base_paths_key rot base_paths tile_type ev →
  draws_base_paths_key rot base_paths tile_type ev.
Proof.
  destruct ev as [dir|line|path text]; [done | done |].
  intros (base_key & p & i & angle & tile_key & description & attr
          & Hin & Hia & Hkey & Hdesc & Hattr & -> & ->).
  exists base_key, p, i, angle, tile_key, attr.
  eexists _, _. split_and!; try done. apply SVG_TEMPLATE_format_parts.
Qed.

(** The key-named generator: a loop that returns has written the file of
    every variant that has a key. *)
Lemma rotated_angles_draws rot tile_type base_key p variants count n
    i angle tile_key :
  outcome (TileKeyGen.rotated_angles rot tile_type base_key p variants count)
    = Ok n →
  (i, angle) ∈ variants →
  TileKeyGen.rotated_tile_key rot base_key i angle = Ok (Some tile_key) →
  ∃ svg_id description,
    WriteFile (key_path tile_type tile_key)
      (svg_head_key svg_id description
       +:+ road_group_key tile_type (TileKeyGen.transform_attr angle)
             (outer p) (inner p)
       +:+ svg_tail_key)
    ∈ trace (TileKeyGen.rotated_angles rot tile_type base_key p variants count).
Proof.
  revert count. induction variants as [|[j a] rest IH]; intros count Hout Hin Hkey.
  - by apply elem_of_nil in Hin.
  - rewrite rotated_angles_cons in Hout |- *.
    destruct (TileKeyGen.rotated_tile_key rot base_key j a)
      as [[key'|]|e] eqn:Hkey'; [| |done]; rewrite lift_ok_bind in Hout |- *.
    + cbv zeta in Hout |- *.
      destruct (TileKeyGen.get_description key' tile_type) as [d|e];
        [|done].
      rewrite lift_ok_bind, emit_bind in Hout |- *.
      unfold outcome in Hout at 1. simpl snd in Hout.
      unfold trace at 1. simpl fst.
      apply elem_of_cons in Hin as [[= <- <-]|Hin].
      * rewrite Hkey in Hkey'. injection Hkey' as <-.
        eexists _, _. apply elem_of_cons. left.
        unfold key_path. f_equal. symmetry. apply SVG_TEMPLATE_format_parts.
      * destruct (IH _ Hout Hin Hkey) as (svg_id & description & Hev).
        exists svg_id, description. apply elem_of_cons. by right.
    + rewrite emit_bind in Hout |- *.
      unfold outcome in Hout at 1. simpl snd in Hout.
      unfold trace at 1. simpl fst.
      apply elem_of_cons in Hin as [[= <- <-]|Hin]; [congruence|].
      destruct (IH _ Hout Hin Hkey) as (svg_id & description & Hev).
      exists svg_id, description. apply elem_of_cons. by right.
Qed.

Lemma generate_rotated_tiles_draws rot base_paths tile_type count n
    base_key p i angle tile_key :
  outcome (TileKeyGen.generate_rotated_tiles_with rot base_paths tile_type count)
    = Ok n →
  (base_key, p) ∈ base_paths →
  (i, angle) ∈ enumerate TileKeyGen.ANGLES →
  TileKeyGen.rotated_tile_key rot base_key i angle = Ok (Some tile_key) →
  ∃ svg_id description,
    WriteFile (key_path tile_type tile_key)
      (svg_head_key svg_id description
       +:+ road_group_key tile_type (TileKeyGen.transform_attr angle)
             (outer p) (inner p)
       +:+ svg_tail_key)
    ∈ trace (TileKeyGen.generate_rotated_tiles_with rot base_paths tile_type
               count).
Proof.
  revert count. induction base_paths as [|[bk q] rest IH];
    intros count Hout Hin Hia Hkey.
  - by apply elem_of_nil in Hin.
  - rewrite generate_rotated_tiles_cons in Hout |- *.
    rewrite outcome_bind in Hout. rewrite trace_bind.
    destruct (outcome (TileKeyGen.rotated_angles rot tile_type bk q
                         (enumerate TileKeyGen.ANGLES) count))
      as [count'|e] eqn:Hinner; [|done].
    apply elem_of_cons in Hin as [[= <- <-]|Hin].
    + destruct (rotated_angles_draws _ _ _ _ _ _ _ _ _ _ Hinner Hia Hkey)
        as (svg_id & description & Hev).
      exists svg_id, description. apply elem_of_app. by left.
    + destruct (IH _ Hout Hin Hia Hkey) as (svg_id & description & Hev).
      exists svg_id, description. apply elem_of_app. by right.
Qed.

(** The mask-named generator: when a pass returns, a variant whose mask is
    shared only by variants with the same paths and angle has its file, drawn
    with its own paths and transform. *)
Lemma gen_rot_tiles_draws rot base_dict tile_type base_key p idx angle key mask :
  outcome (Mask8.gen_rot_tiles_with rot base_dict tile_type) = Ok tt →
  (base_key, p) ∈ base_dict →
  (idx, angle) ∈ enumerate Mask8.ANGLES →
  Mask8.variant_key rot base_key idx angle = Ok key →
  Mask8.key_to_mask key = Ok mask →
  (∀ base_key' p' idx' angle' key',
     (base_key', p') ∈ base_dict →
     (idx', angle') ∈ enumerate Mask8.ANGLES →
     Mask8.variant_key rot base_key' idx' angle' = Ok key' →
     Mask8.key_to_mask key' = Ok mask →
     p' = p ∧ angle' = angle) →
  ∃ svg_id desc attr,
    rotate_attr_of angle attr
    ∧ WriteFile (mask_path tile_type mask)
        (svg_head_mask svg_id desc
         +:+ road_group_mask attr (outer p) (inner p))
      ∈ trace (Mask8.gen_rot_tiles_with rot base_dict tile_type).
Proof.
  intros Hout Hin Hia Hkey Hmask Hsame.
  destruct (gen_rot_tiles_writes_mask _ _ _ _ _ _ _ Hout Hin Hia)
    as (key0 & mask0 & text & Hkey0 & Hmask0 & Hev).
  rewrite Hkey in Hkey0. injection Hkey0 as <-.
  rewrite Hmask in Hmask0. injection Hmask0 as <-.
  assert (Hall : Forall (draws_base_paths_mask rot base_dict tile_type)
                   (trace (Mask8.gen_rot_tiles_with rot base_dict tile_type))).
  { rewrite trace_gen_rot_tiles_with.
    eapply Forall_impl; [by apply gen_rot_items_reuses|].
    apply reuses_draws_mask. }
  rewrite Forall_forall in Hall.
  destruct (Hall _ Hev) as (bk' & p' & idx' & angle' & key' & mask' & attr
                            & svg_id & desc & Hin' & Hia' & Hkey' & Hmask'
                            & Hattr & Hpath & Htext).
  apply mask_path_inj in Hpath as <-.
  destruct (Hsame bk' p' idx' angle' key' Hin' Hia' Hkey' Hmask') as [-> ->].
  exists svg_id, desc, attr. split; [done|]. by rewrite <- Htext.
Qed.

(** * The claims *)

(** C1. Within one generation pass of the mask-named generator (one call of
    [gen_rot_tiles], for any rotation table, base dictionary and tile type,
    or the loop over the straight tiles, for any dictionary) the files
    written carry pairwise distinct masks, hence pairwise distinct names,
    also when the pass stops on an exception: a variant whose mask is
    already in the set of used masks is passed over without a write.  The
    curve family writes exactly 16 files, one per mask of a list of 16
    distinct masks. *)
Theorem dedup_emits_distinct_masks :
  (∀ rot base_dict tile_type,
     let files := written (trace (Mask8.gen_rot_tiles_with rot base_dict tile_type)) in
     NoDup files ∧
     ∃ masks, NoDup masks ∧ files = map (mask_path tile_type) masks)
  ∧ (∀ items,
       let files := written (trace (Mask8.straight_loop items ∅)) in
       NoDup files ∧
       ∃ masks, NoDup masks ∧ files = map (mask_path "straight") masks)
  ∧ (∀ rot tile_type base_key p idx angle rest used key mask,
       Mask8.variant_key rot base_key idx angle = Ok key →
       Mask8.key_to_mask key = Ok mask →
       mask ∈ used →
       Mask8.gen_rot_angles rot tile_type base_key p ((idx, angle) :: rest) used
       = Mask8.gen_rot_angles rot tile_type base_key p rest used)
  ∧ (∀ key p rest used mask,
       Mask8.key_to_mask key = Ok mask →
       mask ∈ used →
       Mask8.straight_loop ((key, p) :: rest) used
       = Mask8.straight_loop rest used)
  ∧ (let masks := [5; 36; 160; 129; 9; 20; 96; 130;
                   6; 40; 144; 65; 10; 24; 80; 66]%N in
     let files := written (trace (Mask8.gen_rot_tiles Mask8.curve_paths_base "curve")) in
     files = map (mask_path "curve") masks
     ∧ length files = 16%nat ∧ NoDup masks ∧ NoDup files
     ∧ outcome (Mask8.gen_rot_tiles Mask8.curve_paths_base "curve") = Ok tt).
Proof.
  split_and!.
  - intros rot base_dict tile_type files. subst files.
    rewrite trace_gen_rot_tiles_with.
    pose proof (gen_rot_items_dedup rot tile_type base_dict ∅) as Hpass.
    split.
    + eapply dedup_pass_NoDup; [apply mask_path_inj | apply Hpass].
    + destruct Hpass as (ms & Hnd & _ & Hw & _). eauto.
  - intros items files. subst files.
    pose proof (straight_loop_dedup items ∅) as Hpass.
    split.
    + eapply dedup_pass_NoDup; [apply mask_path_inj | apply Hpass].
    + destruct Hpass as (ms & Hnd & _ & Hw & _). eauto.
  - intros rot tile_type base_key p idx angle rest used key mask Hkey Hmask Hin.
    rewrite gen_rot_angles_cons, Hkey, lift_ok_bind, Hmask, lift_ok_bind.
    by rewrite decide_True.
  - intros key p rest used mask Hmask Hin.
    rewrite straight_loop_cons, Hmask, lift_ok_bind.
    by rewrite decide_True.
  - assert (Hnd : NoDup [5; 36; 160; 129; 9; 20; 96; 130;
                         6; 40; 144; 65; 10; 24; 80; 66]%N)
      by (apply (bool_decide_unpack _); vm_compute; exact I).
    assert (Hfiles :
      written (trace (Mask8.gen_rot_tiles Mask8.curve_paths_base "curve"))
      = map (mask_path "curve") [5; 36; 160; 129; 9; 20; 96; 130;
                                 6; 40; 144; 65; 10; 24; 80; 66]%N)
      by (vm_compute; reflexivity).
    cbv zeta. rewrite Hfiles. split_and!; [done | done | done | | ].
    + apply NoDup_fmap_2; [|done]. intros m n. apply mask_path_inj.
    + vm_compute. reflexivity.
Qed.

Lemma dedup_emits_distinct_masks_witness :
  Mask8.straight_loop
    [("R2R3-L2L3", Paths "M 40 20 L 0 20" "M 40 30 L 0 30")] {[72%N]}
  = Mask8.straight_loop [] {[72%N]}.
Proof.
  apply dedup_emits_distinct_masks with (mask := 72%N).
  - vm_compute. reflexivity.
  - apply elem_of_singleton. reflexivity.
Defined.

(** C2. With its default ports (start E0, goal W0) the marker generator
    writes exactly two files, [road-tile-marker-start-04.svg] and
    [road-tile-marker-goal-80.svg], in that order: E0 is bit 2, mask 0x04,
    and W0 is bit 7, mask 0x80.  The same holds for the script run without
    options. *)
Theorem default_markers_two_files :
  Marker.PORT_TO_BIT !! "E0" = Some 2%N
  ∧ Marker.PORT_TO_MASK !! "E0" = Some 0x04%N
  ∧ Marker.PORT_TO_BIT !! "W0" = Some 7%N
  ∧ Marker.PORT_TO_MASK !! "W0" = Some 0x80%N
  ∧ written (trace (Marker.generate_marker_tiles "E0" "W0"))
    = [ "marker_tiles/road-tile-marker-start-04.svg";
        "marker_tiles/road-tile-marker-goal-80.svg" ]
  ∧ outcome (Marker.generate_marker_tiles "E0" "W0")
    = Ok ("road-tile-marker-start-04.svg", "road-tile-marker-goal-80.svg")
  ∧ written (trace (Marker.main None None))
    = [ "marker_tiles/road-tile-marker-start-04.svg";
        "marker_tiles/road-tile-marker-goal-80.svg" ]
  ∧ outcome (Marker.main None None)
    = Ok ("road-tile-marker-start-04.svg", "road-tile-marker-goal-80.svg").
Proof. split_and!; vm_compute; reflexivity. Qed.

(** C3, as the code has it.  [calculate_mask] never fails: for every
    sequence of port names it returns a mask, a name that is not one of the
    8 recognised ones is passed over (dropping such names from the sequence
    leaves the result unchanged), and bit [b] of the result is set exactly
    when some name of the sequence is the port of bit [b]. *)
Theorem calculate_mask_skips_unknown_ports (ports : list string) :
  ∃ mask : N,
    Marker.calculate_mask ports = Ok mask
    ∧ Marker.calculate_mask (filter recognised ports) = Ok mask
    ∧ ∀ b : N, N.testbit mask b = true
               ↔ ∃ port, port ∈ ports ∧ Marker.PORT_TO_BIT !! port = Some b.
Proof.
  exists (mask_of_ports ports). split_and!.
  - apply calculate_mask_eq.
  - by rewrite calculate_mask_eq, mask_of_ports_filter.
  - apply mask_of_ports_testbit.
Qed.

(** C3, as stated, fails: the sequence ["Z9"] holds a name that is not
    recognised, and [calculate_mask] returns mask 0 for it instead of
    raising; the marker tile built from it is written under the mask 00. *)
Lemma calculate_mask_unknown_port_returns :
  "Z9" ∈ ["Z9"]
  ∧ Marker.PORT_TO_BIT !! "Z9" = None
  ∧ Marker.calculate_mask ["Z9"] = Ok 0%N
  ∧ (∀ e, Marker.calculate_mask ["Z9"] ≠ Raise e)
  ∧ outcome (Marker.generate_marker_tile "start" ["Z9"])
    = Ok "road-tile-marker-start-00.svg".
Proof.
  split_and!; [apply list_elem_of_singleton; done | vm_compute; reflexivity..| |].
  - intros e. vm_compute. discriminate.
  - vm_compute. reflexivity.
Qed.

(** C5. The straight family of the mask-named generator, from its 4 keys
    in declared order, writes exactly 2 files, those of the 1st and 3rd
    keys: the 2nd and 4th keys have the masks of the 1st and 3rd (0x48 and
    0x12) and are skipped, as the counts after each key show. *)
Theorem straight_family_emits_two_files :
  let r := Mask8.straight_loop Mask8.straight_paths ∅ in
  map fst Mask8.straight_paths
  = ["L2L3-R2R3"; "R2R3-L2L3"; "U2U3-D2D3"; "D2D3-U2U3"]
  ∧ map Mask8.key_to_mask (map fst Mask8.straight_paths)
    = [Ok 0x48%N; Ok 0x48%N; Ok 0x12%N; Ok 0x12%N]
  ∧ trace r
    = [ WriteFile "road_tiles_8bit/road-tile-straight-48.svg"
          (Mask8.SVG_TMPL_format "road-tile-straight-48"
             "straight tile, key=L2L3-R2R3, mask=0x48" ""
             "M 0 20 L 40 20" "M 0 30 L 40 30");
        WriteFile "road_tiles_8bit/road-tile-straight-12.svg"
          (Mask8.SVG_TMPL_format "road-tile-straight-12"
             "straight tile, key=U2U3-D2D3, mask=0x12" ""
             "M 20 0 L 20 40" "M 30 0 L 30 40") ]
  ∧ length (written (trace r)) = 2%nat
  ∧ map (λ n, length (written (trace
           (Mask8.straight_loop (take n Mask8.straight_paths) ∅))))
      [0; 1; 2; 3; 4]%nat
    = [0; 1; 1; 2; 2]%nat
  ∧ filter (λ path, String.prefix "road_tiles_8bit/road-tile-straight-" path = true)
      (written (trace Mask8.main))
    = [ "road_tiles_8bit/road-tile-straight-48.svg";
        "road_tiles_8bit/road-tile-straight-12.svg" ].
Proof. cbv zeta. split_and!; vm_compute; reflexivity. Qed.

(** C9. The mask of the empty list is 0; the mask of one recognised port
    is [1 << bit]; the mask is the same for any two lists that are
    permutations of each other, and more generally for any two lists with
    the same names in them; a port that already occurs in the list can be
    added again without changing the mask; and the mask of two lists put
    together is the OR of their masks, in either order. *)
Theorem calculate_mask_algebra :
  Marker.calculate_mask [] = Ok 0%N
  ∧ (∀ port bit, Marker.PORT_TO_BIT !! port = Some bit →
       Marker.calculate_mask [port] = Ok (N.shiftl 1 bit))
  ∧ (∀ l l', l ≡ₚ l' → Marker.calculate_mask l = Marker.calculate_mask l')
  ∧ (∀ port l, port ∈ l →
       Marker.calculate_mask (port :: l) = Marker.calculate_mask l)
  ∧ (∀ l l', (∀ port, port ∈ l ↔ port ∈ l') →
       Marker.calculate_mask l = Marker.calculate_mask l')
  ∧ (∀ l1 l2, ∃ m1 m2,
       Marker.calculate_mask l1 = Ok m1 ∧ Marker.calculate_mask l2 = Ok m2
       ∧ Marker.calculate_mask (l1 ++ l2) = Ok (N.lor m1 m2)
       ∧ Marker.calculate_mask (l2 ++ l1) = Ok (N.lor m1 m2)).
Proof.
  split_and!.
  - reflexivity.
  - intros port bit Hbit. rewrite calculate_mask_eq. simpl.
    by rewrite (port_mask_recognised _ _ Hbit), N.lor_0_r.
  - intros l l' Hperm. rewrite !calculate_mask_eq. f_equal.
    apply mask_of_ports_ext. intros port. by rewrite Hperm.
  - intros port l Hin. rewrite !calculate_mask_eq. f_equal.
    apply mask_of_ports_ext. intros q. rewrite elem_of_cons.
    split; [intros [->|?]; done | by right].
  - intros l l' Hll'. rewrite !calculate_mask_eq. f_equal.
    by apply mask_of_ports_ext.
  - intros l1 l2. exists (mask_of_ports l1), (mask_of_ports l2).
    rewrite !calculate_mask_eq. split_and!; [done | done | |]; f_equal.
    + unfold mask_of_ports. rewrite foldr_app.
      induction l1 as [|p l1 IH]; simpl; [by rewrite N.lor_0_l|].
      by rewrite IH, N.lor_assoc.
    + rewrite N.lor_comm. unfold mask_of_ports. rewrite foldr_app.
      induction l2 as [|p l2 IH]; simpl; [by rewrite N.lor_0_l|].
      by rewrite IH, N.lor_assoc.
Qed.

Lemma calculate_mask_algebra_witness :
  Marker.calculate_mask ["E0"] = Ok (N.shiftl 1 2)
  ∧ Marker.calculate_mask ["N0"; "W0"] = Marker.calculate_mask ["W0"; "N0"]
  ∧ Marker.calculate_mask ["N0"; "W0"; "N0"] = Marker.calculate_mask ["W0"; "N0"].
Proof.
  destruct calculate_mask_algebra as (_ & Hone & Hperm & Hdup & _).
  split_and!.
  - apply Hone. vm_compute. reflexivity.
  - apply Hperm. apply Permutation_swap.
  - rewrite (Hdup "N0" ["W0"; "N0"]).
    + reflexivity.
    + apply elem_of_cons. right. apply elem_of_cons. by left.
Defined.



(** C4, as the code has it.  Let the rotation table have no key for one of
    the three rotated variants (angle 90, 180 or 270) of a base key.  In the
    mask-named generator, deriving that variant raises the exception of the
    missing entry, [KeyError] of the base key when the base key is not in
    the table and [IndexError] when its entry is too short; the variant is
    never skipped: a loop that has reached it stops there with that
    exception, and every run of [gen_rot_tiles] over a dictionary with that
    base key ends in an exception.  The run ends in that very exception,
    after the events of what came before, whenever the entries before the
    base key and the angles before the variant were gone through without an
    exception of their own.  In the key-named generator the variant is
    skipped: the loop prints the warning and goes on with the next angle,
    the count unchanged. *)
Theorem missing_rotation_mapping
    (rot : gmap string (list string)) (base_key : string) (idx : Z) (angle : N) :
  (idx, angle) ∈ rotated_variants →
  rotation_missing rot base_key idx →
  Mask8.variant_key rot base_key idx angle
  = Raise (missing_rotation_error rot base_key)
  ∧ (∀ tile_type p rest used,
       Mask8.gen_rot_angles rot tile_type base_key p
         ((idx, angle) :: rest) used
       = ([], Raise (missing_rotation_error rot base_key)))
  ∧ (∀ base_dict tile_type p,
       (base_key, p) ∈ base_dict →
       ∃ e, outcome (Mask8.gen_rot_tiles_with rot base_dict tile_type) = Raise e)
  ∧ (∀ tile_type before p after earlier later used used',
       enumerate Mask8.ANGLES = earlier ++ (idx, angle) :: later →
       outcome (Mask8.gen_rot_items rot tile_type before ∅) = Ok used →
       outcome (Mask8.gen_rot_angles rot tile_type base_key p earlier used)
         = Ok used' →
       Mask8.gen_rot_tiles_with rot (before ++ (base_key, p) :: after) tile_type
       = (trace (Mask8.gen_rot_items rot tile_type before ∅)
          ++ trace (Mask8.gen_rot_angles rot tile_type base_key p earlier used),
          Raise (missing_rotation_error rot base_key)))
  ∧ TileKeyGen.rotated_tile_key rot base_key idx angle = Ok None
  ∧ (∀ tile_type path_data rest count,
       TileKeyGen.rotated_angles rot tile_type base_key path_data
         ((idx, angle) :: rest) count
       = (emit (Print (TileKeyGen.rotation_warning base_key angle));;
          TileKeyGen.rotated_angles rot tile_type base_key path_data rest count)).
Proof.
  intros Hia Hmiss.
  destruct (rotated_variants_enumerated _ Hia) as (Hen8 & HenK & Hidx & Hangle).
  simpl in Hidx, Hangle.
  assert (Hraise : Mask8.variant_key rot base_key idx angle
                   = Raise (missing_rotation_error rot base_key)).
  { unfold Mask8.variant_key, missing_rotation_error, rotation_missing in *.
    rewrite Hangle. unfold dict_getitem.
    destruct (rot !! base_key) as [ks|]; [|done]. simpl.
    apply py_index_out_of_range; lia. }
  split_and!.
  - done.
  - intros tile_type p rest used.
    by rewrite gen_rot_angles_cons, Hraise.
  - intros base_dict tile_type p Hin.
    destruct (gen_rot_items_missing rot tile_type base_dict ∅ base_key p idx angle)
      as (e & He); [done..|].
    exists e. unfold Mask8.gen_rot_tiles_with. by rewrite outcome_bind, He.
  - intros tile_type before p after earlier later used used' Henum Hbefore Hearlier.
    by apply (gen_rot_tiles_stops_at rot tile_type before base_key p after
                earlier idx angle later used used').
  - by apply rotated_tile_key_missing.
  - intros tile_type path_data rest count.
    rewrite rotated_angles_cons, rotated_tile_key_missing by done.
    by rewrite lift_ok_bind.
Qed.

Lemma missing_rotation_mapping_witness :
  Mask8.gen_rot_tiles Mask8.straight_paths "straight"
  = ([ WriteFile "road_tiles_8bit/road-tile-straight-48.svg"
         (Mask8.SVG_TMPL_format "road-tile-straight-48"
            "straight tile, key=L2L3-R2R3, mask=0x48" ""
            "M 0 20 L 40 20" "M 0 30 L 40 30") ],
     Raise (KeyError "L2L3-R2R3"))
  ∧ TileKeyGen.rotated_tile_key TileKeyGen.rotated_keys_map "L2L3-R2R3" 1%Z 90%N
    = Ok None.
Proof.
  assert (Hia : (1%Z, 90%N) ∈ rotated_variants)
    by (apply elem_of_cons; by left).
  assert (Hm8 : rotation_missing Mask8.ROT_KEYS "L2L3-R2R3" 1%Z)
    by (vm_compute; exact I).
  assert (HmK : rotation_missing TileKeyGen.rotated_keys_map "L2L3-R2R3" 1%Z)
    by (vm_compute; exact I).
  split.
  - assert (Hzero : outcome (Mask8.gen_rot_angles Mask8.ROT_KEYS "straight"
                                "L2L3-R2R3"
                                (Paths "M 0 20 L 40 20" "M 0 30 L 40 30")
                                [(0%Z, 0%N)] ∅) = Ok ({[72%N]} ∪ ∅))
      by (vm_compute; reflexivity).
    pose proof (proj1 (proj2 (proj2 (proj2
                  (missing_rotation_mapping Mask8.ROT_KEYS "L2L3-R2R3" 1%Z 90%N
                     Hia Hm8))))
                  "straight" []
                  (Paths "M 0 20 L 40 20" "M 0 30 L 40 30")
                  (tail Mask8.straight_paths)
                  [(0%Z, 0%N)] [(2%Z, 180%N); (3%Z, 270%N)] ∅ ({[72%N]} ∪ ∅)
                  eq_refl eq_refl Hzero) as Hrun.
    vm_compute in Hrun |- *. exact Hrun.
  - apply (missing_rotation_mapping _ _ _ _ Hia HmK).
Defined.

(** C4, as stated, fails on the key-named generator: "L2L3-R2R3" has no
    entry in its rotation table, and generating its rotated tiles returns
    normally, having written the angle-0 file only and printed one warning
    for each of the three missing variants. *)
Lemma generate_py_skips_missing_rotation :
  let r := TileKeyGen.generate_rotated_tiles
             [("L2L3-R2R3", Paths "M 0 20 L 40 20" "M 0 30 L 40 30")]
             "straight" 0%N in
  TileKeyGen.rotated_keys_map !! "L2L3-R2R3" = None
  ∧ outcome r = Ok 1%N
  ∧ written (trace r) = ["road_tiles/road-tile-straight-L2L3-R2R3.svg"]
  ∧ printed (trace r)
    = [ "Warning: Rotated key mapping not found for L2L3-R2R3 at 90 deg.";
        "Warning: Rotated key mapping not found for L2L3-R2R3 at 180 deg.";
        "Warning: Rotated key mapping not found for L2L3-R2R3 at 270 deg." ].
Proof. cbv zeta. split_and!; vm_compute; reflexivity. Qed.

(** C6. For every base key (and every rotation table) the variants are
    derived in the angle order 0, 90, 180, 270; the key at angle 0 is the
    base key itself, whatever the table holds; the keys at 90, 180 and 270
    are the entries at positions 0, 1 and 2 of the base key's list in the
    table.  On the script's own table this gives the four rows below, and
    the files of the curve and sharp families are written in exactly that
    order, one per derived key. *)
Theorem derive_variants_positional
    (rot : gmap string (list string)) (base_key : string) :
  map fst (derived_variants rot base_key) = [0; 90; 180; 270]%N
  ∧ Mask8.variant_key rot base_key 0 0 = Ok base_key
  ∧ map snd (derived_variants rot base_key)
    = [ Ok base_key;
        ks ← dict_getitem rot base_key; py_index ks 0;
        ks ← dict_getitem rot base_key; py_index ks 1;
        ks ← dict_getitem rot base_key; py_index ks 2 ]
  ∧ (∀ k1 k2 k3 more,
       rot !! base_key = Some (k1 :: k2 :: k3 :: more) →
       derived_variants rot base_key
       = [(0, Ok base_key); (90, Ok k1); (180, Ok k2); (270, Ok k3)]%N)
  ∧ map (derived_variants Mask8.ROT_KEYS) (map fst Mask8.curve_paths_base)
    = [ [(0, Ok "U1U2-R1R2"); (90, Ok "R1R2-D1D2");
         (180, Ok "D1D2-L1L2"); (270, Ok "L1L2-U1U2")];
        [(0, Ok "U1U2-R2R3"); (90, Ok "R1R2-D2D3");
         (180, Ok "D1D2-L2L3"); (270, Ok "L1L2-U2U3")];
        [(0, Ok "U2U3-R1R2"); (90, Ok "R2R3-D1D2");
         (180, Ok "D2D3-L1L2"); (270, Ok "L2L3-U1U2")];
        [(0, Ok "U2U3-R2R3"); (90, Ok "R2R3-D2D3");
         (180, Ok "D2D3-L2L3"); (270, Ok "L2L3-U2U3")] ]%N
  ∧ trace (Mask8.gen_rot_tiles Mask8.curve_paths_base "curve")
    = flat_map (λ '(bk, p),
        flat_map (variant_file "curve" p) (derived_variants Mask8.ROT_KEYS bk))
        Mask8.curve_paths_base
  ∧ trace (Mask8.gen_rot_tiles Mask8.sharp_paths_base "sharp")
    = flat_map (λ '(bk, p),
        flat_map (variant_file "sharp" p) (derived_variants Mask8.ROT_KEYS bk))
        Mask8.sharp_paths_base.
Proof.
  split_and!;
    [reflexivity | reflexivity | reflexivity | | vm_compute; reflexivity..].
  intros k1 k2 k3 more Hrot.
  unfold derived_variants, Mask8.variant_key, dict_getitem. simpl.
  by rewrite Hrot.
Qed.

Lemma derive_variants_positional_witness :
  derived_variants Mask8.ROT_KEYS "U1U2-R2R3"
  = [(0, Ok "U1U2-R2R3"); (90, Ok "R1R2-D2D3");
     (180, Ok "D1D2-L2L3"); (270, Ok "L1L2-U2U3")]%N.
Proof.
  apply (derive_variants_positional Mask8.ROT_KEYS "U1U2-R2R3") with (more := []).
  vm_compute. reflexivity.
Defined.

(** C8. Every file written by a pass over rotated tiles, in either
    generator and for any rotation table, base dictionary and tile type, is
    the file of one rotation variant of one entry of the base dictionary,
    and the road group of its text holds the outer and inner paths of that
    entry as they stand, under a [transform] attribute that is empty at
    angle 0 and is [rotate(angle 20 20)] at the other angles.  The files
    are there: a pass of the mask-named generator that returns has written
    such a file for every variant whose mask is not also the mask of a
    variant with other paths or another angle (of two variants with one
    mask only the first is written), and a pass of the key-named generator
    that returns has written such a file for every variant that has a key.
    For the curve and sharp families of the scripts, the 16 files of each
    pass carry, in order, the road of each base entry under the four
    attributes listed. *)
Theorem rotation_reuses_base_paths :
  (∀ rot base_dict tile_type,
     Forall (draws_base_paths_mask rot base_dict tile_type)
       (trace (Mask8.gen_rot_tiles_with rot base_dict tile_type)))
  ∧ (∀ rot base_paths tile_type count,
       Forall (draws_base_paths_key rot base_paths tile_type)
         (trace (TileKeyGen.generate_rotated_tiles_with rot base_paths
                   tile_type count)))
  ∧ (∀ rot base_dict tile_type base_key p idx angle key mask,
       outcome (Mask8.gen_rot_tiles_with rot base_dict tile_type) = Ok tt →
       (base_key, p) ∈ base_dict →
       (idx, angle) ∈ enumerate Mask8.ANGLES →
       Mask8.variant_key rot base_key idx angle = Ok key →
       Mask8.key_to_mask key = Ok mask →
       (∀ base_key' p' idx' angle' key',
          (base_key', p') ∈ base_dict →
          (idx', angle') ∈ enumerate Mask8.ANGLES →
          Mask8.variant_key rot base_key' idx' angle' = Ok key' →
          Mask8.key_to_mask key' = Ok mask →
          p' = p ∧ angle' = angle) →
       ∃ svg_id desc attr,
         rotate_attr_of angle attr
         ∧ WriteFile (mask_path tile_type mask)
             (svg_head_mask svg_id desc
              +:+ road_group_mask attr (outer p) (inner p))
           ∈ trace (Mask8.gen_rot_tiles_with rot base_dict tile_type))
  ∧ (∀ rot base_paths tile_type count n base_key p i angle tile_key,
       outcome (TileKeyGen.generate_rotated_tiles_with rot base_paths
                  tile_type count) = Ok n →
       (base_key, p) ∈ base_paths →
       (i, angle) ∈ enumerate TileKeyGen.ANGLES →
       TileKeyGen.rotated_tile_key rot base_key i angle = Ok (Some tile_key) →
       ∃ svg_id description attr,
         rotate_attr_of angle attr
         ∧ WriteFile (key_path tile_type tile_key)
             (svg_head_key svg_id description
              +:+ road_group_key tile_type attr (outer p) (inner p)
              +:+ svg_tail_key)
           ∈ trace (TileKeyGen.generate_rotated_tiles_with rot base_paths
                      tile_type count))
  ∧ map road_of_mask_tile
      (trace (Mask8.gen_rot_tiles Mask8.curve_paths_base "curve"))
    = flat_map (λ '(_, p),
        map (λ attr, road_group_mask attr (outer p) (inner p)) rotate_attrs)
        Mask8.curve_paths_base
  ∧ map road_of_mask_tile
      (trace (Mask8.gen_rot_tiles Mask8.sharp_paths_base "sharp"))
    = flat_map (λ '(_, p),
        map (λ attr, road_group_mask attr (outer p) (inner p)) rotate_attrs)
        Mask8.sharp_paths_base
  ∧ map road_of_key_tile
      (trace (TileKeyGen.generate_rotated_tiles
                TileKeyGen.curve_paths_base "curve" 0%N))
    = flat_map (λ '(_, p),
        map (λ attr, road_group_key "curve" attr (outer p) (inner p)
                     +:+ svg_tail_key) rotate_attrs)
        TileKeyGen.curve_paths_base
  ∧ map road_of_key_tile
      (trace (TileKeyGen.generate_rotated_tiles
                TileKeyGen.sharp_paths_base "sharp" 16%N))
    = flat_map (λ '(_, p),
        map (λ attr, road_group_key "sharp" attr (outer p) (inner p)
                     +:+ svg_tail_key) rotate_attrs)
        TileKeyGen.sharp_paths_base
  ∧ map Mask8.transform_attr Mask8.ANGLES = rotate_attrs
  ∧ map TileKeyGen.transform_attr TileKeyGen.ANGLES = rotate_attrs.
Proof.
  split_and!.
  - intros rot base_dict tile_type. rewrite trace_gen_rot_tiles_with.
    eapply Forall_impl; [by apply gen_rot_items_reuses|].
    apply reuses_draws_mask.
  - intros rot base_paths tile_type count.
    eapply Forall_impl; [by apply generate_rotated_tiles_reuses|].
    apply reuses_draws_key.
  - apply gen_rot_tiles_draws.
  - intros rot base_paths tile_type count n base_key p i angle tile_key
      Hout Hin Hia Hkey.
    destruct (generate_rotated_tiles_draws _ _ _ _ _ _ _ _ _ _ Hout Hin Hia Hkey)
      as (svg_id & description & Hev).
    exists svg_id, description, (TileKeyGen.transform_attr angle).
    split; [apply transform_attr_key_spec | done].
  - vm_compute. reflexivity.
  - vm_compute. reflexivity.
  - vm_compute. reflexivity.
  - vm_compute. reflexivity.
  - vm_compute. reflexivity.
  - vm_compute. reflexivity.
Qed.

Lemma rotation_reuses_base_paths_witness :
  (∃ svg_id desc attr,
     rotate_attr_of 180%N attr
     ∧ WriteFile (mask_path "curve" 96%N)
         (svg_head_mask svg_id desc
          +:+ road_group_mask attr
                "M 10 0 L 10 20 C 10 25.5 14.5 30 20 30 L 40 30"
                "M 20 0 L 20 15 C 20 17.8 22.2 20 25 20 L 40 20")
       ∈ trace (Mask8.gen_rot_tiles_with Mask8.ROT_KEYS
                  Mask8.curve_paths_base "curve"))
  ∧ (∃ svg_id description attr,
       rotate_attr_of 180%N attr
       ∧ WriteFile (key_path "sharp" "D1D2-L2L3")
           (svg_head_key svg_id description
            +:+ road_group_key "sharp" attr
                  "M 10 0 L 10 30 L 40 30" "M 20 0 L 20 20 L 40 20"
            +:+ svg_tail_key)
         ∈ trace (TileKeyGen.generate_rotated_tiles_with
                    TileKeyGen.rotated_keys_map TileKeyGen.sharp_paths_base
                    "sharp" 16%N)).
Proof.
  split.
  - apply (proj1 (proj2 (proj2 rotation_reuses_base_paths))
             Mask8.ROT_KEYS Mask8.curve_paths_base "curve" "U1U2-R2R3"
             (Paths "M 10 0 L 10 20 C 10 25.5 14.5 30 20 30 L 40 30"
                    "M 20 0 L 20 15 C 20 17.8 22.2 20 25 20 L 40 20")
             2%Z 180%N "D1D2-L2L3" 96%N).
    + vm_compute. reflexivity.
    + apply (list_elem_of_lookup_2 _ 1%nat). reflexivity.
    + apply (list_elem_of_lookup_2 _ 2%nat). reflexivity.
    + vm_compute. reflexivity.
    + vm_compute. reflexivity.
    + intros base_key' p' idx' angle' key' Hin Hia Hkey Hmask.
      destruct enumerate_ANGLES as [Hen _]. rewrite Hen in Hia.
      unfold Mask8.curve_paths_base in Hin.
      rewrite !elem_of_cons, elem_of_nil in Hin.
      rewrite !elem_of_cons, elem_of_nil in Hia.
      destruct Hin as [[= -> ->]|[[= -> ->]|[[= -> ->]|[[= -> ->]|[]]]]];
        destruct Hia as [[= -> ->]|[[= -> ->]|[[= -> ->]|[[= -> ->]|[]]]]];
        vm_compute in Hkey; injection Hkey as <-;
        vm_compute in Hmask; first [discriminate Hmask | done].
  - apply (proj1 (proj2 (proj2 (proj2 rotation_reuses_base_paths)))
             TileKeyGen.rotated_keys_map TileKeyGen.sharp_paths_base "sharp"
             16%N 32%N "U1U2-R2R3"
             (Paths "M 10 0 L 10 30 L 40 30" "M 20 0 L 20 20 L 40 20")
             2%Z 180%N "D1D2-L2L3").
    + vm_compute. reflexivity.
    + apply (list_elem_of_lookup_2 _ 1%nat). reflexivity.
    + apply (list_elem_of_lookup_2 _ 2%nat). reflexivity.
    + vm_compute. reflexivity.
Defined.

(** C10. The key-named generator has no deduplication: a pass over rotated
    tiles that returns has written one file for every candidate variant, in
    order, whatever masks the keys have, and the straight loop one file for
    every key.  The script therefore writes 36 files, 16 curve, 16 sharp
    and all 4 straight ones, among them both direction-reversed straight
    keys although each has the mask of its counterpart; the 36 names are
    pairwise distinct and carry the tile key itself; the final count is 36
    and the closing message is the one for the expected count. *)
Theorem key_named_generator_emits_all (dir_exists : bool) :
  let r := TileKeyGen.main dir_exists in
  outcome r = Ok 36%N
  ∧ written (trace r)
    = map (key_path "curve")
        (candidate_keys TileKeyGen.rotated_keys_map TileKeyGen.curve_paths_base)
      ++ map (key_path "sharp")
           (candidate_keys TileKeyGen.rotated_keys_map TileKeyGen.sharp_paths_base)
      ++ map (key_path "straight") (map fst TileKeyGen.straight_paths)
  ∧ length (candidate_keys TileKeyGen.rotated_keys_map TileKeyGen.curve_paths_base)
    = 16%nat
  ∧ length (candidate_keys TileKeyGen.rotated_keys_map TileKeyGen.sharp_paths_base)
    = 16%nat
  ∧ map fst TileKeyGen.straight_paths
    = ["L2L3-R2R3"; "R2R3-L2L3"; "U2U3-D2D3"; "D2D3-U2U3"]
  ∧ length (written (trace r)) = 36%nat
  ∧ NoDup (written (trace r))
  ∧ (∀ tile_type tile_key,
       key_path tile_type tile_key
       = "road_tiles/road-tile-" +:+ tile_type +:+ "-" +:+ tile_key +:+ ".svg")
  ∧ Mask8.key_to_mask "R2R3-L2L3" = Mask8.key_to_mask "L2L3-R2R3"
  ∧ Mask8.key_to_mask "D2D3-U2U3" = Mask8.key_to_mask "U2U3-D2D3"
  ∧ last (printed (trace r))
    = Some "Generated 16 curve, 16 sharp, and 4 straight (central lanes only) tiles as expected."
  ∧ (∀ rot base_paths tile_type count n,
       outcome (TileKeyGen.generate_rotated_tiles_with rot base_paths
                  tile_type count) = Ok n →
       written (trace (TileKeyGen.generate_rotated_tiles_with rot base_paths
                         tile_type count))
       = map (key_path tile_type) (candidate_keys rot base_paths)
       ∧ n = (count + N.of_nat (length (candidate_keys rot base_paths)))%N)
  ∧ (∀ tile_type items count n,
       outcome (TileKeyGen.straight_loop tile_type items count) = Ok n →
       written (trace (TileKeyGen.straight_loop tile_type items count))
       = map (key_path tile_type) (map fst items)
       ∧ n = (count + N.of_nat (length items))%N).
Proof.
  cbv zeta. split_and!.
  - destruct dir_exists; vm_compute; reflexivity.
  - destruct dir_exists; vm_compute; reflexivity.
  - vm_compute. reflexivity.
  - vm_compute. reflexivity.
  - reflexivity.
  - destruct dir_exists; vm_compute; reflexivity.
  - apply (bool_decide_unpack _). destruct dir_exists; vm_compute; exact I.
  - intros tile_type tile_key. apply key_path_eq.
  - vm_compute. reflexivity.
  - vm_compute. reflexivity.
  - destruct dir_exists; vm_compute; reflexivity.
  - apply generate_rotated_tiles_all.
  - apply straight_loop_all.
Qed.

Lemma key_named_generator_emits_all_witness :
  written (trace (TileKeyGen.generate_rotated_tiles_with
                    TileKeyGen.rotated_keys_map
                    [("L2L3-R2R3", Paths "M 0 20 L 40 20" "M 0 30 L 40 30");
                     ("R2R3-L2L3", Paths "M 40 20 L 0 20" "M 40 30 L 0 30")]
                    "straight" 0%N))
  = map (key_path "straight")
      (candidate_keys TileKeyGen.rotated_keys_map
         [("L2L3-R2R3", Paths "M 0 20 L 40 20" "M 0 30 L 40 30");
          ("R2R3-L2L3", Paths "M 40 20 L 0 20" "M 40 30 L 0 30")]).
Proof.
  apply (key_named_generator_emits_all true) with (n := 2%N).
  vm_compute. reflexivity.
Defined.

(** * Further properties of the scripts *)

(** ** [key_to_mask] *)

Lemma key_to_mask_loop_eq (mask : N) (toks : list string) :
  Mask8.key_to_mask_loop mask toks
  = match first_unknown_pair toks with
    | Some tok => Raise (ValueError ("Unknown port pair '" +:+ tok +:+ "'"))
    | None => Ok (N.lor mask (mask_of_pairs toks))
    end.
Proof.
  revert mask. induction toks as [|tok rest IH]; intros mask.
  - simpl. by rewrite N.lor_0_r.
  - unfold first_unknown_pair in *. simpl Mask8.key_to_mask_loop.
    rewrite filter_cons. unfold mask_of_pairs, pair_mask. simpl foldr.
    destruct (Mask8.PAIR_TO_BIT !! tok) as [bit|] eqn:Hbit.
    + rewrite decide_False by done. rewrite IH.
      destruct (head _); [done|]. by rewrite N.lor_assoc.
    + by rewrite decide_True by done.
Qed.

Lemma pair_mask_testbit (tok : string) (b : N) :
  N.testbit (pair_mask tok) b = true ↔ Mask8.PAIR_TO_BIT !! tok = Some b.
Proof.
  unfold pair_mask. destruct (Mask8.PAIR_TO_BIT !! tok) as [bit|].
  - rewrite N.shiftl_1_l, N.pow2_bits_eqb, N.eqb_eq.
    split; [by intros -> | by intros [= ->]].
  - rewrite N.bits_0. split; done.
Qed.

Lemma mask_of_pairs_testbit (toks : list string) (b : N) :
  N.testbit (mask_of_pairs toks) b = true
  ↔ ∃ tok, tok ∈ toks ∧ Mask8.PAIR_TO_BIT !! tok = Some b.
Proof.
  induction toks as [|tok rest IH].
  - simpl. rewrite ?N.bits_0. split; [done|].
    intros (t & Ht & _). by apply elem_of_nil in Ht.
  - change (mask_of_pairs (tok :: rest))
      with (N.lor (pair_mask tok) (mask_of_pairs rest)).
    rewrite N.lor_spec, orb_true_iff, pair_mask_testbit, IH. split.
    + intros [H|(t & Ht & H)]; [exists tok | exists t]; split; try done.
      * apply elem_of_cons; by left.
      * apply elem_of_cons; by right.
    + intros (t & [->|Ht]%elem_of_cons & H); [by left|].
      right. by exists t.
Qed.

Lemma key_to_mask_ok_inv (key : string) (mask : N) :
  Mask8.key_to_mask key = Ok mask →
  first_unknown_pair (split "-" key) = None
  ∧ mask = mask_of_pairs (split "-" key).
Proof.
  unfold Mask8.key_to_mask. rewrite key_to_mask_loop_eq.
  destruct (first_unknown_pair _); [done|].
  rewrite N.lor_0_l. by intros [= <-].
Qed.

Lemma split_nonempty (sep : ascii) (s : string) : split sep s ≠ [].
Proof.
  destruct s as [|c s]; simpl; [done|].
  destruct (Ascii.eqb c sep); [done|]. by destruct (split sep s).
Qed.

Lemma PAIR_TO_BIT_bits (tok : string) (bit : N) :
  Mask8.PAIR_TO_BIT !! tok = Some bit → (bit < 8)%N.
Proof.
  revert tok bit. apply (map_Forall_lookup (λ _ bit, (bit < 8)%N)).
  apply (bool_decide_unpack _). vm_compute. exact I.
Qed.

Lemma small_bits_bound (m : N) :
  (∀ b, N.testbit m b = true → (b < 8)%N) → (m < 256)%N.
Proof.
  intros Hbits. destruct (N.eq_dec m 0%N) as [->|Hm]; [lia|].
  assert (N.log2 m < 8)%N as Hlog by (apply Hbits, N.bit_log2; done).
  change 256%N with (2 ^ 8)%N. apply N.log2_lt_pow2; lia.
Qed.

Lemma format_02X_two_digits (m : N) :
  (m < 256)%N → String.length (format_02X m) = 2%nat.
Proof.
  intros Hm.
  assert (Hall : forallb (λ k, Nat.eqb (String.length (format_02X (N.of_nat k))) 2)
                   (seq 0 256) = true) by (vm_compute; reflexivity).
  rewrite forallb_forall in Hall.
  specialize (Hall (N.to_nat m)). rewrite N2Nat.id in Hall.
  apply Nat.eqb_eq, Hall, in_seq. lia.
Qed.

Lemma key_to_mask_range (key : string) (mask : N) :
  Mask8.key_to_mask key = Ok mask → (0 < mask < 256)%N.
Proof.
  intros [Hknown ->]%key_to_mask_ok_inv. split.
  - destruct (split "-" key) as [|tok rest] eqn:Hsplit;
      [by apply split_nonempty in Hsplit|].
    destruct (Mask8.PAIR_TO_BIT !! tok) as [bit|] eqn:Hbit.
    + assert (N.testbit (mask_of_pairs (tok :: rest)) bit = true) as Hset.
      { apply mask_of_pairs_testbit. exists tok.
        split; [apply elem_of_cons; by left | done]. }
      destruct (N.eq_dec (mask_of_pairs (tok :: rest)) 0%N) as [Hz|?]; [|lia].
      by rewrite Hz, N.bits_0 in Hset.
    + unfold first_unknown_pair in Hknown. rewrite filter_cons in Hknown.
      by rewrite decide_True in Hknown by done.
  - apply small_bits_bound. intros b [tok [_ Hb]]%mask_of_pairs_testbit.
    by apply PAIR_TO_BIT_bits in Hb.
Qed.

(** X1. The mask of a key has bit [b] set exactly when one of the tokens of
    the key, split at "-", is the port pair of bit [b]. *)
Theorem key_to_mask_bits (key : string) (mask : N) :
  Mask8.key_to_mask key = Ok mask →
  ∀ b, N.testbit mask b = true
       ↔ ∃ tok, tok ∈ split "-" key ∧ Mask8.PAIR_TO_BIT !! tok = Some b.
Proof.
  intros [_ ->]%key_to_mask_ok_inv b. apply mask_of_pairs_testbit.
Qed.

Lemma key_to_mask_bits_witness :
  N.testbit 5 2 = true
  ↔ ∃ tok, tok ∈ split "-" "U1U2-R1R2" ∧ Mask8.PAIR_TO_BIT !! tok = Some 2%N.
Proof.
  apply (key_to_mask_bits "U1U2-R1R2" 5%N). vm_compute. reflexivity.
Defined.

(** X2. A mask returned by [key_to_mask] is never 0 and fits 8 bits, so
    its [02X] rendering in a file name has exactly two digits. *)
Theorem key_to_mask_8bit (key : string) (mask : N) :
  Mask8.key_to_mask key = Ok mask →
  (0 < mask < 256)%N ∧ String.length (format_02X mask) = 2%nat.
Proof.
  intros Hok. pose proof (key_to_mask_range key mask Hok) as Hrange.
  split; [done|]. apply format_02X_two_digits. lia.
Qed.

Lemma key_to_mask_8bit_witness :
  (0 < 0x48 < 256)%N ∧ String.length (format_02X 0x48) = 2%nat.
Proof.
  apply (key_to_mask_8bit "L2L3-R2R3"). vm_compute. reflexivity.
Defined.

(** X3. [key_to_mask] fails exactly when some token of the key is not a
    port pair, and then with the [ValueError] that names the first such
    token; otherwise it returns a mask.  The empty key fails on its one
    empty token. *)
Theorem key_to_mask_outcome (key : string) :
  match first_unknown_pair (split "-" key) with
  | Some tok =>
      Mask8.key_to_mask key
      = Raise (ValueError ("Unknown port pair '" +:+ tok +:+ "'"))
  | None => Mask8.key_to_mask key = Ok (mask_of_pairs (split "-" key))
  end.
Proof.
  unfold Mask8.key_to_mask. rewrite key_to_mask_loop_eq.
  destruct (first_unknown_pair _); [done|]. by rewrite N.lor_0_l.
Qed.

Lemma key_to_mask_outcome_witness :
  Mask8.key_to_mask "" = Raise (ValueError "Unknown port pair ''").
Proof.
  pose proof (key_to_mask_outcome "") as H.
  assert (Hfirst : first_unknown_pair (split "-" "") = Some "")
    by (vm_compute; reflexivity).
  rewrite Hfirst in H. exact H.
Defined.

Lemma split_app_sep (sep : ascii) (a b : string) :
  split sep (a +:+ String sep b) = split sep a ++ split sep b.
Proof.
  induction a as [|c a IH].
  - simpl. by rewrite Ascii.eqb_refl.
  - rewrite string_app_cons. simpl split. rewrite IH.
    destruct (Ascii.eqb c sep); [done|].
    destruct (split sep a) as [|tok toks] eqn:Ha; [|done].
    by apply split_nonempty in Ha.
Qed.

Lemma first_unknown_pair_None (toks : list string) :
  first_unknown_pair toks = None
  ↔ ∀ tok, tok ∈ toks → is_Some (Mask8.PAIR_TO_BIT !! tok).
Proof.
  unfold first_unknown_pair. rewrite head_None. split.
  - intros Hnil tok Htok.
    destruct (Mask8.PAIR_TO_BIT !! tok) as [bit|] eqn:Hbit; [by eexists|].
    assert (tok ∈ filter (λ tok, Mask8.PAIR_TO_BIT !! tok = None) toks) as Hin
      by (by apply list_elem_of_filter).
    rewrite Hnil in Hin. by apply elem_of_nil in Hin.
  - intros Hall.
    destruct (filter _ toks) as [|tok rest] eqn:Hf; [done|].
    assert (tok ∈ filter (λ tok, Mask8.PAIR_TO_BIT !! tok = None) toks) as Hin
      by (rewrite Hf; apply elem_of_cons; by left).
    apply list_elem_of_filter in Hin as [Hnone Hin].
    destruct (Hall tok Hin) as [bit Hbit]. congruence.
Qed.

Lemma mask_of_pairs_ext (l l' : list string) :
  (∀ tok, tok ∈ l ↔ tok ∈ l') → mask_of_pairs l = mask_of_pairs l'.
Proof.
  intros Hll'. apply N.bits_inj. intros b.
  apply eq_true_iff_eq. rewrite !mask_of_pairs_testbit.
  split; intros (t & Ht & H); exists t; split; try done; by apply Hll'.
Qed.

Lemma key_to_mask_same_tokens (key key' : string) (mask : N) :
  (∀ tok, tok ∈ split "-" key ↔ tok ∈ split "-" key') →
  Mask8.key_to_mask key = Ok mask → Mask8.key_to_mask key' = Ok mask.
Proof.
  intros Hsame [Hknown ->]%key_to_mask_ok_inv.
  assert (first_unknown_pair (split "-" key') = None) as Hknown'.
  { apply first_unknown_pair_None. intros tok Htok.
    by apply (proj1 (first_unknown_pair_None _) Hknown), Hsame. }
  unfold Mask8.key_to_mask. rewrite key_to_mask_loop_eq, Hknown', N.lor_0_l.
  f_equal. apply mask_of_pairs_ext. intros tok. by rewrite Hsame.
Qed.

(** X4. The mask of a key does not depend on the order or the repetition
    of its tokens: two keys with the same tokens have the same mask, so a
    key and its direction-reversed form [b-a] collide, and a key doubled as
    [a-a] has the mask (or raises the error) of [a]. *)
Theorem key_to_mask_order_free :
  (∀ key key' mask,
     (∀ tok, tok ∈ split "-" key ↔ tok ∈ split "-" key') →
     Mask8.key_to_mask key = Ok mask → Mask8.key_to_mask key' = Ok mask)
  ∧ (∀ a b mask,
       Mask8.key_to_mask (a +:+ "-" +:+ b) = Ok mask →
       Mask8.key_to_mask (b +:+ "-" +:+ a) = Ok mask)
  ∧ (∀ a, Mask8.key_to_mask (a +:+ "-" +:+ a) = Mask8.key_to_mask a).
Proof.
  split_and!.
  - apply key_to_mask_same_tokens.
  - intros a b mask. apply key_to_mask_same_tokens. intros tok.
    change (a +:+ "-" +:+ b) with (a +:+ String "-" b).
    change (b +:+ "-" +:+ a) with (b +:+ String "-" a).
    rewrite !split_app_sep, !elem_of_app. tauto.
  - intros a. change (a +:+ "-" +:+ a) with (a +:+ String "-" a).
    unfold Mask8.key_to_mask. rewrite split_app_sep, !key_to_mask_loop_eq.
    unfold first_unknown_pair. rewrite filter_app.
    destruct (filter _ (split "-" a)) as [|tok rest] eqn:Hf; simpl; [|done].
    f_equal. f_equal. apply mask_of_pairs_ext. intros tok.
    rewrite elem_of_app. tauto.
Qed.

Lemma key_to_mask_order_free_witness :
  Mask8.key_to_mask ("R2R3" +:+ "-" +:+ "L2L3") = Ok 0x48%N.
Proof.
  apply key_to_mask_order_free. vm_compute. reflexivity.
Defined.

(** ** The passes of the mask-named generator *)

(** X5. When a pass of [gen_rot_tiles] returns, every variant of every
    base key has its file: the key of each of the four angles exists, has a
    mask, and the file of that mask was written by the pass. *)
Theorem gen_rot_tiles_covers_every_variant
    rot base_dict tile_type base_key p idx angle :
  outcome (Mask8.gen_rot_tiles_with rot base_dict tile_type) = Ok tt →
  (base_key, p) ∈ base_dict →
  (idx, angle) ∈ enumerate Mask8.ANGLES →
  ∃ key mask,
    Mask8.variant_key rot base_key idx angle = Ok key
    ∧ Mask8.key_to_mask key = Ok mask
    ∧ mask_path tile_type mask
      ∈ written (trace (Mask8.gen_rot_tiles_with rot base_dict tile_type)).
Proof.
  unfold Mask8.gen_rot_tiles_with at 1. rewrite outcome_bind.
  destruct (outcome (Mask8.gen_rot_items rot tile_type base_dict ∅))
    as [used'|e] eqn:Hout; [|done].
  intros _ Hin Hia.
  destruct (gen_rot_items_covers _ _ _ _ _ Hout) as [_ Hcov].
  destruct (Hcov base_key p idx angle Hin Hia) as (key & mask & Hk & Hm & Hused).
  exists key, mask. split_and!; [done | done |].
  rewrite trace_gen_rot_tiles_with.
  destruct (gen_rot_items_dedup rot tile_type base_dict ∅)
    as (masks & _ & _ & -> & Hfinal).
  rewrite (Hfinal _ Hout) in Hused.
  apply elem_of_union in Hused as [Hused|Hused];
    [|by apply not_elem_of_empty in Hused].
  apply elem_of_list_to_set in Hused.
  apply list_elem_of_fmap. by exists mask.
Qed.

Lemma gen_rot_tiles_covers_every_variant_witness :
  ∃ key mask,
    Mask8.variant_key Mask8.ROT_KEYS "U2U3-R2R3" 3 270 = Ok key
    ∧ Mask8.key_to_mask key = Ok mask
    ∧ mask_path "sharp" mask
      ∈ written (trace (Mask8.gen_rot_tiles_with Mask8.ROT_KEYS
                          Mask8.sharp_paths_base "sharp")).
Proof.
  apply (gen_rot_tiles_covers_every_variant Mask8.ROT_KEYS
           Mask8.sharp_paths_base "sharp" "U2U3-R2R3"
           (Paths "M 20 0 L 20 30 L 40 30" "M 30 0 L 30 20 L 40 20") 3%Z 270%N).
  - vm_compute. reflexivity.
  - apply (list_elem_of_lookup_2 _ 3%nat). reflexivity.
  - apply (list_elem_of_lookup_2 _ 3%nat). reflexivity.
Defined.

Lemma gen_rot_angles_all_used rot tile_type base_key p variants used :
  (∀ idx angle, (idx, angle) ∈ variants →
     ∃ key mask, Mask8.variant_key rot base_key idx angle = Ok key
                 ∧ Mask8.key_to_mask key = Ok mask ∧ mask ∈ used) →
  Mask8.gen_rot_angles rot tile_type base_key p variants used = mret used.
Proof.
  induction variants as [|[idx angle] rest IH]; intros Hall; [done|].
  destruct (Hall idx angle) as (key & mask & Hkey & Hmask & Hin);
    [apply elem_of_cons; by left|].
  rewrite gen_rot_angles_cons, Hkey, lift_ok_bind, Hmask, lift_ok_bind.
  rewrite decide_True by done. apply IH.
  intros i a Hia. apply Hall, elem_of_cons. by right.
Qed.

Lemma gen_rot_items_all_used rot tile_type items used :
  (∀ base_key p idx angle,
     (base_key, p) ∈ items → (idx, angle) ∈ enumerate Mask8.ANGLES →
     ∃ key mask, Mask8.variant_key rot base_key idx angle = Ok key
                 ∧ Mask8.key_to_mask key = Ok mask ∧ mask ∈ used) →
  Mask8.gen_rot_items rot tile_type items used = mret used.
Proof.
  induction items as [|[base_key p] rest IH]; intros Hall; [done|].
  rewrite gen_rot_items_cons, gen_rot_angles_all_used, ret_bind.
  - apply IH. intros bk q idx angle Hin. apply (Hall bk q), elem_of_cons.
    by right.
  - intros idx angle. apply (Hall base_key p), elem_of_cons. by left.
Qed.

Lemma straight_loop_all_used items used :
  (∀ key p, (key, p) ∈ items →
     ∃ mask, Mask8.key_to_mask key = Ok mask ∧ mask ∈ used) →
  Mask8.straight_loop items used = mret used.
Proof.
  induction items as [|[key p] rest IH]; intros Hall; [done|].
  destruct (Hall key p) as (mask & Hmask & Hin); [apply elem_of_cons; by left|].
  rewrite straight_loop_cons, Hmask, lift_ok_bind.
  rewrite decide_True by done. apply IH.
  intros k q Hkq. apply (Hall k q), elem_of_cons. by right.
Qed.

Lemma bind_ret_ok {A} (m : run A) (f : A → run A) (a : A) :
  outcome m = Ok a → f a = mret a → m ≫= f = m.
Proof.
  intros Hout Hf. rewrite (bind_ok _ _ _ Hout), Hf.
  destruct m as [t r]. simpl in *. by rewrite app_nil_r, Hout.
Qed.

(** X6. The set of used masks is carried from one base key to the next and
    never reset inside a pass: once a pass has gone through a part of the
    dictionary, further entries whose variants all have masks that are
    already used add nothing, no file and no exception, and leave the set as
    it is; in particular going through the same entries a second time in
    the same pass writes nothing more.  The same holds for the loop over the
    straight tiles. *)
Theorem used_masks_carried_across_keys :
  (∀ rot tile_type l1 l2 used used',
     outcome (Mask8.gen_rot_items rot tile_type l1 used) = Ok used' →
     (∀ base_key p idx angle,
        (base_key, p) ∈ l2 → (idx, angle) ∈ enumerate Mask8.ANGLES →
        ∃ key mask, Mask8.variant_key rot base_key idx angle = Ok key
                    ∧ Mask8.key_to_mask key = Ok mask ∧ mask ∈ used') →
     Mask8.gen_rot_items rot tile_type (l1 ++ l2) used
     = Mask8.gen_rot_items rot tile_type l1 used)
  ∧ (∀ rot tile_type l used used',
       outcome (Mask8.gen_rot_items rot tile_type l used) = Ok used' →
       Mask8.gen_rot_items rot tile_type (l ++ l) used
       = Mask8.gen_rot_items rot tile_type l used)
  ∧ (∀ l1 l2 used used',
       outcome (Mask8.straight_loop l1 used) = Ok used' →
       (∀ key p, (key, p) ∈ l2 →
          ∃ mask, Mask8.key_to_mask key = Ok mask ∧ mask ∈ used') →
       Mask8.straight_loop (l1 ++ l2) used = Mask8.straight_loop l1 used).
Proof.
  split_and!.
  - intros rot tile_type l1 l2 used used' Hout Hall.
    rewrite gen_rot_items_app. apply (bind_ret_ok _ _ used'); [done|].
    by apply gen_rot_items_all_used.
  - intros rot tile_type l used used' Hout.
    rewrite gen_rot_items_app. apply (bind_ret_ok _ _ used'); [done|].
    apply gen_rot_items_all_used.
    by apply (gen_rot_items_covers rot tile_type l used used').
  - intros l1 l2 used used' Hout Hall.
    rewrite straight_loop_app. apply (bind_ret_ok _ _ used'); [done|].
    by apply straight_loop_all_used.
Qed.

Lemma used_masks_carried_across_keys_witness :
  Mask8.straight_loop
    ([("L2L3-R2R3", Paths "M 0 20 L 40 20" "M 0 30 L 40 30")]
     ++ [("R2R3-L2L3", Paths "M 40 20 L 0 20" "M 40 30 L 0 30")]) ∅
  = Mask8.straight_loop
      [("L2L3-R2R3", Paths "M 0 20 L 40 20" "M 0 30 L 40 30")] ∅.
Proof.
  apply (proj2 (proj2 used_masks_carried_across_keys)) with (used' := {[72%N]} ∪ ∅).
  - vm_compute. reflexivity.
  - intros key p Hin. apply list_elem_of_singleton in Hin.
    injection Hin as -> _. exists 72%N. split.
    + vm_compute. reflexivity.
    + apply elem_of_union. left. by apply elem_of_singleton.
Defined.

(** ** How many files a pass writes *)

Lemma gen_rot_angles_count rot tile_type base_key p variants used :
  (length (written (trace (Mask8.gen_rot_angles rot tile_type base_key p
                             variants used))) ≤ length variants)%nat.
Proof.
  revert used. induction variants as [|[i a] rest IH]; intros used.
  - simpl. lia.
  - rewrite gen_rot_angles_cons.
    destruct (Mask8.variant_key rot base_key i a) as [key|e];
      [rewrite lift_ok_bind | simpl; lia].
    destruct (Mask8.key_to_mask key) as [mask|e];
      [rewrite lift_ok_bind | simpl; lia].
    destruct (decide (mask ∈ used)).
    + specialize (IH used). simpl length. lia.
    + unfold Mask8.write_svg. rewrite emit_bind.
      unfold trace at 1. simpl fst. simpl written.
      specialize (IH ({[mask]} ∪ used)). simpl length. lia.
Qed.

Lemma gen_rot_items_count rot tile_type items used :
  (length (written (trace (Mask8.gen_rot_items rot tile_type items used)))
   ≤ 4 * length items)%nat.
Proof.
  revert used. induction items as [|[base_key p] rest IH]; intros used.
  - simpl. lia.
  - rewrite gen_rot_items_cons, trace_bind, written_app, length_app.
    pose proof (gen_rot_angles_count rot tile_type base_key p
                  (enumerate Mask8.ANGLES) used) as Hinner.
    change (length (enumerate Mask8.ANGLES)) with 4%nat in Hinner.
    change (length ((base_key, p) :: rest)) with (S (length rest)).
    destruct (outcome _) as [used'|e].
    + specialize (IH used'). lia.
    + change (length (written [])) with 0%nat. lia.
Qed.

(** X7. A pass of [gen_rot_tiles] writes at most four files per entry of
    the base dictionary, and never more than 255 files whatever the
    dictionary and the rotation table are: the files carry distinct non-zero
    8-bit masks. *)
Theorem gen_rot_tiles_file_count rot base_dict tile_type :
  let n := length (written (trace (Mask8.gen_rot_tiles_with rot base_dict tile_type))) in
  (n ≤ 4 * length base_dict)%nat ∧ (n ≤ 255)%nat.
Proof.
  cbv zeta. rewrite trace_gen_rot_tiles_with. split.
  - apply gen_rot_items_count.
  - destruct (gen_rot_items_dedup rot tile_type base_dict ∅)
      as (masks & Hnd & _ & Hw & _).
    rewrite Hw, length_map.
    assert (Hrange : ∀ m, m ∈ masks → m ∈ (N.of_nat <$> seq 1 255)).
    { intros m Hm.
      assert (mask_path tile_type m
              ∈ written (trace (Mask8.gen_rot_items rot tile_type base_dict ∅)))
        as Hpath by (rewrite Hw; apply list_elem_of_fmap; by exists m).
      apply written_elem in Hpath as [text Hev].
      pose proof (gen_rot_items_reuses rot base_dict tile_type base_dict ∅
                    (λ x Hx, Hx)) as Hall.
      rewrite Forall_forall in Hall. specialize (Hall _ Hev).
      destruct Hall as (bk & p & idx & angle & key & mask & attr
                        & _ & _ & _ & Hmask & _ & Hpath & _).
      apply mask_path_inj in Hpath as ->.
      apply key_to_mask_range in Hmask as [Hpos Hlt].
      apply list_elem_of_fmap. exists (N.to_nat mask). split; [lia|].
      apply elem_of_seq. lia. }
    pose proof (submseteq_length _ _ (NoDup_submseteq _ _ Hnd Hrange)) as Hlen.
    by rewrite length_fmap, length_seq in Hlen.
Qed.

(** ** File names, ids and masks *)

Lemma substring_0_app (s t : string) :
  String.substring 0 (String.length s) (s +:+ t) = s.
Proof.
  induction s as [|c s IH].
  - simpl. by destruct t.
  - rewrite string_app_cons. simpl. by rewrite IH.
Qed.

Lemma substring_skip_app (p s : string) (m : nat) :
  String.substring (String.length p) m (p +:+ s) = String.substring 0 m s.
Proof.
  induction p as [|c p IH]; [done|].
  rewrite string_app_cons. simpl. apply IH.
Qed.

Lemma drop_last4_svg (stem : string) : drop_last4 (stem +:+ ".svg") = stem.
Proof.
  unfold drop_last4. rewrite string_app_length. simpl String.length.
  replace (String.length stem + 4 - 4)%nat with (String.length stem) by lia.
  apply substring_0_app.
Qed.

Lemma mask_of_fname_format (prefix : string) (mask : N) :
  (mask < 256)%N →
  mask_of_fname (prefix +:+ format_02X mask +:+ ".svg") = mask.
Proof.
  intros Hlt. unfold mask_of_fname.
  pose proof (format_02X_two_digits mask Hlt) as Hlen.
  rewrite !string_app_length, Hlen. simpl String.length.
  replace (String.length prefix + (2 + 4) - 6)%nat
    with (String.length prefix) by lia.
  rewrite substring_skip_app, <- Hlen, substring_0_app.
  apply parse_format_02X.
Qed.




(** X10. The mask can be read back from the name of every tile file: the
    two characters before ".svg" of the name built for a key's mask, or for
    the mask of a list of marker ports, are that mask in hexadecimal. *)
Theorem file_name_mask_round_trip :
  (∀ tile_type key mask,
     Mask8.key_to_mask key = Ok mask →
     mask_of_fname (Mask8.tile_fname tile_type mask) = mask
     ∧ mask_of_fname (mask_path tile_type mask) = mask)
  ∧ (∀ tile_type ports fname,
       outcome (Marker.generate_marker_tile tile_type ports) = Ok fname →
       Marker.calculate_mask ports = Ok (mask_of_fname fname)).
Proof.
  split.
  - intros tile_type key mask [_ Hlt]%key_to_mask_range. split.
    + unfold Mask8.tile_fname.
      rewrite <- (mask_of_fname_format ("road-tile-" +:+ tile_type +:+ "-")
                    mask Hlt) at 2.
      by rewrite !string_app_assoc.
    + rewrite mask_path_eq.
      rewrite <- (mask_of_fname_format
                    ("road_tiles_8bit/road-tile-" +:+ tile_type +:+ "-")
                    mask Hlt) at 2.
      by rewrite !string_app_assoc.
  - intros tile_type ports fname.
    destruct (generate_marker_tile_shape tile_type ports) as (text & line & ->).
    unfold outcome. simpl. intros [= <-].
    rewrite calculate_mask_eq. f_equal. unfold marker_fname.
    assert (Hlt : (mask_of_ports ports < 256)%N).
    { apply small_bits_bound. intros b [p [_ Hb]]%mask_of_ports_testbit.
      revert p b Hb. apply (map_Forall_lookup (λ _ bit, (bit < 8)%N)).
      apply (bool_decide_unpack _). vm_compute. exact I. }
    symmetry.
    rewrite <- (mask_of_fname_format
                  ("road-tile-marker-"
                   +:+ (if String.eqb tile_type "start" then "start" else "goal")
                   +:+ "-") (mask_of_ports ports) Hlt) at 2.
    by rewrite !string_app_assoc.
Qed.

Lemma file_name_mask_round_trip_witness :
  mask_of_fname (Mask8.tile_fname "curve" 0xA0) = 0xA0%N
  ∧ Marker.calculate_mask ["W0"; "N1"]
    = Ok (mask_of_fname "road-tile-marker-goal-82.svg").
Proof.
  split.
  - apply (proj1 file_name_mask_round_trip "curve" "D1D2-L1L2").
    vm_compute. reflexivity.
  - apply (proj2 file_name_mask_round_trip "goal").
    vm_compute. reflexivity.
Defined.

(** ** The marker generator *)

Lemma PORT_TO_BIT_bits (port : string) (bit : N) :
  Marker.PORT_TO_BIT !! port = Some bit → (bit < 8)%N.
Proof.
  revert port bit. apply (map_Forall_lookup (λ _ bit, (bit < 8)%N)).
  apply (bool_decide_unpack _). vm_compute. exact I.
Qed.

Lemma PORT_TO_BIT_inj (p q : string) (bit : N) :
  Marker.PORT_TO_BIT !! p = Some bit → Marker.PORT_TO_BIT !! q = Some bit →
  p = q.
Proof.
  intros Hp Hq.
  assert (Hall : map_Forall (λ p b, map_Forall (λ q b', b = b' → p = q)
                                      Marker.PORT_TO_BIT) Marker.PORT_TO_BIT)
    by (apply (bool_decide_unpack _); vm_compute; exact I).
  by apply (Hall p bit Hp q bit Hq).
Qed.

Lemma mask_of_ports_range (ports : list string) :
  (mask_of_ports ports < 256)%N.
Proof.
  apply small_bits_bound. intros b [p [_ Hb]]%mask_of_ports_testbit.
  by apply PORT_TO_BIT_bits in Hb.
Qed.

(** X11. The mask of any list of port names fits 8 bits, so its [02X]
    rendering has exactly two digits; it is 0 exactly when no name of the
    list is a recognised port. *)
Theorem calculate_mask_8bit (ports : list string) :
  ∃ mask,
    Marker.calculate_mask ports = Ok mask
    ∧ (mask < 256)%N
    ∧ String.length (format_02X mask) = 2%nat
    ∧ (mask = 0%N ↔ ∀ port, port ∈ ports → Marker.PORT_TO_BIT !! port = None).
Proof.
  exists (mask_of_ports ports).
  pose proof (mask_of_ports_range ports) as Hlt.
  split_and!; [apply calculate_mask_eq | done | by apply format_02X_two_digits |].
  split.
  - intros Hz port Hin.
    destruct (Marker.PORT_TO_BIT !! port) as [bit|] eqn:Hbit; [|done].
    assert (N.testbit (mask_of_ports ports) bit = true) as Hset
      by (apply mask_of_ports_testbit; by exists port).
    by rewrite Hz, N.bits_0 in Hset.
  - intros Hnone. apply N.bits_inj_0. intros b.
    destruct (N.testbit (mask_of_ports ports) b) eqn:Hb; [|done].
    apply mask_of_ports_testbit in Hb as (port & Hin & Hbit).
    by rewrite (Hnone port Hin) in Hbit.
Qed.

Lemma calculate_mask_8bit_witness :
  ∃ mask, Marker.calculate_mask ["Z9"; "north"] = Ok mask ∧ mask = 0%N.
Proof.
  destruct (calculate_mask_8bit ["Z9"; "north"]) as (mask & Hmask & _ & _ & Hzero).
  exists mask. split; [done|]. apply Hzero.
  intros port [->|[->|Hin]%elem_of_cons]%elem_of_cons.
  - vm_compute. reflexivity.
  - vm_compute. reflexivity.
  - by apply elem_of_nil in Hin.
Defined.

Lemma generate_marker_tiles_files (start_port goal_port : string) :
  ∃ start_port' goal_port',
    written (trace (Marker.generate_marker_tiles start_port goal_port))
    = [ os_path_join Marker.OUT_DIR (marker_fname "start" [start_port']);
        os_path_join Marker.OUT_DIR (marker_fname "goal" [goal_port']) ].
Proof.
  rewrite generate_marker_tiles_unfold.
  destruct (dict_contains Marker.PORT_TO_MASK start_port);
    destruct (dict_contains Marker.PORT_TO_MASK goal_port);
    rewrite ?bind_assoc, ?ret_bind, ?bind_assoc, ?ret_bind.
  - destruct (marker_tiles_settled start_port goal_port) as (tiles & -> & Hw).
    by exists start_port, goal_port.
  - destruct (marker_tiles_settled start_port "W0") as (tiles & -> & Hw).
    rewrite ?emit_bind. by exists start_port, "W0".
  - destruct (marker_tiles_settled "E0" goal_port) as (tiles & -> & Hw).
    rewrite ?emit_bind. by exists "E0", goal_port.
  - destruct (marker_tiles_settled "E0" "W0") as (tiles & -> & Hw).
    rewrite ?emit_bind. by exists "E0", "W0".
Qed.

(** X12. The start file and the goal file never have the same name: for
    every pair of port names, also the same name twice, the marker
    generator writes two files with different paths, so the second write
    does not replace the first. *)
Theorem start_and_goal_files_differ (start_port goal_port : string) :
  let files := written (trace (Marker.generate_marker_tiles start_port goal_port)) in
  length files = 2%nat ∧ NoDup files.
Proof.
  cbv zeta.
  destruct (generate_marker_tiles_files start_port goal_port)
    as (s' & g' & ->).
  split; [done|].
  apply NoDup_cons. split; [|apply NoDup_singleton].
  rewrite list_elem_of_singleton. unfold marker_fname.
  change (String.eqb "start" "start") with true.
  change (String.eqb "goal" "start") with false.
  intros Heq.
  apply (string_app_inj_l "marker_tiles/road-tile-marker-") in Heq.
  discriminate Heq.
Qed.

(** X13. Different recognised ports have different marker files: if the
    tiles of two recognised ports, for the same kind of marker, get the same
    file name, the two ports are the same. *)
Theorem marker_file_determines_port (tile_type p q : string) :
  is_Some (Marker.PORT_TO_BIT !! p) →
  is_Some (Marker.PORT_TO_BIT !! q) →
  outcome (Marker.generate_marker_tile tile_type [p])
  = outcome (Marker.generate_marker_tile tile_type [q]) →
  p = q.
Proof.
  intros [bp Hp] [bq Hq].
  destruct (generate_marker_tile_shape tile_type [p]) as (t1 & l1 & ->).
  destruct (generate_marker_tile_shape tile_type [q]) as (t2 & l2 & ->).
  unfold outcome, marker_fname. simpl snd. intros [= Heq].
  apply string_app_inj_l, string_app_inj_l, string_app_inj_l in Heq.
  apply string_app_inj_r, format_02X_inj in Heq.
  unfold mask_of_ports in Heq. simpl in Heq.
  rewrite !N.lor_0_r in Heq.
  rewrite (port_mask_recognised _ _ Hp), (port_mask_recognised _ _ Hq) in Heq.
  rewrite !N.shiftl_1_l in Heq.
  apply N.pow_inj_r in Heq; [|lia]. subst bq.
  by apply (PORT_TO_BIT_inj p q bp).
Qed.

Lemma marker_file_determines_port_witness :
  is_Some (Marker.PORT_TO_BIT !! "E1") ∧ "E1" = "E1".
Proof.
  assert (Hrec : is_Some (Marker.PORT_TO_BIT !! "E1")) by (vm_compute; eauto).
  split; [done|].
  apply (marker_file_determines_port "start" "E1" "E1"); [done | done |].
  reflexivity.
Defined.

(** X14. With two recognised ports the marker generator prints no warning
    and uses the ports as given: its run is the start tile of the start
    port, the goal tile of the goal port and the closing line, and the two
    files are named after the bits of the two ports. *)
Theorem recognised_ports_are_used_as_given
    (start_port goal_port : string) (sb gb : N) :
  Marker.PORT_TO_BIT !! start_port = Some sb →
  Marker.PORT_TO_BIT !! goal_port = Some gb →
  trace (Marker.generate_marker_tiles start_port goal_port)
  = trace (Marker.generate_marker_tile "start" [start_port])
    ++ trace (Marker.generate_marker_tile "goal" [goal_port])
    ++ [Print ("マーカータイル生成完了。ファイルは " +:+ Marker.OUT_DIR
               +:+ " ディレクトリに保存されました。")]
  ∧ outcome (Marker.generate_marker_tiles start_port goal_port)
    = Ok ("road-tile-marker-start-" +:+ format_02X (N.shiftl 1 sb) +:+ ".svg",
          "road-tile-marker-goal-" +:+ format_02X (N.shiftl 1 gb) +:+ ".svg").
Proof.
  intros Hs Hg. rewrite generate_marker_tiles_unfold.
  rewrite (PORT_TO_MASK_known start_port), (PORT_TO_MASK_known goal_port)
    by eauto.
  rewrite !ret_bind.
  destruct (generate_marker_tile_shape "start" [start_port]) as (t1 & l1 & ->).
  destruct (generate_marker_tile_shape "goal" [goal_port]) as (t2 & l2 & ->).
  unfold marker_fname, mask_of_ports. simpl foldr.
  rewrite !N.lor_0_r.
  rewrite (port_mask_recognised _ _ Hs), (port_mask_recognised _ _ Hg).
  split; reflexivity.
Qed.

Lemma recognised_ports_are_used_as_given_witness :
  outcome (Marker.generate_marker_tiles "N1" "S0")
  = Ok ("road-tile-marker-start-" +:+ format_02X (N.shiftl 1 1) +:+ ".svg",
        "road-tile-marker-goal-" +:+ format_02X (N.shiftl 1 5) +:+ ".svg").
Proof.
  apply (recognised_ports_are_used_as_given "N1" "S0" 1%N 5%N);
    vm_compute; reflexivity.
Defined.

(** ** The id of a written tile *)

Lemma id_is_stem_mask (tile_type : string) (mask : N)
    (desc outer inner transform : string) :
  Forall (id_is_stem Mask8.OUT_DIR)
    (trace (Mask8.write_svg (Mask8.tile_fname tile_type mask) desc
              outer inner transform)).
Proof.
  constructor; [|constructor].
  exists ("road-tile-" +:+ tile_type +:+ "-" +:+ format_02X mask). eexists.
  assert (Hname : Mask8.tile_fname tile_type mask
                  = ("road-tile-" +:+ tile_type +:+ "-" +:+ format_02X mask)
                    +:+ ".svg")
    by (unfold Mask8.tile_fname; by rewrite !string_app_assoc).
  rewrite Hname, drop_last4_svg. split; reflexivity.
Qed.

Lemma gen_rot_angles_ids rot tile_type base_key p variants used :
  Forall (id_is_stem Mask8.OUT_DIR)
    (trace (Mask8.gen_rot_angles rot tile_type base_key p variants used)).
Proof.
  revert used. induction variants as [|[idx angle] rest IH]; intros used.
  - constructor.
  - rewrite gen_rot_angles_cons.
    destruct (Mask8.variant_key rot base_key idx angle) as [key|e];
      [rewrite lift_ok_bind | constructor].
    destruct (Mask8.key_to_mask key) as [mask|e];
      [rewrite lift_ok_bind | constructor].
    destruct (decide (mask ∈ used)); [apply IH|].
    apply Forall_trace_bind; [apply id_is_stem_mask | intros _; apply IH].
Qed.

Lemma gen_rot_tiles_ids rot base_dict tile_type :
  Forall (id_is_stem Mask8.OUT_DIR)
    (trace (Mask8.gen_rot_tiles_with rot base_dict tile_type)).
Proof.
  rewrite trace_gen_rot_tiles_with. generalize (∅ : gset N).
  induction base_dict as [|[base_key p] rest IH]; intros used.
  - constructor.
  - rewrite gen_rot_items_cons.
    apply Forall_trace_bind; [apply gen_rot_angles_ids | apply IH].
Qed.

Lemma straight_loop_ids items used :
  Forall (id_is_stem Mask8.OUT_DIR) (trace (Mask8.straight_loop items used)).
Proof.
  revert used. induction items as [|[key p] rest IH]; intros used.
  - constructor.
  - rewrite straight_loop_cons.
    destruct (Mask8.key_to_mask key) as [mask|e];
      [rewrite lift_ok_bind | constructor].
    destruct (decide (mask ∈ used)); [apply IH|].
    apply Forall_trace_bind; [apply id_is_stem_mask | intros _; apply IH].
Qed.

Lemma generate_marker_tile_ids (tile_type : string) (ports : list string) :
  Forall (id_is_stem Marker.OUT_DIR)
    (trace (Marker.generate_marker_tile tile_type ports)).
Proof.
  unfold Marker.generate_marker_tile.
  rewrite calculate_mask_eq, lift_ok_bind.
  destruct (String.eqb tile_type "start").
  - constructor; [|by repeat constructor].
    exists ("road-tile-marker-start-" +:+ format_02X (mask_of_ports ports)).
    eexists.
    change ("road-tile-marker-start-" +:+ format_02X (mask_of_ports ports)
            +:+ ".svg")
      with (("road-tile-marker-start-" +:+ format_02X (mask_of_ports ports))
            +:+ ".svg").
    rewrite drop_last4_svg. split; reflexivity.
  - constructor; [|by repeat constructor].
    exists ("road-tile-marker-goal-" +:+ format_02X (mask_of_ports ports)).
    eexists.
    change ("road-tile-marker-goal-" +:+ format_02X (mask_of_ports ports)
            +:+ ".svg")
      with (("road-tile-marker-goal-" +:+ format_02X (mask_of_ports ports))
            +:+ ".svg").
    rewrite drop_last4_svg. split; reflexivity.
Qed.

Lemma generate_marker_tiles_ids (start_port goal_port : string) :
  Forall (id_is_stem Marker.OUT_DIR)
    (trace (Marker.generate_marker_tiles start_port goal_port)).
Proof.
  rewrite generate_marker_tiles_unfold.
  apply Forall_trace_bind;
    [destruct (dict_contains _ _); by repeat constructor | intros s].
  apply Forall_trace_bind;
    [destruct (dict_contains _ _); by repeat constructor | intros g].
  apply Forall_trace_bind; [apply generate_marker_tile_ids | intros f1].
  apply Forall_trace_bind; [apply generate_marker_tile_ids | intros f2].
  by repeat constructor.
Qed.

(** X8. The [id] attribute of every tile written by the mask-named
    generator and by the marker generator is the name of its file without
    the extension: the file [dir/stem.svg] opens with the [svg] element of
    id [stem].  This holds of every file of a pass of [gen_rot_tiles] and of
    the loop over the straight tiles, whatever the dictionary, of the 34
    files of the whole script, and of the two files of the marker script for
    every choice of ports. *)
Theorem written_tiles_have_stem_as_id :
  (∀ rot base_dict tile_type,
     Forall (id_is_stem Mask8.OUT_DIR)
       (trace (Mask8.gen_rot_tiles_with rot base_dict tile_type)))
  ∧ (∀ items used,
       Forall (id_is_stem Mask8.OUT_DIR)
         (trace (Mask8.straight_loop items used)))
  ∧ Forall (id_is_stem Mask8.OUT_DIR) (trace Mask8.main)
  ∧ length (written (trace Mask8.main)) = 34%nat
  ∧ (∀ tile_type ports,
       Forall (id_is_stem Marker.OUT_DIR)
         (trace (Marker.generate_marker_tile tile_type ports)))
  ∧ (∀ start goal,
       Forall (id_is_stem Marker.OUT_DIR) (trace (Marker.main start goal))
       ∧ length (written (trace (Marker.main start goal))) = 2%nat).
Proof.
  split_and!.
  - apply gen_rot_tiles_ids.
  - apply straight_loop_ids.
  - unfold Mask8.main, Mask8.gen_rot_tiles.
    apply Forall_trace_bind; [by repeat constructor | intros _].
    apply Forall_trace_bind; [by repeat constructor | intros _].
    apply Forall_trace_bind; [apply gen_rot_tiles_ids | intros _].
    apply Forall_trace_bind; [by repeat constructor | intros _].
    apply Forall_trace_bind; [apply gen_rot_tiles_ids | intros _].
    apply Forall_trace_bind; [by repeat constructor | intros _].
    apply Forall_trace_bind; [apply straight_loop_ids | intros _].
    by repeat constructor.
  - vm_compute. reflexivity.
  - apply generate_marker_tile_ids.
  - intros start goal. unfold Marker.main. split.
    + apply Forall_trace_bind; [by repeat constructor | intros _].
      apply generate_marker_tiles_ids.
    + rewrite emit_bind. unfold trace at 1. simpl fst. simpl written.
      destruct (generate_marker_tiles_files (default "E0" start)
                  (default "W0" goal)) as (s' & g' & ->).
      reflexivity.
Qed.

Lemma PORT_TO_LINES_two (port : string) (ls : list (N * N * N * N)) :
  Marker.PORT_TO_LINES !! port = Some ls →
  length ls = 2%nat ∧ is_Some (Marker.PORT_TO_BIT !! port).
Proof.
  revert port ls.
  apply (map_Forall_lookup
           (λ port ls, length ls = 2%nat ∧ is_Some (Marker.PORT_TO_BIT !! port))).
  apply (bool_decide_unpack _). vm_compute. exact I.
Qed.

Lemma PORT_TO_LINES_known (port : string) (bit : N) :
  Marker.PORT_TO_BIT !! port = Some bit →
  is_Some (Marker.PORT_TO_LINES !! port).
Proof.
  revert port bit.
  apply (map_Forall_lookup (λ port _, is_Some (Marker.PORT_TO_LINES !! port))).
  apply (bool_decide_unpack _). vm_compute. exact I.
Qed.

Lemma port_lines_loop_eq (lines : list string) (ports : list string) :
  Marker.port_lines_loop lines ports
  = lines ++ flat_map connector_lines ports.
Proof.
  revert lines. induction ports as [|port rest IH]; intros lines.
  - simpl. by rewrite app_nil_r.
  - simpl Marker.port_lines_loop. simpl flat_map.
    unfold dict_contains, connector_lines at 1.
    destruct (Marker.PORT_TO_LINES !! port) as [ls|] eqn:Hls.
    + rewrite bool_decide_eq_true_2 by eauto.
      by rewrite IH, <- app_assoc.
    + rewrite bool_decide_eq_false_2 by (by intros [? ?]). apply IH.
Qed.

(** X15. The connector group of a marker tile.  For an empty list of ports
    [generate_port_lines] gives the empty string; for every other list it
    gives, one per line, the comment, the opening tag of the group, the
    connector lines of each port in list order, and the closing tag.  A
    recognised port has exactly two connector lines, those listed below, and
    it contributes them once per occurrence; a name that is not a
    recognised port contributes nothing, so a list of such names only still
    gives the group, empty. *)
Theorem port_lines_text :
  Marker.generate_port_lines [] = ""
  ∧ (∀ port rest,
       Marker.generate_port_lines (port :: rest)
       = join Marker.newline
           ([ "  <!-- ポート接続（黒線） -->";
              dq "  <g stroke='#000' stroke-width='1' fill='none'>" ]
            ++ flat_map connector_lines (port :: rest)
            ++ [ "  </g>" ]))
  ∧ (∀ port, recognised port → length (connector_lines port) = 2%nat)
  ∧ (∀ port, ¬ recognised port → connector_lines port = [])
  ∧ map connector_lines ["N0"; "N1"; "E0"; "E1"; "S1"; "S0"; "W1"; "W0"]
    = [ [ dq "    <path d='M 10 0 L 10 10' />";
          dq "    <path d='M 20 0 L 20 10' />" ];
        [ dq "    <path d='M 20 0 L 20 10' />";
          dq "    <path d='M 30 0 L 30 10' />" ];
        [ dq "    <path d='M 30 10 L 40 10' />";
          dq "    <path d='M 30 20 L 40 20' />" ];
        [ dq "    <path d='M 30 20 L 40 20' />";
          dq "    <path d='M 30 30 L 40 30' />" ];
        [ dq "    <path d='M 20 30 L 20 40' />";
          dq "    <path d='M 30 30 L 30 40' />" ];
        [ dq "    <path d='M 10 30 L 10 40' />";
          dq "    <path d='M 20 30 L 20 40' />" ];
        [ dq "    <path d='M 0 20 L 10 20' />";
          dq "    <path d='M 0 30 L 10 30' />" ];
        [ dq "    <path d='M 0 10 L 10 10' />";
          dq "    <path d='M 0 20 L 10 20' />" ] ]
  ∧ Marker.generate_port_lines ["E0"]
    = dq "  <!-- ポート接続（黒線） -->
  <g stroke='#000' stroke-width='1' fill='none'>
    <path d='M 30 10 L 40 10' />
    <path d='M 30 20 L 40 20' />
  </g>"
  ∧ Marker.generate_port_lines ["Z9"]
    = dq "  <!-- ポート接続（黒線） -->
  <g stroke='#000' stroke-width='1' fill='none'>
  </g>".
Proof.
  split_and!.
  - reflexivity.
  - intros port rest. unfold Marker.generate_port_lines.
    by rewrite port_lines_loop_eq, <- app_assoc.
  - intros port [bit Hbit]. unfold connector_lines.
    destruct (PORT_TO_LINES_known _ _ Hbit) as [ls Hls]. rewrite Hls.
    rewrite length_map. by apply (PORT_TO_LINES_two port).
  - intros port Hnot. unfold connector_lines.
    destruct (Marker.PORT_TO_LINES !! port) as [ls|] eqn:Hls; [|done].
    destruct Hnot. by apply (PORT_TO_LINES_two port ls).
  - vm_compute. reflexivity.
  - vm_compute. reflexivity.
  - vm_compute. reflexivity.
Qed.

Lemma port_lines_text_witness :
  length (connector_lines "S1") = 2%nat ∧ connector_lines "north" = [].
Proof.
  destruct port_lines_text as (_ & _ & Htwo & Hnone & _).
  split.
  - apply Htwo. vm_compute. eauto.
  - apply Hnone. intros [bit Hbit]. vm_compute in Hbit. discriminate Hbit.
Defined.

(** ** The key-named generator *)

(** X16. [get_description] fails only on a key of exactly two parts one of
    which is empty, and then with [IndexError]; on every such key it does
    fail; a key that does not have exactly two parts always gets a
    description, which for a tile type of ASCII characters is the
    capitalised tile type followed by the word tile. *)
Theorem get_description_outcome (tile_key tile_type : string) :
  (∀ e, TileKeyGen.get_description tile_key tile_type = Raise e →
        e = IndexError
        ∧ ∃ a b, split "-" tile_key = [a; b] ∧ (a = "" ∨ b = ""))
  ∧ (∀ a b, split "-" tile_key = [a; b] → a = "" ∨ b = "" →
       TileKeyGen.get_description tile_key tile_type = Raise IndexError)
  ∧ (length (split "-" tile_key) ≠ 2%nat →
       ∃ description,
         TileKeyGen.get_description tile_key tile_type = Ok description)
  ∧ (length (split "-" tile_key) ≠ 2%nat →
       is_ascii tile_type = true →
       TileKeyGen.get_description tile_key tile_type
       = Ok (TileKeyGen.capitalize tile_type +:+ " tile")).
Proof.
  unfold TileKeyGen.get_description.
  destruct (split "-" tile_key) as [|a [|b [|c rest]]]; split_and!;
    try done; try (by eexists).
  - intros e. destruct a as [|ca a]; [|destruct b as [|cb b]]; simpl; try done.
    + intros [= <-]. split; [done|]. exists "", b. split; [done | by left].
    + intros [= <-]. split; [done|]. exists (String ca a), "".
      split; [done | by right].
  - intros a' b' [= <- <-] [->| ->]; [done|]. by destruct a.
Qed.

Lemma get_description_outcome_witness :
  TileKeyGen.get_description "U1U2-" "curve" = Raise IndexError
  ∧ TileKeyGen.get_description "U1U2-R1R2-D1D2" "cURVE" = Ok "Curve tile".
Proof.
  split.
  - apply (get_description_outcome "U1U2-" "curve") with (a := "U1U2") (b := "").
    + vm_compute. reflexivity.
    + by right.
  - apply (get_description_outcome "U1U2-R1R2-D1D2" "cURVE").
    + vm_compute. lia.
    + reflexivity.
Defined.

Lemma key_path_inj (tile_type k k' : string) :
  key_path tile_type k = key_path tile_type k' → k = k'.
Proof.
  rewrite !key_path_eq. intros H.
  apply string_app_inj_l, string_app_inj_l, string_app_inj_l in H.
  by apply string_app_inj_r in H.
Qed.

(** X17. A pass of the key-named generator that returns has written
    pairwise distinct files exactly when its candidate keys are pairwise
    distinct: a key that comes up twice is written twice under the same
    name, the second write replacing the first. *)
Theorem key_named_files_distinct_iff rot base_paths tile_type count n :
  outcome (TileKeyGen.generate_rotated_tiles_with rot base_paths tile_type count)
    = Ok n →
  NoDup (written (trace (TileKeyGen.generate_rotated_tiles_with rot base_paths
                           tile_type count)))
  ↔ NoDup (candidate_keys rot base_paths).
Proof.
  intros Hout. destruct (generate_rotated_tiles_all _ _ _ _ _ Hout) as [-> _].
  split.
  - apply NoDup_fmap_1.
  - apply NoDup_fmap_2. intros k k'. apply key_path_inj.
Qed.

Lemma key_named_files_distinct_iff_witness :
  NoDup (written (trace (TileKeyGen.generate_rotated_tiles
                           TileKeyGen.sharp_paths_base "sharp" 16%N)))
  ↔ NoDup (candidate_keys TileKeyGen.rotated_keys_map TileKeyGen.sharp_paths_base).
Proof.
  apply (key_named_files_distinct_iff TileKeyGen.rotated_keys_map
           TileKeyGen.sharp_paths_base "sharp" 16%N 32%N).
  vm_compute. reflexivity.
Defined.

Lemma py_index_raises {A} (l : list A) (i : Z) (e : exn) :
  py_index l i = Raise e → e = IndexError.
Proof.
  unfold py_index. destruct (_ <? 0)%Z; [by intros [= <-]|].
  destruct (l !! _); [done | by intros [= <-]].
Qed.

Lemma py_index_in_range {A} (l : list A) (i : Z) :
  (0 ≤ i < Z.of_nat (length l))%Z → ∃ x, py_index l i = Ok x.
Proof.
  intros Hi. unfold py_index.
  destruct (Z.ltb_spec i 0) as [?|_]; [lia|].
  destruct (Z.ltb_spec i 0) as [?|_]; [lia|].
  destruct (lookup_lt_is_Some_2 l (Z.to_nat i)) as [x Hx]; [lia|].
  rewrite Hx. by exists x.
Qed.

(** X18. The two generators derive the same keys: for every rotation
    table, base key, loop index and angle, the key-named generator draws a
    tile for key [k] exactly when the mask-named generator derives the key
    [k]. *)
Theorem generators_derive_same_keys
    (rot : gmap string (list string)) (base_key : string) (i : Z) (angle : N)
    (k : string) :
  TileKeyGen.rotated_tile_key rot base_key i angle = Ok (Some k)
  ↔ Mask8.variant_key rot base_key i angle = Ok k.
Proof.
  unfold TileKeyGen.rotated_tile_key, Mask8.variant_key.
  destruct (angle =? 0)%N; [split; by intros [= ->]|].
  unfold dict_contains, dict_getitem.
  destruct (rot !! base_key) as [ks|].
  - rewrite bool_decide_eq_true_2 by eauto. simpl.
    destruct (Z.ltb_spec (i - 1) (Z.of_nat (length ks))) as [Hlt|Hge].
    + destruct (py_index ks (i - 1)) as [x|e]; simpl;
        split; intros [= ->]; done.
    + split; [done|].
      destruct (Z.ltb_spec (i - 1) 0) as [Hneg|Hpos]; [lia|].
      by rewrite py_index_out_of_range by lia.
  - rewrite bool_decide_eq_false_2 by (by intros [? ?]). done.
Qed.

Lemma get_description_raises (tile_key tile_type : string) (e : exn) :
  TileKeyGen.get_description tile_key tile_type = Raise e → e = IndexError.
Proof.
  unfold TileKeyGen.get_description.
  destruct (split "-" tile_key) as [|a [|b [|c rest]]]; try done.
  destruct a as [|ca a]; [|destruct b as [|cb b]]; simpl; try done;
    by intros [= <-].
Qed.

Lemma rotated_tile_key_in_loop rot base_key i angle :
  (angle =? 0)%N = true ∨ (1 ≤ i)%Z →
  ∃ choice, TileKeyGen.rotated_tile_key rot base_key i angle = Ok choice.
Proof.
  intros Hloop. unfold TileKeyGen.rotated_tile_key.
  destruct (angle =? 0)%N eqn:Hangle; [by eexists|].
  destruct Hloop as [?|Hi]; [done|].
  unfold dict_contains, dict_getitem.
  destruct (rot !! base_key) as [ks|].
  - rewrite bool_decide_eq_true_2 by eauto. simpl.
    destruct (Z.ltb_spec (i - 1) (Z.of_nat (length ks))) as [Hlt|Hge];
      [|by eexists].
    destruct (py_index_in_range ks (i - 1)) as [x ->]; [lia|]. by eexists.
  - rewrite bool_decide_eq_false_2 by (by intros [? ?]). by eexists.
Qed.

Lemma rotated_angles_stops rot tile_type base_key p variants count :
  Forall (λ ia : Z * N, (ia.2 =? 0)%N = true ∨ (1 ≤ ia.1)%Z) variants →
  let r := TileKeyGen.rotated_angles rot tile_type base_key p variants count in
  (∀ k, outcome r ≠ Raise (KeyError k))
  ∧ ((∃ key, key ∈ omap (candidate_key rot base_key) variants
             ∧ TileKeyGen.get_description key tile_type = Raise IndexError)
     → ∃ e, outcome r = Raise e).
Proof.
  cbv zeta. intros Hloop. revert count.
  induction Hloop as [|[i angle] rest Hia Hrest IH]; intros count.
  - simpl. split; [done|].
    intros (key & Hin & _). by apply elem_of_nil in Hin.
  - rewrite rotated_angles_cons, omap_cons_match.
    assert (Hc : candidate_key rot base_key (i, angle)
                 = match TileKeyGen.rotated_tile_key rot base_key i angle with
                   | Ok (Some tile_key) => Some tile_key
                   | _ => None
                   end) by reflexivity.
    destruct (rotated_tile_key_in_loop rot base_key i angle Hia) as [choice Hk].
    rewrite Hk in Hc |- *. rewrite lift_ok_bind, Hc.
    destruct choice as [tile_key|].
    + cbv zeta.
      destruct (TileKeyGen.get_description tile_key tile_type) as [d|e'] eqn:Hd.
      * rewrite lift_ok_bind, emit_bind. unfold outcome at 1 2. simpl snd.
        destruct (IH (count + 1)%N) as [IH1 IH2]. split; [done|].
        intros (key & [->|Hin]%elem_of_cons & Hfail); [congruence|].
        apply IH2. by exists key.
      * pose proof (get_description_raises _ _ _ Hd) as ->.
        split; [done | by eexists].
    + rewrite emit_bind. unfold outcome at 1 2. simpl snd. apply IH.
Qed.

Lemma loop_index_of_angle (i : Z) (angle : N) :
  (i, angle) ∈ enumerate TileKeyGen.ANGLES →
  (angle =? 0)%N = true ∨ (1 ≤ i)%Z.
Proof.
  destruct enumerate_ANGLES as [_ ->].
  rewrite !elem_of_cons, elem_of_nil.
  intros [[= -> ->]|[[= -> ->]|[[= -> ->]|[[= -> ->]|[]]]]];
    first [by left | right; lia].
Qed.

Lemma py_index_lookup {A} (l : list A) (i : Z) (x : A) :
  (0 ≤ i)%Z → l !! Z.to_nat i = Some x → py_index l i = Ok x.
Proof.
  intros Hi Hx. unfold py_index.
  destruct (Z.ltb_spec i 0) as [?|_]; [lia|].
  destruct (Z.ltb_spec i 0) as [?|_]; [lia|].
  by rewrite Hx.
Qed.

Lemma generate_rotated_tiles_stops rot base_paths tile_type count :
  let r := TileKeyGen.generate_rotated_tiles_with rot base_paths tile_type count in
  (∀ k, outcome r ≠ Raise (KeyError k))
  ∧ ((∃ key, key ∈ candidate_keys rot base_paths
             ∧ TileKeyGen.get_description key tile_type = Raise IndexError)
     → ∃ e, outcome r = Raise e).
Proof.
  cbv zeta. revert count.
  induction base_paths as [|[base_key p] rest IH]; intros count.
  - simpl. split; [done|].
    intros (key & Hin & _). by apply elem_of_nil in Hin.
  - rewrite generate_rotated_tiles_cons, outcome_bind, candidate_keys_cons.
    assert (Hloop : Forall (λ ia : Z * N, (ia.2 =? 0)%N = true ∨ (1 ≤ ia.1)%Z)
                      (enumerate TileKeyGen.ANGLES)).
    { apply Forall_forall. intros [i angle]. apply loop_index_of_angle. }
    destruct (rotated_angles_stops rot tile_type base_key p
                (enumerate TileKeyGen.ANGLES) count Hloop) as [Hin1 Hin2].
    destruct (outcome (TileKeyGen.rotated_angles rot tile_type base_key p
                         (enumerate TileKeyGen.ANGLES) count))
      as [count'|e'] eqn:Hinner.
    + destruct (IH count') as [IH1 IH2]. split; [done|].
      intros (key & [Hin|Hin]%elem_of_app & Hfail).
      * assert (∃ e, Ok count' = Raise e) as [e He]
          by (apply Hin2; by exists key).
        done.
      * apply IH2. by exists key.
    + split; [done | by eexists].
Qed.

(** X19. The rotation lookup of the key-named generator is guarded for
    every table: for each loop index and angle of the loop, choosing the
    key never raises; the choice is the base key at angle 0, the entry at
    position [i - 1] of the base key's list when the table has one, and no
    key, the branch that warns, otherwise.  So a pass never stops on a
    [KeyError], also when the table has no entry for a base key; and a pass
    over a dictionary one of whose candidate keys has no description does
    not return. *)
Theorem rotation_lookup_is_guarded
    (rot : gmap string (list string)) (base_key : string) (i : Z) (angle : N) :
  (i, angle) ∈ enumerate TileKeyGen.ANGLES →
  TileKeyGen.rotated_tile_key rot base_key i angle
  = Ok (if (angle =? 0)%N then Some base_key
        else match rot !! base_key with
             | Some ks => ks !! Z.to_nat (i - 1)
             | None => None
             end)
  ∧ (∀ base_paths tile_type count k,
       outcome (TileKeyGen.generate_rotated_tiles_with rot base_paths
                  tile_type count) ≠ Raise (KeyError k))
  ∧ (∀ base_paths tile_type count key,
       key ∈ candidate_keys rot base_paths →
       TileKeyGen.get_description key tile_type = Raise IndexError →
       ∃ e, outcome (TileKeyGen.generate_rotated_tiles_with rot base_paths
                       tile_type count) = Raise e).
Proof.
  intros Hia. split_and!.
  - apply loop_index_of_angle in Hia.
    unfold TileKeyGen.rotated_tile_key.
    destruct (angle =? 0)%N eqn:Hangle; [done|].
    destruct Hia as [?|Hi]; [done|].
    unfold dict_contains, dict_getitem.
    destruct (rot !! base_key) as [ks|].
    + rewrite bool_decide_eq_true_2 by eauto. simpl.
      destruct (Z.ltb_spec (i - 1) (Z.of_nat (length ks))) as [Hlt|Hge].
      * destruct (lookup_lt_is_Some_2 ks (Z.to_nat (i - 1))) as [x Hx]; [lia|].
        rewrite Hx, (py_index_lookup ks (i - 1) x) by (done || lia). done.
      * rewrite lookup_ge_None_2 by lia. done.
    + rewrite bool_decide_eq_false_2 by (by intros [? ?]). done.
  - intros base_paths tile_type count k.
    apply (generate_rotated_tiles_stops rot base_paths tile_type count).
  - intros base_paths tile_type count key Hin Hfail.
    apply (generate_rotated_tiles_stops rot base_paths tile_type count).
    by exists key.
Qed.

Lemma rotation_lookup_is_guarded_witness :
  TileKeyGen.rotated_tile_key TileKeyGen.rotated_keys_map "L2L3-R2R3" 2 180
  = Ok None
  ∧ TileKeyGen.rotated_tile_key TileKeyGen.rotated_keys_map "U2U3-R1R2" 3 270
    = Ok (Some "L2L3-U1U2").
Proof.
  split.
  - apply (rotation_lookup_is_guarded TileKeyGen.rotated_keys_map
             "L2L3-R2R3" 2%Z 180%N).
    apply (list_elem_of_lookup_2 _ 2%nat). reflexivity.
  - apply (rotation_lookup_is_guarded TileKeyGen.rotated_keys_map
             "U2U3-R1R2" 3%Z 270%N).
    apply (list_elem_of_lookup_2 _ 3%nat). reflexivity.
Defined.
